(** * Chat client of MCP_RBAC: streaming turn, local session store, login

    A shallow embedding of the chat component ([ChatInterface]: its
    [handleSend], and the handlers and effects around it), of the storage
    service ([StorageService]) and of the authentication provider
    ([AuthProvider], read from the store) of the front end, together with
    the parts of the JavaScript platform they call (strings, [Date],
    [JSON.parse], [TextDecoder], [Array.prototype.sort]). *)

From Stdlib Require Import String Ascii DecimalString.
From Stdlib Require Import ZArith List Bool Lia Permutation.
Import ListNotations.
Open Scope Z_scope.

(** ** JavaScript strings *)

Module JSString.

(** A JavaScript string is a sequence of UTF-16 code units. *)
Definition jsstring := list Z.

(** The code units of an ASCII literal. *)
Definition js (s : string) : jsstring :=
  map (fun a => Z.of_N (N_of_ascii a)) (list_ascii_of_string s).
Arguments js s%_string.

Fixpoint str_eqb (a b : jsstring) : bool :=
  match a, b with
  | [], [] => true
  | c :: a', d :: b' => (c =? d) && str_eqb a' b'
  | _, _ => false
  end.

(** [s.startsWith(p)] *)
Fixpoint startsWith (s p : jsstring) {struct p} : bool :=
  match p with
  | [] => true
  | c :: p' =>
      match s with
      | [] => false
      | d :: s' => (c =? d) && startsWith s' p'
      end
  end.

(** [s.slice(n)] and [s.slice(0, n)] for a non-negative [n]. *)
Definition slice_from (n : nat) (s : jsstring) : jsstring := skipn n s.
Definition slice_to (n : nat) (s : jsstring) : jsstring := firstn n s.

(** [s.split(sep)] for a non-empty separator: the pieces between the
    successive occurrences of [sep], found from the left; [skip] counts the
    code units of a separator that was just matched and are still to pass. *)
Fixpoint split_aux (sep s cur : jsstring) (skip : nat) : list jsstring :=
  match s with
  | [] => [rev cur]
  | c :: s' =>
      match skip with
      | S k => split_aux sep s' cur k
      | O =>
          if startsWith s sep
          then rev cur :: split_aux sep s' [] (List.length sep - 1)
          else split_aux sep s' (c :: cur) 0
      end
  end.

Definition split (s sep : jsstring) : list jsstring := split_aux sep s [] 0.

(** WhiteSpace and LineTerminator code points, the ones [trim] removes. *)
Definition isWhiteSpace (c : Z) : bool :=
  ((9 <=? c) && (c <=? 13)) || (c =? 32) || (c =? 160) || (c =? 5760)
  || ((8192 <=? c) && (c <=? 8202)) || (c =? 8232) || (c =? 8233)
  || (c =? 8239) || (c =? 8287) || (c =? 12288) || (c =? 65279).

Fixpoint trimStart (s : jsstring) : jsstring :=
  match s with
  | c :: s' => if isWhiteSpace c then trimStart s' else s
  | [] => []
  end.

Definition trim (s : jsstring) : jsstring := rev (trimStart (rev (trimStart s))).

(** ToBoolean of a string: the empty string is the only falsy one. *)
Definition truthy (s : jsstring) : bool :=
  match s with [] => false | _ :: _ => true end.

(** Number::toString of an integer (below 10^21 in magnitude): its decimal
    digits. *)
Definition Number_toString (z : Z) : jsstring :=
  js (NilZero.string_of_int (Z.to_int z)).

End JSString.
Export JSString.

(** ** Completions *)

(** What a [throw] carries, as far as the callers look at it: whether it is
    an [Error] instance, and then its [message]. *)
Inductive Thrown :=
| ErrorObject (name message : jsstring)
| NonErrorValue.

Inductive Completion (A : Type) :=
| Normal (a : A)
| Throw (e : Thrown).
Arguments Normal {A} a.
Arguments Throw {A} e.

(** ** Date *)

Module JSDate.

Definition msPerDay : Z := 86400000.
Definition msPerHour : Z := 3600000.
Definition msPerMinute : Z := 60000.
Definition msPerSecond : Z := 1000.

(** A Date object holds a time value (milliseconds since the epoch, at most
    8.64e15 in magnitude) or NaN. *)
Inductive Date :=
| DateValue (t : Z)
| InvalidDate.

Definition maxTime : Z := 8640000000000000.

Definition validTime (t : Z) : bool := (- maxTime <=? t) && (t <=? maxTime).

Definition TimeClip (t : Z) : Date :=
  if validTime t then DateValue t else InvalidDate.

Definition Day (t : Z) : Z := t / msPerDay.
Definition TimeWithinDay (t : Z) : Z := t mod msPerDay.

Definition isLeapYear (y : Z) : bool :=
  (y mod 4 =? 0) && (negb (y mod 100 =? 0) || (y mod 400 =? 0)).

Definition DaysInYear (y : Z) : Z := if isLeapYear y then 366 else 365.

Definition DayFromYear (y : Z) : Z :=
  365 * (y - 1970) + (y - 1969) / 4 - (y - 1901) / 100 + (y - 1601) / 400.

(** The largest year whose first day is not after day [d]: an estimate from
    the mean length of a year, off by one at most, then adjusted. *)
Definition YearFromDay (d : Z) : Z :=
  let y := 1970 + (d * 400) / 146097 in
  if DayFromYear y >? d then y - 1
  else if DayFromYear (y + 1) <=? d then y + 1
  else y.

Definition YearFromTime (t : Z) : Z := YearFromDay (Day t).
Definition DayWithinYear (t : Z) : Z := Day t - DayFromYear (YearFromTime t).
Definition InLeapYear (t : Z) : Z := if isLeapYear (YearFromTime t) then 1 else 0.

(** Month (0 to 11) and day of the month (1 to 31) of day [d] of a year. *)
Definition MonthFromDayWithinYear (d leap : Z) : Z :=
  if d <? 31 then 0
  else if d <? 59 + leap then 1
  else if d <? 90 + leap then 2
  else if d <? 120 + leap then 3
  else if d <? 151 + leap then 4
  else if d <? 181 + leap then 5
  else if d <? 212 + leap then 6
  else if d <? 243 + leap then 7
  else if d <? 273 + leap then 8
  else if d <? 304 + leap then 9
  else if d <? 334 + leap then 10
  else 11.

(** The number of days of a year before its month [m] (0 to 11). *)
Definition DaysBeforeMonth (m leap : Z) : Z :=
  if m =? 0 then 0
  else if m =? 1 then 31
  else if m =? 2 then 59 + leap
  else if m =? 3 then 90 + leap
  else if m =? 4 then 120 + leap
  else if m =? 5 then 151 + leap
  else if m =? 6 then 181 + leap
  else if m =? 7 then 212 + leap
  else if m =? 8 then 243 + leap
  else if m =? 9 then 273 + leap
  else if m =? 10 then 304 + leap
  else 334 + leap.

Definition MonthFromTime (t : Z) : Z :=
  MonthFromDayWithinYear (DayWithinYear t) (InLeapYear t).

Definition DateFromTime (t : Z) : Z :=
  DayWithinYear t - DaysBeforeMonth (MonthFromTime t) (InLeapYear t) + 1.

Definition HourFromTime (t : Z) : Z := (t / msPerHour) mod 24.
Definition MinFromTime (t : Z) : Z := (t / msPerMinute) mod 60.
Definition SecFromTime (t : Z) : Z := (t / msPerSecond) mod 60.
Definition msFromTime (t : Z) : Z := t mod msPerSecond.

Definition MakeTime (hour min sec ms : Z) : Z :=
  hour * msPerHour + min * msPerMinute + sec * msPerSecond + ms.

(** [month] counts from 0; months beyond a year carry into the year. *)
Definition MakeDay (year month date : Z) : Z :=
  let ym := year + month / 12 in
  let mn := month mod 12 in
  DayFromYear ym + DaysBeforeMonth mn (if isLeapYear ym then 1 else 0) + date - 1.

Definition MakeDate (day time : Z) : Z := day * msPerDay + time.

(** *** Date.prototype.toISOString *)

(** [v] in decimal on [n] digits. *)
Fixpoint pad (n : nat) (v : Z) : jsstring :=
  match n with
  | O => []
  | S k => pad k (v / 10) ++ [48 + v mod 10]
  end.

(** Four digits for the years 0 to 9999, a sign and six digits otherwise. *)
Definition isoYear (y : Z) : jsstring :=
  if (0 <=? y) && (y <=? 9999) then pad 4 y
  else (if 0 <=? y then 43 else 45) :: pad 6 (Z.abs y).

(** YYYY-MM-DDTHH:mm:ss.sssZ *)
Definition isoString (t : Z) : jsstring :=
  isoYear (YearFromTime t) ++ [45] ++ pad 2 (MonthFromTime t + 1) ++ [45]
  ++ pad 2 (DateFromTime t) ++ [84] ++ pad 2 (HourFromTime t) ++ [58]
  ++ pad 2 (MinFromTime t) ++ [58] ++ pad 2 (SecFromTime t) ++ [46]
  ++ pad 3 (msFromTime t) ++ [90].

(** [toISOString] throws a RangeError on an invalid date. *)
Definition toISOString (d : Date) : Completion jsstring :=
  match d with
  | DateValue t => Normal (isoString t)
  | InvalidDate => Throw (ErrorObject (js "RangeError") (js "Invalid time value"))
  end.

(** *** Date.parse *)

Definition digitValue (c : Z) : option Z :=
  if (48 <=? c) && (c <=? 57) then Some (c - 48) else None.

(** Exactly [n] decimal digits. *)
Fixpoint readDigits (n : nat) (s : jsstring) : option (Z * jsstring) :=
  match n with
  | O => Some (0, s)
  | S k =>
      match readDigits k s with
      | Some (v, c :: rest) =>
          match digitValue c with
          | Some d => Some (10 * v + d, rest)
          | None => None
          end
      | _ => None
      end
  end.

Definition expect (c : Z) (s : jsstring) : option jsstring :=
  match s with
  | d :: rest => if c =? d then Some rest else None
  | [] => None
  end.

Definition bind {A B} (m : option A) (k : A -> option B) : option B :=
  match m with Some a => k a | None => None end.

Notation "' p <- m ;; k" := (bind m (fun p => k))
  (at level 61, p pattern, m at next level, right associativity).
Notation "x <- m ;; k" := (bind m (fun x => k))
  (at level 61, m at next level, right associativity).

Definition isoYearField (s : jsstring) : option (Z * jsstring) :=
  match s with
  | c :: rest =>
      if c =? 43 then readDigits 6 rest
      else if c =? 45 then
        '(y, r) <- readDigits 6 rest ;;
        if y =? 0 then None else Some (- y, r)
      else readDigits 4 s
  | [] => None
  end.

(** The date-time format of toISOString, in UTC: the one form of the Date
    Time String Format this client ever writes.  Element values out of
    range give NaN; a day up to 31 is taken in every month and carried into
    the next by MakeDay. *)
Definition parseISO (s : jsstring) : option Z :=
  '(y, s) <- isoYearField s ;;
  s <- expect 45 s ;;
  '(mo, s) <- readDigits 2 s ;;
  s <- expect 45 s ;;
  '(d, s) <- readDigits 2 s ;;
  s <- expect 84 s ;;
  '(h, s) <- readDigits 2 s ;;
  s <- expect 58 s ;;
  '(mi, s) <- readDigits 2 s ;;
  s <- expect 58 s ;;
  '(sec, s) <- readDigits 2 s ;;
  s <- expect 46 s ;;
  '(ms, s) <- readDigits 3 s ;;
  s <- expect 90 s ;;
  match s with
  | [] =>
      if (1 <=? mo) && (mo <=? 12) && (1 <=? d) && (d <=? 31)
         && ((h <=? 23) || ((h =? 24) && (mi =? 0) && (sec =? 0) && (ms =? 0)))
         && (mi <=? 59) && (sec <=? 59)
      then Some (MakeDate (MakeDay y (mo - 1) d) (MakeTime h mi sec ms))
      else None
  | _ :: _ => None
  end.

(** One or more decimal digits. *)
Fixpoint readNumber (s : jsstring) (acc : option Z) : option (Z * jsstring) :=
  match s with
  | c :: rest =>
      match digitValue c with
      | Some d => readNumber rest (Some (10 * (match acc with Some v => v | None => 0 end) + d))
      | None => match acc with Some v => Some (v, s) | None => None end
      end
  | [] => match acc with Some v => Some (v, []) | None => None end
  end.

(** Outside the interchange format Date.parse is left to the host.  The
    model takes the host of the usual deployment, an en-US locale in UTC:
    month/day/year, two-digit years in 1950-2049, and nothing else. *)
Definition parseLocale (s : jsstring) : option Z :=
  '(mo, s) <- readNumber s None ;;
  s <- expect 47 s ;;
  '(d, s) <- readNumber s None ;;
  s <- expect 47 s ;;
  '(y, s) <- readNumber s None ;;
  match s with
  | [] =>
      let y := if y <=? 49 then y + 2000 else if y <=? 99 then y + 1900 else y in
      if (1 <=? mo) && (mo <=? 12) && (1 <=? d) && (d <=? 31)
      then Some (MakeDate (MakeDay y (mo - 1) d) 0)
      else None
  | _ :: _ => None
  end.

(** [Date.parse(s)]; [None] is NaN. *)
Definition Date_parse (s : jsstring) : option Z :=
  match parseISO s with
  | Some t => Some t
  | None => parseLocale s
  end.

(** [new Date(s)] for a string [s]. *)
Definition Date_fromString (s : jsstring) : Date :=
  match Date_parse s with
  | Some t => TimeClip t
  | None => InvalidDate
  end.

(** [d.getTime()]; [None] is NaN. *)
Definition getTime (d : Date) : option Z :=
  match d with DateValue t => Some t | InvalidDate => None end.

(** [d.toLocaleDateString()] on the same host. *)
Definition toLocaleDateString (d : Date) : jsstring :=
  match d with
  | DateValue t =>
      Number_toString (MonthFromTime t + 1) ++ [47]
      ++ Number_toString (DateFromTime t) ++ [47]
      ++ Number_toString (YearFromTime t)
  | InvalidDate => js "Invalid Date"
  end.

End JSDate.
Export JSDate.


(** ** JSON.parse *)

Module JSON.

(** The values [JSON.parse] gives.  A number is kept as the lexeme that
    stands for it, its Number value being the double nearest to the
    decimal; an object as its members in the order of the text. *)
#[warnings="-register-all"] Inductive value :=
| JNull
| JBool (b : bool)
| JNumber (lexeme : jsstring)
| JString (s : jsstring)
| JArray (elems : list value)
| JObject (members : list (jsstring * value)).

(** A JavaScript value as this client meets them: [undefined] or a value
    that came out of [JSON.parse]. *)
Definition JSValue := option value.
Definition undefined : JSValue := None.

Inductive Token :=
| TLBrace | TRBrace | TLBracket | TRBracket | TColon | TComma
| TString (s : jsstring)
| TNumber (lexeme : jsstring)
| TLiteral (v : value).

(** The lexer reads one code unit at a time; accumulators are reversed. *)
Inductive LexMode :=
| LStart
| LString (acc : jsstring)
| LEscape (acc : jsstring)
| LUnicode (acc : jsstring) (k : nat) (v : Z)
| LNumber (acc : jsstring)
| LWord (acc : jsstring).

Definition isJSONSpace (c : Z) : bool :=
  (c =? 32) || (c =? 9) || (c =? 10) || (c =? 13).
Definition isDigit (c : Z) : bool := (48 <=? c) && (c <=? 57).
Definition isLower (c : Z) : bool := (97 <=? c) && (c <=? 122).
Definition isNumberChar (c : Z) : bool :=
  isDigit c || (c =? 43) || (c =? 45) || (c =? 46) || (c =? 101) || (c =? 69).

Definition hexValue (c : Z) : option Z :=
  if isDigit c then Some (c - 48)
  else if (97 <=? c) && (c <=? 102) then Some (c - 87)
  else if (65 <=? c) && (c <=? 70) then Some (c - 55)
  else None.

(** The code unit a single-character escape stands for. *)
Definition escapeValue (c : Z) : option Z :=
  if c =? 34 then Some 34
  else if c =? 92 then Some 92
  else if c =? 47 then Some 47
  else if c =? 98 then Some 8
  else if c =? 102 then Some 12
  else if c =? 110 then Some 10
  else if c =? 114 then Some 13
  else if c =? 116 then Some 9
  else None.

Fixpoint dropDigits (s : jsstring) : jsstring :=
  match s with
  | c :: s' => if isDigit c then dropDigits s' else s
  | [] => []
  end.

Definition intPart (s : jsstring) : option jsstring :=
  match s with
  | c :: r => if c =? 48 then Some r else if isDigit c then Some (dropDigits r) else None
  | [] => None
  end.

Definition fracPart (s : jsstring) : option jsstring :=
  match s with
  | c :: r =>
      if c =? 46 then
        match r with
        | d :: r' => if isDigit d then Some (dropDigits r') else None
        | [] => None
        end
      else Some s
  | [] => Some s
  end.

Definition expPart (s : jsstring) : option jsstring :=
  match s with
  | c :: r =>
      if (c =? 101) || (c =? 69) then
        let r := match r with
                 | g :: r' => if (g =? 43) || (g =? 45) then r' else r
                 | [] => r
                 end in
        match r with
        | d :: r' => if isDigit d then Some (dropDigits r') else None
        | [] => None
        end
      else Some s
  | [] => Some s
  end.

(** The number grammar: an optional minus, an integer part without leading
    zero, an optional fraction, an optional exponent. *)
Definition validNumber (s : jsstring) : bool :=
  let s := match s with
           | c :: r => if c =? 45 then r else s
           | [] => s
           end in
  match intPart s with
  | Some s =>
      match fracPart s with
      | Some s =>
          match expPart s with
          | Some [] => true
          | _ => false
          end
      | None => false
      end
  | None => false
  end.

Definition finishNumber (acc : jsstring) : option Token :=
  let s := rev acc in if validNumber s then Some (TNumber s) else None.

Definition finishWord (acc : jsstring) : option Token :=
  let s := rev acc in
  if str_eqb s (js "true") then Some (TLiteral (JBool true))
  else if str_eqb s (js "false") then Some (TLiteral (JBool false))
  else if str_eqb s (js "null") then Some (TLiteral JNull)
  else None.

Definition lexStart (c : Z) (toks : list Token) : option (LexMode * list Token) :=
  if isJSONSpace c then Some (LStart, toks)
  else if c =? 123 then Some (LStart, TLBrace :: toks)
  else if c =? 125 then Some (LStart, TRBrace :: toks)
  else if c =? 91 then Some (LStart, TLBracket :: toks)
  else if c =? 93 then Some (LStart, TRBracket :: toks)
  else if c =? 58 then Some (LStart, TColon :: toks)
  else if c =? 44 then Some (LStart, TComma :: toks)
  else if c =? 34 then Some (LString [], toks)
  else if (c =? 45) || isDigit c then Some (LNumber [c], toks)
  else if isLower c then Some (LWord [c], toks)
  else None.

Definition lexStep (mode : LexMode) (toks : list Token) (c : Z)
  : option (LexMode * list Token) :=
  match mode with
  | LStart => lexStart c toks
  | LString acc =>
      if c =? 34 then Some (LStart, TString (rev acc) :: toks)
      else if c =? 92 then Some (LEscape acc, toks)
      else if c <? 32 then None
      else Some (LString (c :: acc), toks)
  | LEscape acc =>
      match escapeValue c with
      | Some e => Some (LString (e :: acc), toks)
      | None => if c =? 117 then Some (LUnicode acc 4 0, toks) else None
      end
  | LUnicode acc k v =>
      match hexValue c with
      | Some h =>
          match k with
          | S (S k') => Some (LUnicode acc (S k') (16 * v + h), toks)
          | _ => Some (LString (16 * v + h :: acc), toks)
          end
      | None => None
      end
  | LNumber acc =>
      if isNumberChar c then Some (LNumber (c :: acc), toks)
      else match finishNumber acc with
           | Some t => lexStart c (t :: toks)
           | None => None
           end
  | LWord acc =>
      if isLower c then Some (LWord (c :: acc), toks)
      else match finishWord acc with
           | Some t => lexStart c (t :: toks)
           | None => None
           end
  end.

Definition lexEnd (mode : LexMode) (toks : list Token) : option (list Token) :=
  match mode with
  | LStart => Some (rev toks)
  | LNumber acc => option_map (fun t => rev (t :: toks)) (finishNumber acc)
  | LWord acc => option_map (fun t => rev (t :: toks)) (finishWord acc)
  | _ => None
  end.

Fixpoint lexFrom (s : jsstring) (mode : LexMode) (toks : list Token)
  : option (list Token) :=
  match s with
  | [] => lexEnd mode toks
  | c :: s' =>
      match lexStep mode toks c with
      | Some (mode', toks') => lexFrom s' mode' toks'
      | None => None
      end
  end.

Definition lex (s : jsstring) : option (list Token) := lexFrom s LStart [].

(** The parser keeps the open arrays and objects on a stack. *)
Inductive Frame :=
| FArray (elems : list value)
| FObject (members : list (jsstring * value)) (key : jsstring).

Inductive ParseState :=
| PValue (stack : list Frame)
| PArrayOpen (stack : list Frame)
| PObjectOpen (stack : list Frame)
| PKey (members : list (jsstring * value)) (stack : list Frame)
| PColon (members : list (jsstring * value)) (key : jsstring) (stack : list Frame)
| PDone (v : value) (stack : list Frame).

Definition parseValue (t : Token) (stack : list Frame) : option ParseState :=
  match t with
  | TString s => Some (PDone (JString s) stack)
  | TNumber n => Some (PDone (JNumber n) stack)
  | TLiteral v => Some (PDone v stack)
  | TLBracket => Some (PArrayOpen stack)
  | TLBrace => Some (PObjectOpen stack)
  | _ => None
  end.

Definition parseStep (st : ParseState) (t : Token) : option ParseState :=
  match st with
  | PValue stack => parseValue t stack
  | PArrayOpen stack =>
      match t with
      | TRBracket => Some (PDone (JArray []) stack)
      | _ => parseValue t (FArray [] :: stack)
      end
  | PObjectOpen stack =>
      match t with
      | TRBrace => Some (PDone (JObject []) stack)
      | TString k => Some (PColon [] k stack)
      | _ => None
      end
  | PKey members stack =>
      match t with
      | TString k => Some (PColon members k stack)
      | _ => None
      end
  | PColon members k stack =>
      match t with
      | TColon => Some (PValue (FObject members k :: stack))
      | _ => None
      end
  | PDone v (FArray elems :: stack) =>
      match t with
      | TComma => Some (PValue (FArray (v :: elems) :: stack))
      | TRBracket => Some (PDone (JArray (rev (v :: elems))) stack)
      | _ => None
      end
  | PDone v (FObject members k :: stack) =>
      match t with
      | TComma => Some (PKey ((k, v) :: members) stack)
      | TRBrace => Some (PDone (JObject (rev ((k, v) :: members))) stack)
      | _ => None
      end
  | PDone _ [] => None
  end.

Fixpoint parseFrom (toks : list Token) (st : ParseState) : option value :=
  match toks with
  | [] => match st with PDone v [] => Some v | _ => None end
  | t :: toks' =>
      match parseStep st t with
      | Some st' => parseFrom toks' st'
      | None => None
      end
  end.

(** [JSON.parse(text)]: the value, or a SyntaxError. *)
Definition parse (text : jsstring) : Completion value :=
  match lex text with
  | Some toks =>
      match parseFrom toks (PValue []) with
      | Some v => Normal v
      | None => Throw (ErrorObject (js "SyntaxError") (js "Unexpected token"))
      end
  | None => Throw (ErrorObject (js "SyntaxError") (js "Unexpected token"))
  end.

(** The own property [k] of an object: of duplicated names the last wins. *)
Fixpoint ownProperty (members : list (jsstring * value)) (k : jsstring) : JSValue :=
  match members with
  | [] => None
  | (k', v) :: rest =>
      match ownProperty rest k with
      | Some v' => Some v'
      | None => if str_eqb k' k then Some v else None
      end
  end.

(** [data.k] for the names this client reads ([type], [message], [content],
    [sources]), which no prototype defines: reading them off [null] throws a
    TypeError, off an object gives the own property, off anything else
    [undefined]. *)
Definition Get (data : value) (k : jsstring) : Completion JSValue :=
  match data with
  | JNull => Throw (ErrorObject (js "TypeError") (js "Cannot read properties of null"))
  | JObject members => Normal (ownProperty members k)
  | _ => Normal undefined
  end.

Definition hasOwn (members : list (jsstring * value)) (k : jsstring) : bool :=
  match ownProperty members k with Some _ => true | None => false end.

(** ToString of a parsed value, as string concatenation applies it.  An
    array joins its elements with commas, [null] elements as empty strings;
    a plain object prints as [[object Object]] unless an own [toString]
    member (never callable in parsed JSON) hides the inherited method, and
    then the conversion throws.  A number is printed as its lexeme, which is
    exact for numbers written in canonical form. *)
Fixpoint ToString (v : value) : Completion jsstring :=
  match v with
  | JNull => Normal (js "null")
  | JBool true => Normal (js "true")
  | JBool false => Normal (js "false")
  | JNumber n => Normal n
  | JString s => Normal s
  | JArray elems =>
      (fix join (l : list value) : Completion jsstring :=
         match l with
         | [] => Normal []
         | e :: rest =>
             match (match e with JNull => Normal [] | _ => ToString e end) with
             | Normal s =>
                 match rest with
                 | [] => Normal s
                 | _ :: _ =>
                     match join rest with
                     | Normal r => Normal (s ++ [44] ++ r)
                     | Throw e => Throw e
                     end
                 end
             | Throw e => Throw e
             end
         end) elems
  | JObject members =>
      if hasOwn members (js "toString")
      then Throw (ErrorObject (js "TypeError") (js "Cannot convert object to primitive value"))
      else Normal (js "[object Object]")
  end.

Definition ToStringValue (v : JSValue) : Completion jsstring :=
  match v with
  | None => Normal (js "undefined")
  | Some v => ToString v
  end.

(** [v === s] for a string [s]. *)
Definition strictEqualsString (v : JSValue) (s : jsstring) : bool :=
  match v with
  | Some (JString s') => str_eqb s' s
  | _ => false
  end.

(** *** Values through JSON.stringify and JSON.parse *)

(** The digits at the head of [s], read onto [acc], and the rest. *)
Fixpoint readDecimal (s : jsstring) (acc : Z) : Z * jsstring :=
  match s with
  | c :: r => if isDigit c then readDecimal r (10 * acc + (c - 48)) else (acc, s)
  | [] => (acc, [])
  end.

(** The number a lexeme of the grammar stands for: whether it has a minus
    sign, and [digits] and [exponent], its magnitude being
    [digits * 10 ^ exponent]. *)
Definition lexemeValue (lexeme : jsstring) : bool * Z * Z :=
  let '(negative, s) :=
    match lexeme with
    | c :: r => if c =? 45 then (true, r) else (false, lexeme)
    | [] => (false, lexeme)
    end in
  let '(int, s) := readDecimal s 0 in
  let '(digits, fraction, s) :=
    match s with
    | c :: r =>
        if c =? 46 then
          let '(d, r') := readDecimal r int in
          (d, Z.of_nat (List.length r) - Z.of_nat (List.length r'), r')
        else (int, 0, s)
    | [] => (int, 0, s)
    end in
  let exponent :=
    match s with
    | c :: r =>
        if (c =? 101) || (c =? 69) then
          match r with
          | g :: r' =>
              if g =? 45 then - fst (readDecimal r' 0)
              else if g =? 43 then fst (readDecimal r' 0)
              else fst (readDecimal r 0)
          | [] => 0
          end
        else 0
    | [] => 0
    end in
  (negative, digits, exponent - fraction).

(** The Number value of a decimal is the double nearest to it, ties to
    even: a magnitude of at least [2^1024 - 2^970] is Infinity, one of at
    most [2^-1075] is zero. *)
Definition isInfinity (digits exponent : Z) : bool :=
  let bound := 2 ^ 1024 - 2 ^ 970 in
  if 0 <=? exponent then bound <=? digits * 10 ^ exponent
  else bound * 10 ^ (- exponent) <=? digits.

Definition isZero (digits exponent : Z) : bool :=
  if 0 <=? exponent then digits =? 0
  else digits * 2 ^ 1075 <=? 10 ^ (- exponent).

(** [JSON.parse(JSON.stringify(v))] for a value that came out of
    [JSON.parse]: Infinity is written as [null] and negative zero as [0];
    every other value is written in a text that reads back as the same
    value. *)
Fixpoint throughJSON (v : value) : value :=
  match v with
  | JNumber lexeme =>
      let '(negative, digits, exponent) := lexemeValue lexeme in
      if isInfinity digits exponent then JNull
      else if negative && isZero digits exponent then JNumber (js "0")
      else v
  | JArray elems => JArray (map throughJSON elems)
  | JObject members => JObject (map (fun kv => (fst kv, throughJSON (snd kv))) members)
  | _ => v
  end.

(** A property of an object that goes through the store: a property that
    is [undefined] is not written and reads back as [undefined]. *)
Definition throughStorage (v : JSValue) : JSValue := option_map throughJSON v.

End JSON.

(** ** TextDecoder *)

Module TextDecoder.

(** The UTF-8 decoder of the Encoding standard: between code points, or
    inside one with [need] continuation bytes to come, the next of them
    within [lower]..[upper]. *)
Inductive State :=
| Start
| Continuation (cp : Z) (need : nat) (lower upper : Z).

Definition lead (b : Z) : State * list Z :=
  if b <=? 127 then (Start, [b])
  else if (194 <=? b) && (b <=? 223) then (Continuation (Z.land b 31) 1 128 191, [])
  else if (224 <=? b) && (b <=? 239) then
    (Continuation (Z.land b 15) 2 (if b =? 224 then 160 else 128)
       (if b =? 237 then 159 else 191), [])
  else if (240 <=? b) && (b <=? 244) then
    (Continuation (Z.land b 7) 3 (if b =? 240 then 144 else 128)
       (if b =? 244 then 143 else 191), [])
  else (Start, [65533]).

(** A byte out of range ends the sequence with U+FFFD and is read again as
    the start of the next one. *)
Definition step (st : State) (b : Z) : State * list Z :=
  match st with
  | Start => lead b
  | Continuation cp need lower upper =>
      if (lower <=? b) && (b <=? upper) then
        let cp' := Z.lor (Z.shiftl cp 6) (Z.land b 63) in
        match need with
        | S (S k) => (Continuation cp' (S k) 128 191, [])
        | _ => (Start, [cp'])
        end
      else let '(st', out) := lead b in (st', 65533 :: out)
  end.

Fixpoint codePoints (bytes : list Z) (st : State) : list Z :=
  match bytes with
  | [] => match st with Start => [] | Continuation _ _ _ _ => [65533] end
  | b :: rest => let '(st', out) := step st b in out ++ codePoints rest st'
  end.

Definition stripBOM (cps : list Z) : list Z :=
  match cps with
  | c :: rest => if c =? 65279 then rest else cps
  | [] => []
  end.

Definition codeUnits (cp : Z) : jsstring :=
  if cp <? 65536 then [cp]
  else [55296 + Z.shiftr (cp - 65536) 10; 56320 + Z.land (cp - 65536) 1023].

(** [decoder.decode(value)] without the [stream] option: every call starts
    afresh, an incomplete sequence at the end of [value] becomes U+FFFD. *)
Definition decode (value : list Z) : jsstring :=
  flat_map codeUnits (stripBOM (codePoints value Start)).

End TextDecoder.

(** ** Array.prototype.sort *)

Module JSArray.

(** A comparator result of NaN counts as +0. *)
Definition comesFirst {A} (cmp : A -> A -> option Z) (x y : A) : bool :=
  match cmp x y with
  | Some v => v <=? 0
  | None => true
  end.

Fixpoint insert {A} (cmp : A -> A -> option Z) (x : A) (l : list A) : list A :=
  match l with
  | [] => [x]
  | y :: l' => if comesFirst cmp x y then x :: l else y :: insert cmp x l'
  end.

(** [l.sort(cmp)], a stable sort.  The order in which the engine calls the
    comparator is its own; for a consistent comparator the result is the
    same for every stable sort, here insertion from the right. *)
Definition sort {A} (cmp : A -> A -> option Z) (l : list A) : list A :=
  fold_right (insert cmp) [] l.

End JSArray.

(** ** Data model *)

Inductive Role := user | assistant.

Definition Role_eqb (a b : Role) : bool :=
  match a, b with
  | user, user | assistant, assistant => true
  | _, _ => false
  end.

(** The [Message] type of [types/chat].  An absent optional field is
    [undefined]; the fields [sources], [confidence] and [iterations] hold
    what the stream or the store gave, whatever the declared type. *)
Record Message := mkMessage {
  id : jsstring;
  role : Role;
  content : jsstring;
  timestamp : Date;
  sources : JSON.JSValue;
  confidence : JSON.JSValue;
  iterations : JSON.JSValue
}.

(** ** The storage service *)

Module StorageService.

Import JSON.

(** A message as [saveChatHistory] writes it: the fields of the message
    with the timestamp as an ISO string, as they read back from the JSON
    text. *)
Record StoredMessage := mkStoredMessage {
  stored_id : jsstring;
  stored_role : Role;
  stored_content : jsstring;
  stored_timestamp : jsstring;
  stored_sources : JSValue;
  stored_confidence : JSValue;
  stored_iterations : JSValue
}.

(** The record kept per session. *)
Record StoredSession := mkStoredSession {
  session_id : jsstring;
  session_title : jsstring;
  session_timestamp : jsstring;
  session_messages : list StoredMessage;
  session_lastMessage : option jsstring
}.

(** The object under [STORAGE_KEYS.CHAT_HISTORY], keyed by session id: its
    own properties in the order [Object.values] and [JSON.stringify] list
    them in, which is the keys that are array indices, ascending, and then
    the other keys in the order of their creation.  The item is kept as the
    object [JSON.parse] makes of its text; what [JSON.stringify] does to
    the values written is in [storeMessage]. *)
Definition History := list (jsstring * StoredSession).

(** The own property [k]. *)
Fixpoint objOwn (h : History) (k : jsstring) : option StoredSession :=
  match h with
  | [] => None
  | (k', v) :: rest => if str_eqb k' k then Some v else objOwn rest k
  end.

(** The names [Object.prototype] defines, which the object inherits. *)
Definition inheritedNames : list jsstring :=
  [js "constructor"; js "__defineGetter__"; js "__defineSetter__";
   js "hasOwnProperty"; js "__lookupGetter__"; js "__lookupSetter__";
   js "isPrototypeOf"; js "propertyIsEnumerable"; js "toString"; js "valueOf";
   js "__proto__"; js "toLocaleString"].

Definition isInherited (k : jsstring) : bool := existsb (str_eqb k) inheritedNames.

(** What [h[k]] finds: an own property, else what [Object.prototype] has
    under the name (a function, or the prototype itself), else
    [undefined]. *)
Inductive Property :=
| OwnProperty (session : StoredSession)
| InheritedProperty
| NoProperty.

(** [h[k]] *)
Definition objGet (h : History) (k : jsstring) : Property :=
  match objOwn h k with
  | Some session => OwnProperty session
  | None => if isInherited k then InheritedProperty else NoProperty
  end.

(** A key that is an array index: the decimal digits, without a leading
    zero, of an integer below [2^32 - 1]. *)
Definition arrayIndex (k : jsstring) : option Z :=
  match k with
  | [] => None
  | c :: r =>
      if forallb isDigit k && (negb (c =? 48) || match r with [] => true | _ :: _ => false end)
      then
        let n := fst (readDecimal k 0) in
        if n <? 2 ^ 32 - 1 then Some n else None
      else None
  end.

(** An own property written again keeps its place. *)
Fixpoint objReplace (h : History) (k : jsstring) (v : StoredSession) : History :=
  match h with
  | [] => []
  | (k', v') :: rest =>
      if str_eqb k' k then (k, v) :: rest else (k', v') :: objReplace rest k v
  end.

(** A new property whose key is the array index [n] comes before the first
    property whose key is no index or a greater one. *)
Fixpoint insertIndex (h : History) (k : jsstring) (n : Z) (v : StoredSession) : History :=
  match h with
  | [] => [(k, v)]
  | (k', v') :: rest =>
      match arrayIndex k' with
      | Some n' => if n' <? n then (k', v') :: insertIndex rest k n v else (k, v) :: h
      | None => (k, v) :: h
      end
  end.

(** [h[k] = v].  An own property is written in place.  Otherwise, under
    [__proto__] the assignment calls the setter [Object.prototype] defines:
    the prototype of the object is changed and no property is made, so the
    text written later is that of the object as it was.  Under any other
    name a property is made: among the array indices if the name is one, in
    the last place if not. *)
Definition objSet (h : History) (k : jsstring) (v : StoredSession) : History :=
  match objOwn h k with
  | Some _ => objReplace h k v
  | None =>
      if str_eqb k (js "__proto__") then h
      else
        match arrayIndex k with
        | Some n => insertIndex h k n v
        | None => h ++ [(k, v)]
        end
  end.

(** [delete h[k]]: the own property, if there is one. *)
Definition objDelete (h : History) (k : jsstring) : History :=
  filter (fun kv => negb (str_eqb (fst kv) k)) h.

Definition objValues (h : History) : list StoredSession := map snd h.

(** The items of [localStorage] the client uses; [None] is a missing item.
    The store is taken to have room for every write. *)
Record LocalStorage := mkLocalStorage {
  CHAT_HISTORY : option History;
  CURRENT_SESSION : option jsstring;
  auth_token : option jsstring
}.

Definition setChatHistory (ls : LocalStorage) (h : History) : LocalStorage :=
  {| CHAT_HISTORY := Some h;
     CURRENT_SESSION := CURRENT_SESSION ls;
     auth_token := auth_token ls |}.

Definition getAllChatHistory (ls : LocalStorage) : History :=
  match CHAT_HISTORY ls with
  | Some h => h
  | None => []
  end.

(** [{...m, timestamp: iso}] *)
Definition storeMessage (m : Message) (iso : jsstring) : StoredMessage :=
  {| stored_id := id m; stored_role := role m; stored_content := content m;
     stored_timestamp := iso;
     stored_sources := throughStorage (sources m);
     stored_confidence := throughStorage (confidence m);
     stored_iterations := throughStorage (iterations m) |}.

(** [messages.map(m => ({...m, timestamp: m.timestamp.toISOString()}))] *)
Fixpoint storeMessages (messages : list Message) : Completion (list StoredMessage) :=
  match messages with
  | [] => Normal []
  | m :: rest =>
      match toISOString (timestamp m) with
      | Normal iso =>
          match storeMessages rest with
          | Normal stored => Normal (storeMessage m iso :: stored)
          | Throw e => Throw e
          end
      | Throw e => Throw e
      end
  end.

(** The title: the first user message, cut after 50 code units. *)
Definition sessionTitle (messages : list Message) : jsstring :=
  match find (fun m => Role_eqb (role m) user) messages with
  | Some firstUserMessage =>
      slice_to 50 (content firstUserMessage)
      ++ (if (50 <? Z.of_nat (List.length (content firstUserMessage))) then js "..." else [])
  | None => js "New Chat"
  end.

(** [saveChatHistory(sessionId, messages)] at the instant [now]: how the
    call completes and the store it leaves. *)
Definition saveChatHistory (now : Z) (sessionId : jsstring) (messages : list Message)
  (ls : LocalStorage) : Completion unit * LocalStorage :=
  let allHistory := getAllChatHistory ls in
  match messages with
  | [] => (Normal tt, setChatHistory ls (objDelete allHistory sessionId))
  | _ :: _ =>
      let title := sessionTitle messages in
      match storeMessages messages with
      | Normal stored =>
          (Normal tt,
           setChatHistory ls
             (objSet allHistory sessionId
                {| session_id := sessionId;
                   session_title := title;
                   session_timestamp := isoString now;
                   session_messages := stored;
                   session_lastMessage := option_map content (last (map Some messages) None) |}))
      | Throw e => (Throw e, ls)
      end
  end.

(** The [ChatHistory] type of [types/chat]: an entry of the sidebar list
    (id, title, relative time of the last activity, last message). *)
Record ChatHistory := mkChatHistory {
  chat_id : jsstring;
  chat_title : jsstring;
  chat_timestamp : jsstring;
  chat_lastMessage : option jsstring
}.

(** [formatTimestamp(timestamp)] at the instant [now]. *)
Definition formatTimestamp (now : Z) (timestamp : jsstring) : jsstring :=
  let date := Date_fromString timestamp in
  match getTime date with
  | None => toLocaleDateString date
  | Some t =>
      let diffMs := now - t in
      let diffMins := diffMs / 60000 in
      let diffHours := diffMs / 3600000 in
      let diffDays := diffMs / 86400000 in
      if diffMins <? 1 then js "Just now"
      else if diffMins <? 60 then
        Number_toString diffMins ++ js " min" ++ (if diffMins >? 1 then js "s" else []) ++ js " ago"
      else if diffHours <? 24 then
        Number_toString diffHours ++ js " hour" ++ (if diffHours >? 1 then js "s" else []) ++ js " ago"
      else if diffDays =? 1 then js "Yesterday"
      else if diffDays <? 7 then Number_toString diffDays ++ js " days ago"
      else toLocaleDateString date
  end.

(** The comparator of [getChatHistoryList]; [None] is NaN. *)
Definition compareChats (a b : ChatHistory) : option Z :=
  match getTime (Date_fromString (chat_timestamp b)),
        getTime (Date_fromString (chat_timestamp a)) with
  | Some tb, Some ta => Some (tb - ta)
  | _, _ => None
  end.

(** [getChatHistoryList()] at the instant [now]. *)
Definition getChatHistoryList (now : Z) (ls : LocalStorage) : list ChatHistory :=
  let allHistory := getAllChatHistory ls in
  JSArray.sort compareChats
    (map (fun chat =>
            {| chat_id := session_id chat;
               chat_title := session_title chat;
               chat_timestamp := formatTimestamp now (session_timestamp chat);
               chat_lastMessage := session_lastMessage chat |})
       (objValues allHistory)).

(** [{...m, timestamp: new Date(m.timestamp)}] *)
Definition loadMessage (m : StoredMessage) : Message :=
  {| id := stored_id m; role := stored_role m; content := stored_content m;
     timestamp := Date_fromString (stored_timestamp m);
     sources := stored_sources m; confidence := stored_confidence m;
     iterations := stored_iterations m |}.

(** [loadSession(sessionId)]; [None] is [null].  What is found under an
    inherited name is truthy and has no [messages], so that
    [session.messages.map] throws. *)
Definition loadSession (sessionId : jsstring) (ls : LocalStorage)
  : Completion (option (list Message)) :=
  let allHistory := getAllChatHistory ls in
  match objGet allHistory sessionId with
  | NoProperty => Normal None
  | OwnProperty session => Normal (Some (map loadMessage (session_messages session)))
  | InheritedProperty =>
      Throw (ErrorObject (js "TypeError")
               (js "Cannot read properties of undefined (reading 'map')"))
  end.

(** [deleteSession(sessionId)] *)
Definition deleteSession (sessionId : jsstring) (ls : LocalStorage) : LocalStorage :=
  let allHistory := getAllChatHistory ls in
  setChatHistory ls (objDelete allHistory sessionId).

(** *** The current session and the other keys *)

(** [generateSessionId()] at the instant [now], [random] being the text of
    [Math.random().toString(36)]. *)
Definition generateSessionId (now : Z) (random : jsstring) : jsstring :=
  js "session_" ++ Number_toString now ++ js "_" ++ slice_to 9 (slice_from 2 random).

Definition setCurrentSession (ls : LocalStorage) (sessionId : jsstring) : LocalStorage :=
  {| CHAT_HISTORY := CHAT_HISTORY ls;
     CURRENT_SESSION := Some sessionId;
     auth_token := auth_token ls |}.

(** [getCurrentSessionId()]: the id and the store it leaves. *)
Definition getCurrentSessionId (now : Z) (random : jsstring) (ls : LocalStorage)
  : jsstring * LocalStorage :=
  match CURRENT_SESSION ls with
  | Some sessionId =>
      if truthy sessionId then (sessionId, ls)
      else
        let sessionId := generateSessionId now random in
        (sessionId, setCurrentSession ls sessionId)
  | None =>
      let sessionId := generateSessionId now random in
      (sessionId, setCurrentSession ls sessionId)
  end.

(** [createNewSession()] *)
Definition createNewSession (now : Z) (random : jsstring) (ls : LocalStorage)
  : jsstring * LocalStorage :=
  let sessionId := generateSessionId now random in
  (sessionId, setCurrentSession ls sessionId).

(** The whole of [localStorage]: the items above, the two other keys of
    [STORAGE_KEYS], and the user record kept beside the token. *)
Record BrowserStorage := mkBrowserStorage {
  service_items : LocalStorage;
  API_KEY : option jsstring;
  SETTINGS : option jsstring;
  auth_user : option jsstring
}.

(** [saveApiKey(apiKey)] *)
Definition saveApiKey (apiKey : jsstring) (bs : BrowserStorage) : BrowserStorage :=
  {| service_items := service_items bs; API_KEY := Some apiKey;
     SETTINGS := SETTINGS bs; auth_user := auth_user bs |}.

(** [getApiKey()] *)
Definition getApiKey (bs : BrowserStorage) : option jsstring := API_KEY bs.

(** [clearAll()]: every key of [STORAGE_KEYS] is removed. *)
Definition clearAll (bs : BrowserStorage) : BrowserStorage :=
  {| service_items :=
       {| CHAT_HISTORY := None; CURRENT_SESSION := None;
          auth_token := auth_token (service_items bs) |};
     API_KEY := None; SETTINGS := None; auth_user := auth_user bs |}.

End StorageService.

(** ** The chat component *)

Module ChatInterface.

Import JSON StorageService.

(** The state of the component (the [useState] cells the turn touches). *)
Record ChatState := mkChatState {
  messages : list Message;
  input : jsstring;
  isThinking : bool;
  thinkingStatus : JSValue;
  sessionId : jsstring;
  error : option jsstring
}.

(** What the network does to one turn.  A response body is the sequence of
    results of [reader.read()]: byte chunks, then the end of the stream or a
    rejection.  (A body whose reads never settle is not in the model.) *)
Inductive ReadableStream :=
| StreamEnd
| StreamError (e : Thrown)
| StreamChunk (value : list Z) (rest : ReadableStream).

Inductive FetchResult :=
| FetchRejected (e : Thrown)
| FetchResponse (ok : bool) (status : Z) (body : option ReadableStream).

(** The readings of the clock, one per place [handleSend] asks for the
    time. *)
Record Clock := mkClock {
  now_userId : Z;
  now_userMessage : Z;
  now_assistantId : Z;
  now_firstChunk : Z;
  now_errorMessage : Z
}.

Record Env := mkEnv {
  clock : Clock;
  response : FetchResult
}.

(** A request sent to [/chat/stream]. *)
Record Request := mkRequest {
  request_token : option jsstring;
  request_query : jsstring;
  request_session_id : jsstring
}.

Record World := mkWorld {
  storage : LocalStorage;
  requests : list Request
}.

(** The local variables of a turn. *)
Record Turn := mkTurn {
  accumulatedContent : jsstring;
  turn_sources : JSValue;
  messageAdded : bool
}.

Definition setMessages (f : list Message -> list Message) (st : ChatState) : ChatState :=
  {| messages := f (messages st); input := input st; isThinking := isThinking st;
     thinkingStatus := thinkingStatus st; sessionId := sessionId st; error := error st |}.

Definition setInput (v : jsstring) (st : ChatState) : ChatState :=
  {| messages := messages st; input := v; isThinking := isThinking st;
     thinkingStatus := thinkingStatus st; sessionId := sessionId st; error := error st |}.

Definition setIsThinking (v : bool) (st : ChatState) : ChatState :=
  {| messages := messages st; input := input st; isThinking := v;
     thinkingStatus := thinkingStatus st; sessionId := sessionId st; error := error st |}.

Definition setThinkingStatus (v : JSValue) (st : ChatState) : ChatState :=
  {| messages := messages st; input := input st; isThinking := isThinking st;
     thinkingStatus := v; sessionId := sessionId st; error := error st |}.

Definition setError (v : option jsstring) (st : ChatState) : ChatState :=
  {| messages := messages st; input := input st; isThinking := isThinking st;
     thinkingStatus := thinkingStatus st; sessionId := sessionId st; error := v |}.

(** [prev.map(msg => msg.id === assistantMessageId ? f(msg) : msg)] *)
Definition updateMessage (assistantMessageId : jsstring) (f : Message -> Message)
  (prev : list Message) : list Message :=
  map (fun msg => if str_eqb (id msg) assistantMessageId then f msg else msg) prev.

Definition withContent (c : jsstring) (msg : Message) : Message :=
  {| id := id msg; role := role msg; content := c; timestamp := timestamp msg;
     sources := sources msg; confidence := confidence msg;
     iterations := iterations msg |}.

Definition withSources (s : JSValue) (msg : Message) : Message :=
  {| id := id msg; role := role msg; content := content msg; timestamp := timestamp msg;
     sources := s; confidence := confidence msg; iterations := iterations msg |}.

(** The body of the [try] around one frame: parse the payload and act on
    the event.  The state it returns holds whatever was done before a
    throw. *)
Definition handleFrame (clk : Clock) (assistantMessageId payload : jsstring)
  (st : ChatState) (tu : Turn) : Completion unit * (ChatState * Turn) :=
  match JSON.parse payload with
  | Throw e => (Throw e, (st, tu))
  | Normal data =>
      match Get data (js "type") with
      | Throw e => (Throw e, (st, tu))
      | Normal type =>
          if strictEqualsString type (js "status") then
            match Get data (js "message") with
            | Normal message => (Normal tt, (setThinkingStatus message st, tu))
            | Throw e => (Throw e, (st, tu))
            end
          else if strictEqualsString type (js "chunk") then
            match Get data (js "content") with
            | Throw e => (Throw e, (st, tu))
            | Normal fragment =>
                match ToStringValue fragment with
                | Throw e => (Throw e, (st, tu))
                | Normal text =>
                    let accumulated := accumulatedContent tu ++ text in
                    if negb (messageAdded tu) then
                      let assistantMessage :=
                        {| id := assistantMessageId; role := assistant;
                           content := accumulated;
                           timestamp := DateValue (now_firstChunk clk);
                           sources := undefined; confidence := undefined;
     iterations := undefined |} in
                      (Normal tt,
                       (setMessages (fun prev => prev ++ [assistantMessage]) st,
                        {| accumulatedContent := accumulated;
                           turn_sources := turn_sources tu;
                           messageAdded := true |}))
                    else
                      (Normal tt,
                       (setMessages (updateMessage assistantMessageId (withContent accumulated)) st,
                        {| accumulatedContent := accumulated;
                           turn_sources := turn_sources tu;
                           messageAdded := messageAdded tu |}))
                end
            end
          else if strictEqualsString type (js "sources") then
            match Get data (js "sources") with
            | Throw e => (Throw e, (st, tu))
            | Normal srcs =>
                let tu' := {| accumulatedContent := accumulatedContent tu;
                              turn_sources := srcs;
                              messageAdded := messageAdded tu |} in
                if messageAdded tu then
                  (Normal tt,
                   (setMessages (updateMessage assistantMessageId (withSources srcs)) st, tu'))
                else (Normal tt, (st, tu'))
            end
          else if strictEqualsString type (js "done") then
            (Normal tt, (setThinkingStatus (Some (JString [])) (setIsThinking false st), tu))
          else if strictEqualsString type (js "error") then
            match Get data (js "message") with
            | Throw e => (Throw e, (st, tu))
            | Normal None => (Throw (ErrorObject (js "Error") []), (st, tu))
            | Normal (Some message) =>
                match ToString message with
                | Normal text => (Throw (ErrorObject (js "Error") text), (st, tu))
                | Throw e => (Throw e, (st, tu))
                end
            end
          else (Normal tt, (st, tu))
      end
  end.

(** One element of [chunk.split('\n\n')]: a frame is handled inside a
    [try] whose [catch] only logs what was thrown. *)
Definition handleLine (clk : Clock) (assistantMessageId : jsstring)
  (acc : ChatState * Turn) (line : jsstring) : ChatState * Turn :=
  let '(st, tu) := acc in
  if startsWith line (js "data: ") then
    match handleFrame clk assistantMessageId (slice_from 6 line) st tu with
    | (Normal _, r) => r
    | (Throw _, r) => r
    end
  else (st, tu).

Definition frameSeparator : jsstring := [10; 10].

(** The [while (true)] loop over [reader.read()]: the state at its end and
    the rejection that ended it, if one did. *)
Fixpoint readLoop (clk : Clock) (assistantMessageId : jsstring) (reader : ReadableStream)
  (st : ChatState) (tu : Turn) : (ChatState * Turn) * option Thrown :=
  match reader with
  | StreamEnd => ((st, tu), None)
  | StreamError e => ((st, tu), Some e)
  | StreamChunk value rest =>
      let chunk := TextDecoder.decode value in
      let lines := split chunk frameSeparator in
      let '(st', tu') := fold_left (handleLine clk assistantMessageId) lines (st, tu) in
      readLoop clk assistantMessageId rest st' tu'
  end.

(** [err instanceof Error ? err.message : 'An error occurred'] *)
Definition errorText (err : Thrown) : jsstring :=
  match err with
  | ErrorObject _ message => message
  | NonErrorValue => js "An error occurred"
  end.

(** The outer [catch]. *)
Definition handleError (clk : Clock) (assistantMessageId : jsstring) (err : Thrown)
  (st : ChatState) (tu : Turn) : ChatState :=
  let st := setError (Some (errorText err)) st in
  if negb (messageAdded tu) then
    let errorMessage :=
      {| id := assistantMessageId; role := assistant;
         content := js "Error: " ++ errorText err ++ js ". Please try again.";
         timestamp := DateValue (now_errorMessage clk);
         sources := undefined; confidence := undefined;
     iterations := undefined |} in
    setMessages (fun prev => prev ++ [errorMessage]) st
  else
    setMessages
      (updateMessage assistantMessageId
         (fun msg => withContent (content msg ++ [10; 10] ++ js "Error: " ++ errorText err) msg))
      st.

(** The [try] block from the [fetch] on. *)
Definition stream (env : Env) (assistantMessageId : jsstring) (st : ChatState)
  : (ChatState * Turn) * option Thrown :=
  let tu0 := {| accumulatedContent := []; turn_sources := Some (JArray []);
                messageAdded := false |} in
  match response env with
  | FetchRejected e => ((st, tu0), Some e)
  | FetchResponse ok status body =>
      if negb ok then
        ((st, tu0),
         Some (ErrorObject (js "Error") (js "HTTP error! status: " ++ Number_toString status)))
      else
        match body with
        | None => ((st, tu0), Some (ErrorObject (js "Error") (js "No reader available")))
        | Some reader => readLoop (clock env) assistantMessageId reader st tu0
        end
  end.

(** The synchronous start of [handleSend()], up to the call of [fetch]:
    [None] when the guard returns at once, otherwise the state with the
    user's message, the world with the request sent, and the id chosen for
    the answer. *)
Definition submit (clk : Clock) (st : ChatState) (w : World)
  : option (ChatState * World * jsstring) :=
  if negb (truthy (trim (input st))) || isThinking st then None
  else
    let userMessage :=
      {| id := Number_toString (now_userId clk); role := user; content := input st;
         timestamp := DateValue (now_userMessage clk);
         sources := undefined; confidence := undefined;
     iterations := undefined |} in
    let st1 := setMessages (fun prev => prev ++ [userMessage]) st in
    let st1 := setInput [] st1 in
    let st1 := setIsThinking true st1 in
    let st1 := setThinkingStatus (Some (JString (js "Initializing..."))) st1 in
    let st1 := setError None st1 in
    let assistantMessageId := Number_toString (now_assistantId clk + 1) in
    let w1 := {| storage := storage w;
                 requests := requests w ++
                   [{| request_token := auth_token (storage w);
                       request_query := content userMessage;
                       request_session_id := sessionId st |}] |} in
    Some (st1, w1, assistantMessageId).

(** The rest of the turn: the [try] block, the [catch] and the [finally]. *)
Definition complete (env : Env) (assistantMessageId : jsstring) (st : ChatState)
  : ChatState :=
  let st :=
    match stream env assistantMessageId st with
    | ((st, tu), None) => st
    | ((st, tu), Some err) => handleError (clock env) assistantMessageId err st tu
    end in
  setThinkingStatus (Some (JString [])) (setIsThinking false st).

(** [handleSend()], run to its end against the network behaviour [env]. *)
Definition handleSend (env : Env) (st : ChatState) (w : World) : ChatState * World :=
  match submit (clock env) st w with
  | None => (st, w)
  | Some (st1, w1, assistantMessageId) => (complete env assistantMessageId st1, w1)
  end.

(** The effect on [messages] and [sessionId]: after a render that changed
    them the session is saved, at the instant [now]. *)
Definition saveEffect (now : Z) (st : ChatState) (w : World) : World :=
  if truthy (sessionId st) then
    {| storage := snd (saveChatHistory now (sessionId st) (messages st) (storage w));
       requests := requests w |}
  else w.

(** *** The sidebar and the other handlers *)

Definition setSessionId (v : jsstring) (st : ChatState) : ChatState :=
  {| messages := messages st; input := input st; isThinking := isThinking st;
     thinkingStatus := thinkingStatus st; sessionId := v; error := error st |}.

(** The state of the sidebar. *)
Record Sidebar := mkSidebar {
  sidebarOpen : bool;
  chatHistory : list ChatHistory
}.

(** The state of the component when it is mounted. *)
Definition mountedState : ChatState :=
  {| messages := []; input := []; isThinking := false; thinkingStatus := Some (JString []);
     sessionId := []; error := None |}.

Definition mountedSidebar : Sidebar := {| sidebarOpen := false; chatHistory := [] |}.

(** [loadChatHistory()] at the instant [now]. *)
Definition loadChatHistory (now : Z) (sb : Sidebar) (ls : LocalStorage) : Sidebar :=
  {| sidebarOpen := sidebarOpen sb; chatHistory := getChatHistoryList now ls |}.

(** The effect run once on mount: the current session, its messages if it
    is stored, the list; how the effect completes, and the state, the
    sidebar and the store it leaves. *)
Definition initialize (now nowId : Z) (random : jsstring) (st : ChatState) (sb : Sidebar)
  (ls : LocalStorage) : Completion unit * (ChatState * Sidebar * LocalStorage) :=
  let '(currentSession, ls) := getCurrentSessionId nowId random ls in
  let st := setSessionId currentSession st in
  match loadSession currentSession ls with
  | Throw e => (Throw e, (st, sb, ls))
  | Normal savedMessages =>
      let st := match savedMessages with
                | Some savedMessages => setMessages (fun _ => savedMessages) st
                | None => st
                end in
      (Normal tt, (st, loadChatHistory now sb ls, ls))
  end.

(** The effect on [messages] and [sessionId] in full: the save at the
    instant [now], then the list at [nowList]; a save that throws ends the
    effect. *)
Definition saveMessagesEffect (now nowList : Z) (st : ChatState) (sb : Sidebar)
  (ls : LocalStorage) : Sidebar * LocalStorage :=
  if truthy (sessionId st) then
    match saveChatHistory now (sessionId st) (messages st) ls with
    | (Normal _, ls') => (loadChatHistory nowList sb ls', ls')
    | (Throw _, ls') => (sb, ls')
    end
  else (sb, ls).

(** [startNewChat()] *)
Definition startNewChat (nowId : Z) (random : jsstring) (st : ChatState) (ls : LocalStorage)
  : ChatState * LocalStorage :=
  let '(newSessionId, ls) := createNewSession nowId random ls in
  let st := setSessionId newSessionId st in
  let st := setMessages (fun _ => []) st in
  let st := setError None st in
  (st, ls).

(** [loadChatSession(historySessionId)]: how the handler completes, and
    the state, the sidebar and the store it leaves. *)
Definition loadChatSession (historySessionId : jsstring) (st : ChatState) (sb : Sidebar)
  (ls : LocalStorage) : Completion unit * (ChatState * Sidebar * LocalStorage) :=
  match loadSession historySessionId ls with
  | Throw e => (Throw e, (st, sb, ls))
  | Normal (Some savedMessages) =>
      let st := setMessages (fun _ => savedMessages) st in
      let st := setSessionId historySessionId st in
      (Normal tt,
       (st, {| sidebarOpen := false; chatHistory := chatHistory sb |},
        setCurrentSession ls historySessionId))
  | Normal None => (Normal tt, (st, sb, ls))
  end.

(** [deleteChat(historySessionId, e)] *)
Definition deleteChat (now nowId : Z) (random : jsstring) (historySessionId : jsstring)
  (st : ChatState) (sb : Sidebar) (ls : LocalStorage) : ChatState * Sidebar * LocalStorage :=
  let ls := deleteSession historySessionId ls in
  let sb := loadChatHistory now sb ls in
  if str_eqb historySessionId (sessionId st) then
    let '(st, ls) := startNewChat nowId random st ls in (st, sb, ls)
  else (st, sb, ls).

(** The two lookups at the head of [handleFeedback]: the message rated and
    the user message the feedback is filed with, the first user message
    that stands before it; [None] when the handler returns at once.  (The
    index of a message is its place: the messages of a conversation are
    distinct objects.) *)
Fixpoint findIndex (f : Message -> bool) (l : list Message) (i : nat) : option (nat * Message) :=
  match l with
  | [] => None
  | m :: rest => if f m then Some (i, m) else findIndex f rest (S i)
  end.

Definition feedbackSubject (messages : list Message) (messageId : jsstring)
  : option (Message * Message) :=
  match findIndex (fun m => str_eqb (id m) messageId) messages 0 with
  | None => None
  | Some (index, message) =>
      match find (fun m => Role_eqb (role m) user) (firstn index messages) with
      | Some userMessage => Some (userMessage, message)
      | None => None
      end
  end.

End ChatInterface.

(** ** The authentication context *)

Module AuthContext.

Import JSON StorageService.

(** [login] and [updateUser] write [JSON.stringify(user)], which is not
    modelled; the provider is modelled from the store on. *)

(** [AuthState]; [None] is [null]. *)
Record AuthState := mkAuthState {
  state_user : option value;
  state_token : option jsstring;
  isAuthenticated : bool;
  isLoading : bool
}.

(** What the provider reads and writes besides its state: [localStorage]
    and the default [Authorization] header of the API client. *)
Record AuthWorld := mkAuthWorld {
  browser : BrowserStorage;
  Authorization : option jsstring
}.

(** The state the provider starts with. *)
Definition initialAuthState : AuthState :=
  {| state_user := None; state_token := None; isAuthenticated := false; isLoading := true |}.

(** [localStorage.removeItem('auth_token'); localStorage.removeItem('auth_user')] *)
Definition removeLogin (bs : BrowserStorage) : BrowserStorage :=
  {| service_items :=
       {| CHAT_HISTORY := CHAT_HISTORY (service_items bs);
          CURRENT_SESSION := CURRENT_SESSION (service_items bs);
          auth_token := None |};
     API_KEY := API_KEY bs; SETTINGS := SETTINGS bs; auth_user := None |}.

(** [logout()] *)
Definition logout (w : AuthWorld) : AuthState * AuthWorld :=
  ({| state_user := None; state_token := None; isAuthenticated := false; isLoading := false |},
   {| browser := removeLogin (browser w); Authorization := None |}).

(** The effect run on mount. *)
Definition loadFromStorage (st : AuthState) (w : AuthWorld) : AuthState * AuthWorld :=
  let notLoading :=
    {| state_user := state_user st; state_token := state_token st;
       isAuthenticated := isAuthenticated st; isLoading := false |} in
  match auth_token (service_items (browser w)), auth_user (browser w) with
  | Some token, Some userStr =>
      if truthy token && truthy userStr then
        match JSON.parse userStr with
        | Normal parsedUser =>
            ({| state_user := Some parsedUser; state_token := Some token;
                isAuthenticated := true; isLoading := false |},
             {| browser := browser w;
                Authorization := Some (js "Bearer " ++ token) |})
        | Throw _ => logout w
        end
      else (notLoading, w)
  | _, _ => (notLoading, w)
  end.

(** What [ProtectedRoute] renders. *)
Inductive Rendered := Spinner | NavigateToLogin | Children.

Definition ProtectedRoute (st : AuthState) : Rendered :=
  if isLoading st then Spinner
  else if negb (isAuthenticated st) then NavigateToLogin
  else Children.

End AuthContext.

(** ** The API client *)

Module ApiClient.

Import StorageService AuthContext.

(** The response interceptor of the API client on an error with the given
    status ([None]: no response): the store it leaves, and whether it sends
    the browser to [/login]. *)
Definition responseError (status : option Z) (bs : BrowserStorage) : BrowserStorage * bool :=
  match status with
  | Some 401 => (removeLogin bs, true)
  | _ => (bs, false)
  end.

End ApiClient.

(** Literals for examples: an ASCII text in which an apostrophe stands for a
    double quote and a tilde for a line feed. *)
Definition text (s : string) : jsstring :=
  map (fun c => if c =? 39 then 34 else if c =? 126 then 10 else c) (js s).
Arguments text s%_string.

Import JSON StorageService ChatInterface.

(** * Notions the properties are stated with *)

(** ** Dates *)

(** The number of days of month [month] (0 to 11) of a year. *)
Definition DaysInMonth (year month : Z) : Z :=
  let leap := if isLeapYear year then 1 else 0 in
  if month =? 11 then 31
  else DaysBeforeMonth (month + 1) leap - DaysBeforeMonth month leap.

(** ** Stores *)

(** A date that holds a time value within the range of Date. *)
Definition validDate (d : Date) : bool :=
  match d with
  | DateValue t => validTime t
  | InvalidDate => false
  end.

(** The stores the service can leave behind, from a browser without chat
    history. *)
Inductive reachable : LocalStorage -> Prop :=
| reachable_fresh ls : CHAT_HISTORY ls = None -> reachable ls
| reachable_save now sessionId messages ls :
    reachable ls -> reachable (snd (saveChatHistory now sessionId messages ls))
| reachable_delete sessionId ls :
    reachable ls -> reachable (deleteSession sessionId ls).

(** The record stored under a session id. *)
Definition storedSession (ls : LocalStorage) (sessionId : jsstring) : option StoredSession :=
  objOwn (getAllChatHistory ls) sessionId.

(** The last activity of a stored session: the instant of its last save. *)
Definition lastActivity (ls : LocalStorage) (sessionId : jsstring) : option Z :=
  match storedSession ls sessionId with
  | Some session => Date_parse (session_timestamp session)
  | None => None
  end.

(** Every instant is known and none is later than the one before it. *)
Fixpoint descending (l : list (option Z)) : bool :=
  match l with
  | Some a :: ((Some b :: _) as rest) => (b <=? a) && descending rest
  | [Some _] => true
  | [] => true
  | _ => false
  end.

(** The sidebar list is in the order of last activity, latest first. *)
Definition sortedByLastActivity (now : Z) (ls : LocalStorage) : bool :=
  descending (map (fun chat => lastActivity ls (chat_id chat)) (getChatHistoryList now ls)).

(** The store of a browser that never ran the client. *)
Definition freshStorage : LocalStorage :=
  {| CHAT_HISTORY := None; CURRENT_SESSION := None; auth_token := None |}.

(** A question, asked on 2025-12-04 at 18:30:00.123 UTC. *)
Definition sampleMessage : Message :=
  {| id := js "1764873000000"; role := user; content := js "What is the leave policy?";
     timestamp := DateValue 1764873000123; sources := None; confidence := None;
     iterations := None |}.

(** No record of the store has an empty message list. *)
Definition noEmptySession (ls : LocalStorage) : Prop :=
  forall sessionId session,
    storedSession ls sessionId = Some session -> session_messages session <> [].

(** The store after one session was saved. *)
Definition sampleStorage : LocalStorage :=
  snd (saveChatHistory 1764873000500 (js "session_1_abc") [sampleMessage] freshStorage).

(** Two sessions, the second saved a second after the first. *)
Definition twoSessions : LocalStorage :=
  snd (saveChatHistory 1764873001000 (js "session_b") [sampleMessage]
         (snd (saveChatHistory 1764873000000 (js "session_a") [sampleMessage]
                 freshStorage))).

(** ** Frames and turns *)

(** A frame: the marker, a payload, the blank line. *)
Definition frame (payload : jsstring) : jsstring :=
  js "data: " ++ payload ++ frameSeparator.

(** The text of a read that carries whole frames. *)
Definition framesText (payloads : list jsstring) : jsstring :=
  concat (map frame payloads).

(** The fragment of a payload that is a [chunk] event with a string for
    content. *)
Definition chunkFragment (payload : jsstring) : option jsstring :=
  match JSON.parse payload with
  | Normal data =>
      match Get data (js "type"), Get data (js "content") with
      | Normal type, Normal (Some (JString fragment)) =>
          if strictEqualsString type (js "chunk") then Some fragment else None
      | _, _ => None
      end
  | Throw _ => None
  end.

(** A payload of one line that carries a [chunk] event. *)
Definition isChunkPayload (payload : jsstring) : bool :=
  negb (existsb (Z.eqb 10) payload)
  && match chunkFragment payload with Some _ => true | None => false end.

(** A payload that carries an [error] event. *)
Definition isErrorPayload (payload : jsstring) : bool :=
  match JSON.parse payload with
  | Normal data =>
      match Get data (js "type") with
      | Normal type => strictEqualsString type (js "error")
      | Throw _ => false
      end
  | Throw _ => false
  end.

(** The fragments of the [chunk] events among the payloads, in order. *)
Definition fragmentsOf (payloads : list jsstring) : list jsstring :=
  flat_map (fun p => match chunkFragment p with Some c => [c] | None => [] end) payloads.

(** The body whose reads deliver [reads] in turn and then end, or fail. *)
Fixpoint streamOf (reads : list (list Z)) (ending : option Thrown) : ReadableStream :=
  match reads with
  | [] => match ending with None => StreamEnd | Some e => StreamError e end
  | value :: rest => StreamChunk value (streamOf rest ending)
  end.

(** The notice the outer [catch] appends to a message that exists. *)
Definition failureNotice (ending : option Thrown) : jsstring :=
  match ending with
  | None => []
  | Some err => [10; 10] ++ js "Error: " ++ errorText err
  end.

(** The answer as the first [chunk] creates it, with content [c]. *)
Definition assistantMessage (assistantMessageId : jsstring) (clk : Clock)
  (c : jsstring) : Message :=
  {| id := assistantMessageId; role := assistant; content := c;
     timestamp := DateValue (now_firstChunk clk);
     sources := undefined; confidence := undefined;
     iterations := undefined |}.

(** What a [chunk] event with a string fragment does to the state and to
    the local variables of the turn. *)
Definition applyChunk (clk : Clock) (assistantMessageId : jsstring)
  (acc : ChatState * Turn) (fragment : jsstring) : ChatState * Turn :=
  let '(st, tu) := acc in
  let accumulated := accumulatedContent tu ++ fragment in
  if negb (messageAdded tu) then
    (setMessages (fun prev => prev ++ [assistantMessage assistantMessageId clk accumulated]) st,
     {| accumulatedContent := accumulated; turn_sources := turn_sources tu;
        messageAdded := true |})
  else
    (setMessages (updateMessage assistantMessageId (withContent accumulated)) st,
     {| accumulatedContent := accumulated; turn_sources := turn_sources tu;
        messageAdded := messageAdded tu |}).

(** After the fragments [cs]: nothing added yet when there were none,
    otherwise the answer is the last message and holds their concatenation;
    the messages before it keep their timestamps. *)
Definition turnState (base : list Message) (aid : jsstring) (clk : Clock)
  (sid : jsstring) (cs : list jsstring) (acc : ChatState * Turn) : Prop :=
  accumulatedContent (snd acc) = concat cs /\
  sessionId (fst acc) = sid /\
  match cs with
  | [] => messageAdded (snd acc) = false /\ messages (fst acc) = base
  | _ :: _ =>
      messageAdded (snd acc) = true /\
      exists pre,
        messages (fst acc) = pre ++ [assistantMessage aid clk (concat cs)] /\
        map timestamp pre = map timestamp base
  end.

(** The message [handleSend] makes of the input. *)
Definition userMessage (clk : Clock) (st : ChatState) : Message :=
  {| id := Number_toString (now_userId clk); role := user; content := input st;
     timestamp := DateValue (now_userMessage clk);
     sources := undefined; confidence := undefined;
     iterations := undefined |}.

(** The id [handleSend] chooses for the answer. *)
Definition assistantMessageId (clk : Clock) : jsstring :=
  Number_toString (now_assistantId clk + 1).

(** ** Sample turns *)

(** An idle component with a question typed in. *)
Definition idleState : ChatState :=
  {| messages := []; input := js "What is the leave policy?"; isThinking := false;
     thinkingStatus := Some (JString []); sessionId := js "session_1764873000000_k3j9x2m1q";
     error := None |}.

(** A fresh store, and no request sent so far. *)
Definition freshWorld : World := {| storage := freshStorage; requests := [] |}.

(** The first chunk comes 950 ms after the question. *)
Definition sampleClock : Clock :=
  {| now_userId := 1764873000000; now_userMessage := 1764873000000;
     now_assistantId := 1764873000000; now_firstChunk := 1764873000950;
     now_errorMessage := 1764873001500 |}.

(** The network answers 200 and the body delivers [reads], then ends or
    fails. *)
Definition answering (reads : list (list Z)) (ending : option Thrown) : Env :=
  {| clock := sampleClock;
     response := FetchResponse true 200 (Some (streamOf reads ending)) |}.

(** What a run leaves of the conversation: role, content and sources of
    each message. *)
Definition transcript (r : ChatState * World) : list (Role * jsstring * JSValue) :=
  map (fun m => (role m, content m, sources m)) (messages (fst r)).

(** Three [chunk] events in two reads. *)
Definition helloReads : list (list Z) :=
  [text "data: {'type':'chunk','content':'Hello'}~~data: {'type':'chunk','content':' world'}~~";
   text "data: {'type':'chunk','content':'!'}~~"].

(** The payloads of their frames. *)
Definition helloPayloads : list (list jsstring) :=
  [[text "{'type':'chunk','content':'Hello'}"; text "{'type':'chunk','content':' world'}"];
   [text "{'type':'chunk','content':'!'}"]].

(** The bytes of one frame, the event [chunk("Hi")]. *)
Definition hiFrame : list Z := text "data: {'type':'chunk','content':'Hi'}~~".

(** Frames of a [sources], a [chunk] and a [done] event. *)
Definition sourcesFrame : list Z :=
  text "data: {'type':'sources','sources':[{'filename':'a.pdf'}]}~~".
Definition helloFrame : list Z := text "data: {'type':'chunk','content':'Hello'}~~".
Definition doneFrame : list Z := text "data: {'type':'done'}~~".

(** The citation list of [sourcesFrame]. *)
Definition pdfSources : JSValue :=
  Some (JArray [JObject [(js "filename", JString (js "a.pdf"))]]).

(** One read with a single [chunk] event, and its payload. *)
Definition partialReads : list (list Z) :=
  [text "data: {'type':'chunk','content':'Partial'}~~"].

Definition partialPayloads : list (list jsstring) :=
  [[text "{'type':'chunk','content':'Partial'}"]].

(** What a read rejects with when the connection breaks. *)
Definition networkError : Thrown := ErrorObject (js "TypeError") (js "network error").

(** Frames of an [error] event and of two [chunk] events. *)
Definition errorFrame : list Z := text "data: {'type':'error','message':'boom'}~~".
Definition partialFrame : list Z := text "data: {'type':'chunk','content':'Partial'}~~".
Definition moreFrame : list Z := text "data: {'type':'chunk','content':' and more'}~~".

(** A component in the middle of a turn, with more text typed in. *)
Definition thinkingState : ChatState :=
  {| messages := [sampleMessage]; input := js "And the travel policy?"; isThinking := true;
     thinkingStatus := Some (JString (js "Initializing...")); sessionId := sessionId idleState;
     error := None |}.

(** An idle component whose input holds spaces and a line feed. *)
Definition blankState : ChatState :=
  {| messages := [sampleMessage]; input := text "  ~ "; isThinking := false;
     thinkingStatus := Some (JString []); sessionId := sessionId idleState; error := None |}.

(** ** The store, the list and the handlers *)

(** The ids of the stored sessions, in the order of the store. *)
Definition sessionOrder (ls : LocalStorage) : list jsstring :=
  map fst (getAllChatHistory ls).

(** What the list shows of a stored session besides the label. *)
Definition storedEntry (session : StoredSession) : jsstring * jsstring * option jsstring :=
  (session_id session, session_title session, session_lastMessage session).

Definition listedEntry (chat : ChatHistory) : jsstring * jsstring * option jsstring :=
  (chat_id chat, chat_title chat, chat_lastMessage chat).

(** A session last saved at a valid instant less than [span] ms before
    [now]. *)
Definition savedWithin (span now : Z) (session : StoredSession) : Prop :=
  exists t, session_timestamp session = isoString t /\ validTime t = true /\ now - t < span.

(** Every property of the stored object is a record that carries its own
    key as id, and no key occurs twice. *)
Definition wellKeyed (h : History) : Prop :=
  NoDup (map fst h) /\ Forall (fun kv => session_id (snd kv) = fst kv) h.

(** A text in which [Date.parse] finds no date. *)
Definition noDate (s : jsstring) : bool :=
  match Date_parse s with None => true | Some _ => false end.

(** The events of the stream. *)
Inductive Event :=
| StatusEvent (message : JSValue)
| ChunkEvent (fragment : jsstring)
| SourcesEvent (srcs : JSValue)
| DoneEvent
| ErrorEvent.

(** The event a payload carries, as [handleSend] reads it; [None] for a
    payload it skips: one that is no JSON, that is [null], whose type is
    none of the five, or a chunk whose content has no string form. *)
Definition decodeEvent (payload : jsstring) : option Event :=
  match JSON.parse payload with
  | Throw _ => None
  | Normal data =>
      match Get data (js "type") with
      | Throw _ => None
      | Normal type =>
          if strictEqualsString type (js "status") then
            match Get data (js "message") with
            | Normal message => Some (StatusEvent message)
            | Throw _ => None
            end
          else if strictEqualsString type (js "chunk") then
            match Get data (js "content") with
            | Normal fragment =>
                match ToStringValue fragment with
                | Normal text => Some (ChunkEvent text)
                | Throw _ => None
                end
            | Throw _ => None
            end
          else if strictEqualsString type (js "sources") then
            match Get data (js "sources") with
            | Normal srcs => Some (SourcesEvent srcs)
            | Throw _ => None
            end
          else if strictEqualsString type (js "done") then Some DoneEvent
          else if strictEqualsString type (js "error") then Some ErrorEvent
          else None
      end
  end.

(** What an event does to the state and to the local variables of a turn. *)
Definition applyEvent (clk : Clock) (aid : jsstring) (acc : ChatState * Turn)
  (ev : option Event) : ChatState * Turn :=
  match ev with
  | Some (StatusEvent message) => (setThinkingStatus message (fst acc), snd acc)
  | Some (ChunkEvent fragment) => applyChunk clk aid acc fragment
  | Some (SourcesEvent srcs) =>
      let tu := {| accumulatedContent := accumulatedContent (snd acc);
                   turn_sources := srcs;
                   messageAdded := messageAdded (snd acc) |} in
      if messageAdded (snd acc)
      then (setMessages (updateMessage aid (withSources srcs)) (fst acc), tu)
      else (fst acc, tu)
  | Some DoneEvent => (setThinkingStatus (Some (JString [])) (setIsThinking false (fst acc)), snd acc)
  | Some ErrorEvent => acc
  | None => acc
  end.

(** The answer a sequence of events adds up to: whether there is one, its
    content, its sources.  Sources count once the answer exists. *)
Record Answer := mkAnswer {
  answer_exists : bool;
  answer_content : jsstring;
  answer_sources : JSValue
}.

Definition accumulate (a : Answer) (ev : option Event) : Answer :=
  match ev with
  | Some (ChunkEvent fragment) =>
      {| answer_exists := true; answer_content := answer_content a ++ fragment;
         answer_sources := answer_sources a |}
  | Some (SourcesEvent srcs) =>
      if answer_exists a
      then {| answer_exists := true; answer_content := answer_content a;
              answer_sources := srcs |}
      else a
  | _ => a
  end.

Definition noAnswer : Answer :=
  {| answer_exists := false; answer_content := []; answer_sources := undefined |}.

Definition answerOf (payloads : list jsstring) : Answer :=
  fold_left accumulate (map decodeEvent payloads) noAnswer.

(** A payload on one line. *)
Definition oneLine (payload : jsstring) : bool := negb (existsb (Z.eqb 10) payload).

(** The error a request ends with before any frame was read, if it does. *)
Definition requestFailure (r : FetchResult) : option Thrown :=
  match r with
  | FetchRejected e => Some e
  | FetchResponse false status _ =>
      Some (ErrorObject (js "Error") (js "HTTP error! status: " ++ Number_toString status))
  | FetchResponse true _ None => Some (ErrorObject (js "Error") (js "No reader available"))
  | FetchResponse true _ (Some (StreamError e)) => Some e
  | FetchResponse true _ (Some _) => None
  end.

(** The request a submit sends. *)
Definition requestOf (st : ChatState) (w : World) : Request :=
  {| request_token := auth_token (storage w);
     request_query := input st;
     request_session_id := sessionId st |}.

(** What the fields a turn does not own look like during the turn. *)
Definition fieldsKept (st1 : ChatState) (acc : ChatState * Turn) : Prop :=
  input (fst acc) = input st1 /\
  sessionId (fst acc) = sessionId st1 /\
  error (fst acc) = error st1 /\
  List.length (messages (fst acc))
  = (List.length (messages st1) + (if messageAdded (snd acc) then 1 else 0))%nat.

(** The conversation during a turn, when no earlier message has the id of
    the answer: the messages before the turn, and the answer once it
    exists, which carries no confidence. *)
Definition conversationKept (base : list Message) (aid : jsstring)
  (acc : ChatState * Turn) : Prop :=
  exists tail,
    messages (fst acc) = base ++ tail /\
    if messageAdded (snd acc)
    then exists m, tail = [m] /\ id m = aid /\ role m = assistant /\
                   confidence m = undefined
    else tail = [].

(** The message an answer is shown as. *)
Definition answerMessage (aid : jsstring) (clk : Clock) (a : Answer) : Message :=
  {| id := aid; role := assistant; content := answer_content a;
     timestamp := DateValue (now_firstChunk clk);
     sources := answer_sources a; confidence := undefined;
     iterations := undefined |}.

(** The message the outer [catch] adds when there is no answer. *)
Definition errorMessage (aid : jsstring) (clk : Clock) (err : Thrown) : Message :=
  {| id := aid; role := assistant;
     content := js "Error: " ++ errorText err ++ js ". Please try again.";
     timestamp := DateValue (now_errorMessage clk);
     sources := undefined; confidence := undefined;
     iterations := undefined |}.

(** What a turn adds after the question: the answer, with the notice of the
    failure that ended the body if one did; without an answer, the error
    message of that failure, or nothing. *)
Definition turnTail (aid : jsstring) (clk : Clock) (a : Answer) (ending : option Thrown)
  : list Message :=
  if answer_exists a then
    [withContent (answer_content a ++ failureNotice ending) (answerMessage aid clk a)]
  else
    match ending with
    | Some err => [errorMessage aid clk err]
    | None => []
    end.

(** The state of a turn after events that add up to the answer [a]. *)
Definition answerState (base : list Message) (aid : jsstring) (clk : Clock) (a : Answer)
  (acc : ChatState * Turn) : Prop :=
  accumulatedContent (snd acc) = answer_content a /\
  messageAdded (snd acc) = answer_exists a /\
  (answer_exists a = false -> answer_sources a = undefined) /\
  messages (fst acc) = base ++ (if answer_exists a then [answerMessage aid clk a] else []).

(** The state a submit that is accepted leaves. *)
Definition submitted (clk : Clock) (st : ChatState) : ChatState :=
  {| messages := messages st ++ [userMessage clk st]; input := [];
     isThinking := true; thinkingStatus := Some (JString (js "Initializing..."));
     sessionId := sessionId st; error := None |}.

(** A payload [handleSend] does nothing with: one that is no JSON, one
    whose type cannot be read ([null]), or one whose type is none of
    [status], [chunk], [sources] and [done]. *)
Definition skipped (payload : jsstring) : bool :=
  match JSON.parse payload with
  | Throw _ => true
  | Normal data =>
      match Get data (js "type") with
      | Throw _ => true
      | Normal type =>
          negb (strictEqualsString type (js "status"))
          && negb (strictEqualsString type (js "chunk"))
          && negb (strictEqualsString type (js "sources"))
          && negb (strictEqualsString type (js "done"))
      end
  end.

(** Two reads of whole frames: a status, a chunk, sources, a payload that is
    no JSON, a second chunk, an event of a type the client does not know,
    and [done]. *)
Definition mixedPayloads : list (list jsstring) :=
  [[text "{'type':'status','message':'Searching...'}";
    text "{'type':'chunk','content':'Hello'}";
    text "{'type':'sources','sources':[{'filename':'a.pdf'}]}"];
   [text "[DONE";
    text "{'type':'chunk','content':' world'}";
    text "{'type':'ping'}";
    text "{'type':'done'}"]].

Definition mixedReads : list (list Z) :=
  [text "data: {'type':'status','message':'Searching...'}~~data: {'type':'chunk','content':'Hello'}~~data: {'type':'sources','sources':[{'filename':'a.pdf'}]}~~";
   text "data: [DONE~~data: {'type':'chunk','content':' world'}~~data: {'type':'ping'}~~data: {'type':'done'}~~"].

(** ** The component and the store *)

(** What the user and the network can make the mounted component do: type,
    send (the turn run to its end against any network behaviour), the save
    effect, a new chat, opening a chat of the list, deleting one. *)
Inductive step : ChatState * Sidebar * World -> ChatState * Sidebar * World -> Prop :=
| step_type value st sb w :
    step (st, sb, w) (setInput value st, sb, w)
| step_send env st sb w :
    step (st, sb, w) (fst (handleSend env st w), sb, snd (handleSend env st w))
| step_save now nowList st sb w :
    step (st, sb, w)
      (st, fst (saveMessagesEffect now nowList st sb (storage w)),
       {| storage := snd (saveMessagesEffect now nowList st sb (storage w));
          requests := requests w |})
| step_new nowId random st sb w :
    step (st, sb, w)
      (fst (startNewChat nowId random st (storage w)), sb,
       {| storage := snd (startNewChat nowId random st (storage w));
          requests := requests w |})
| step_open historySessionId st sb w :
    step (st, sb, w)
      (fst (fst (snd (loadChatSession historySessionId st sb (storage w)))),
       snd (fst (snd (loadChatSession historySessionId st sb (storage w)))),
       {| storage := snd (snd (loadChatSession historySessionId st sb (storage w)));
          requests := requests w |})
| step_delete now nowId random historySessionId st sb w :
    step (st, sb, w)
      (fst (fst (deleteChat now nowId random historySessionId st sb (storage w))),
       snd (fst (deleteChat now nowId random historySessionId st sb (storage w))),
       {| storage := snd (deleteChat now nowId random historySessionId st sb (storage w));
          requests := requests w |}).

(** The configurations a mounted component can be in, from any store. *)
Inductive mounted : ChatState * Sidebar * World -> Prop :=
| mounted_first now nowId random w :
    mounted
      (fst (fst (snd (initialize now nowId random mountedState mountedSidebar (storage w)))),
       snd (fst (snd (initialize now nowId random mountedState mountedSidebar (storage w)))),
       {| storage :=
            snd (snd (initialize now nowId random mountedState mountedSidebar (storage w)));
          requests := requests w |})
| mounted_step c c' : mounted c -> step c c' -> mounted c'.

(** A store with the conversation of [sampleMessage] as the current one. *)
Definition currentStorage : LocalStorage :=
  setCurrentSession twoSessions (js "session_a").

(** The component showing that conversation. *)
Definition showingState : ChatState :=
  {| messages := [sampleMessage]; input := []; isThinking := false;
     thinkingStatus := Some (JString []); sessionId := js "session_a"; error := None |}.

(** A question, its answer, a second question and its answer. *)
Definition twoTurns : list Message :=
  [ {| id := js "1764873000000"; role := user; content := js "What is the leave policy?";
       timestamp := DateValue 1764873000000; sources := undefined; confidence := undefined;
     iterations := undefined |};
    {| id := js "1764873000001"; role := assistant; content := js "Twenty days a year.";
       timestamp := DateValue 1764873000950; sources := undefined; confidence := undefined;
     iterations := undefined |};
    {| id := js "1764873060000"; role := user; content := js "And the travel policy?";
       timestamp := DateValue 1764873060000; sources := undefined; confidence := undefined;
     iterations := undefined |};
    {| id := js "1764873060001"; role := assistant; content := js "Economy class.";
       timestamp := DateValue 1764873060800; sources := undefined; confidence := undefined;
     iterations := undefined |} ].

(** The component mounted on that store, and then the chat it shows
    deleted. *)
Definition firstConfiguration : ChatState * Sidebar * World :=
  let r := snd (initialize 1764873002000 1764873002000 (js "0.k3j9x2m1qzz") mountedState
                  mountedSidebar currentStorage) in
  (fst (fst r), snd (fst r), {| storage := snd r; requests := [] |}).

Definition afterDelete : ChatState * Sidebar * World :=
  let '(st, sb, w) := firstConfiguration in
  let r := deleteChat 1764873003000 1764873003000 (js "0.z7y6x5w4vuu") (js "session_a")
             st sb (storage w) in
  (fst (fst r), snd (fst r), {| storage := snd r; requests := requests w |}).

(** ** Dates of a turn *)

(** The dates a turn stamps its messages with hold a time value. *)
Definition validClock (clk : Clock) : Prop :=
  validTime (now_userMessage clk) = true /\
  validTime (now_firstChunk clk) = true /\
  validTime (now_errorMessage clk) = true.

(** Every message shown holds such a date. *)
Definition validDates (acc : ChatState * Turn) : Prop :=
  Forall (fun m => validDate (timestamp m) = true) (messages (fst acc)).

(** ** Logins *)

Import AuthContext ApiClient.

(** The provider mounted on a store. *)
Definition mountAuth (bs : BrowserStorage) : AuthState * AuthWorld :=
  loadFromStorage initialAuthState {| browser := bs; Authorization := None |}.

(** A store with a login beside two conversations, and the same with a user
    item cut short. *)
Definition loggedInStorage : BrowserStorage :=
  {| service_items :=
       {| CHAT_HISTORY := CHAT_HISTORY currentStorage;
          CURRENT_SESSION := CURRENT_SESSION currentStorage;
          auth_token := Some (js "eyJhbGciOiJIUzI1NiJ9.e30.abc") |};
     API_KEY := None; SETTINGS := None;
     auth_user := Some (text "{'id':7,'email':'ada@example.com','is_active':true}") |}.

Definition corruptStorage : BrowserStorage :=
  {| service_items := service_items loggedInStorage;
     API_KEY := None; SETTINGS := None;
     auth_user := Some (text "{'id':7,'email':'ada@exam") |}.

(** ** Dates that cannot be read *)

(** A conversation with a message whose date is invalid. *)
Definition unreadable (messages : list Message) : Prop :=
  Exists (fun m => timestamp m = InvalidDate) messages.

(** A store in which the timestamp of a message is no date. *)
Definition staleStorage : LocalStorage :=
  {| CHAT_HISTORY :=
       Some [(js "session_a",
              {| session_id := js "session_a";
                 session_title := js "What is the leave policy?";
                 session_timestamp := js "2025-12-04T18:30:00.500Z";
                 session_messages :=
                   [{| stored_id := js "1764873000000"; stored_role := user;
                       stored_content := js "What is the leave policy?";
                       stored_timestamp := js "not a date";
                       stored_sources := undefined; stored_confidence := undefined;
                       stored_iterations := undefined |}];
                 session_lastMessage := Some (js "What is the leave policy?") |})];
     CURRENT_SESSION := Some (js "session_a");
     auth_token := None |}.

(** The component after it opened that session, with a question typed. *)
Definition staleState : ChatState :=
  setInput (js "And the travel policy?")
    (fst (fst (snd (loadChatSession (js "session_a") mountedState mountedSidebar
                      staleStorage)))).

(** ** What the store gives back *)

(** A message as it reads back after a save: the optional fields as JSON
    carries them. *)
Definition asStored (m : Message) : Message :=
  {| id := id m; role := role m; content := content m; timestamp := timestamp m;
     sources := throughStorage (sources m);
     confidence := throughStorage (confidence m);
     iterations := throughStorage (iterations m) |}.

(** The question of [sampleMessage] with a date that holds no time value,
    and with a number too large for a double among its sources. *)
Definition undatedMessage : Message :=
  {| id := js "1764873000000"; role := user; content := js "What is the leave policy?";
     timestamp := InvalidDate; sources := None; confidence := None; iterations := None |}.

Definition overflowMessage : Message :=
  {| id := js "1764873000001"; role := assistant; content := js "Twenty days a year.";
     timestamp := DateValue 1764873000950;
     sources := Some (JArray [JObject [(js "score", JNumber (js "1e999"))]]);
     confidence := None; iterations := None |}.

(** A store whose text was written by hand: a source of the stored message
    holds the number [1e999]. *)
Definition editedStorage : LocalStorage :=
  {| CHAT_HISTORY :=
       Some [(js "session_a",
              {| session_id := js "session_a";
                 session_title := js "New Chat";
                 session_timestamp := js "2025-12-04T18:30:00.500Z";
                 session_messages :=
                   [{| stored_id := js "1764873000001"; stored_role := assistant;
                       stored_content := js "Twenty days a year.";
                       stored_timestamp := js "2025-12-04T18:30:00.950Z";
                       stored_sources :=
                         Some (JArray [JObject [(js "score", JNumber (js "1e999"))]]);
                       stored_confidence := undefined;
                       stored_iterations := undefined |}];
                 session_lastMessage := Some (js "Twenty days a year.") |})];
     CURRENT_SESSION := Some (js "session_a");
     auth_token := None |}.



(** ** Reads of any shape *)

(** The local variables at the start of a turn. *)
Definition turnStart : Turn :=
  {| accumulatedContent := []; turn_sources := Some (JArray []); messageAdded := false |}.

(** The event a piece of a read carries.  The pieces of a read are what the
    split of its text at the blank lines gives; a piece that does not start
    with the marker carries no event. *)
Definition lineEvent (line : jsstring) : option Event :=
  if startsWith line (js "data: ") then decodeEvent (slice_from 6 line) else None.

(** The events the reads carry, each read decoded and split on its own. *)
Definition eventsRead (reads : list (list Z)) : list (option Event) :=
  flat_map (fun value => map lineEvent (split (TextDecoder.decode value) frameSeparator))
    reads.

(** The fragments of the [chunk] events among the events, in order. *)
Definition chunkTexts (evs : list (option Event)) : list jsstring :=
  flat_map (fun ev => match ev with Some (ChunkEvent fragment) => [fragment] | _ => [] end)
    evs.

Definition chunksRead (reads : list (list Z)) : list jsstring :=
  chunkTexts (eventsRead reads).



(** The body of the read loop run for the reads [reads] of a body that is
    still open: the state and the local variables when the loop awaits the
    next read. *)
Definition readsHandled (clk : Clock) (aid : jsstring) (reads : list (list Z))
  (acc : ChatState * Turn) : ChatState * Turn :=
  fold_left
    (fun acc value =>
       fold_left (handleLine clk aid) (split (TextDecoder.decode value) frameSeparator) acc)
    reads acc.

(** After events whose [chunk] fragments are [cs]: nothing added when there
    are none; otherwise the answer is the last message, with their
    concatenation for content, after as many messages as before. *)
Definition readingState (base : list Message) (aid : jsstring) (clk : Clock)
  (cs : list jsstring) (acc : ChatState * Turn) : Prop :=
  accumulatedContent (snd acc) = concat cs /\
  match cs with
  | [] => messageAdded (snd acc) = false /\ messages (fst acc) = base
  | _ :: _ =>
      messageAdded (snd acc) = true /\
      exists pre m,
        messages (fst acc) = pre ++ [m] /\
        id m = aid /\ role m = assistant /\ content m = concat cs /\
        timestamp m = DateValue (now_firstChunk clk) /\
        map timestamp pre = map timestamp base
  end.


(** Two frames one after the other, cut where the first payload ends and
    one byte later. *)
Definition helloAndMore : list Z := helloFrame ++ moreFrame.

(** * Properties *)

(** ** The platform model on examples *)

Example isoString_epoch : isoString 0 = js "1970-01-01T00:00:00.000Z".
Proof. reflexivity. Qed.

Example isoString_sample : isoString 1764873000123 = js "2025-12-04T18:30:00.123Z".
Proof. reflexivity. Qed.

Example isoString_leap_day : isoString 1709251199999 = js "2024-02-29T23:59:59.999Z".
Proof. reflexivity. Qed.

Example isoString_before_year_zero :
  isoString (-62198755200001) = js "-000002-12-31T23:59:59.999Z".
Proof. reflexivity. Qed.

Example isoString_latest : isoString maxTime = js "+275760-09-13T00:00:00.000Z".
Proof. reflexivity. Qed.

Example Date_parse_iso : Date_parse (js "2025-12-04T18:30:00.123Z") = Some 1764873000123.
Proof. reflexivity. Qed.

Example Date_parse_illegal_month : Date_parse (js "2025-13-01T00:00:00.000Z") = None.
Proof. reflexivity. Qed.

Example Date_parse_locale : Date_parse (js "12/4/2025") = Some 1764806400000.
Proof. reflexivity. Qed.

Example Date_parse_labels :
  map Date_parse [js "Just now"; js "1 min ago"; js "5 mins ago"; js "2 hours ago";
                  js "Yesterday"; js "3 days ago"; js "Invalid Date"]
  = [None; None; None; None; None; None; None].
Proof. reflexivity. Qed.

Example formatTimestamp_labels :
  map (fun elapsed => formatTimestamp (1764873000123 + elapsed) (js "2025-12-04T18:30:00.123Z"))
    [0; 59999; 60000; 300000; 3600000; 7200000; 93600000; 259200000; 604800000; -5000]
  = [js "Just now"; js "Just now"; js "1 min ago"; js "5 mins ago"; js "1 hour ago";
     js "2 hours ago"; js "Yesterday"; js "3 days ago"; js "12/4/2025"; js "Just now"].
Proof. vm_compute. reflexivity. Qed.

Example split_frames_example :
  split (text "data: a~~data: b~~") frameSeparator = [js "data: a"; js "data: b"; []].
Proof. reflexivity. Qed.

Example split_three_line_feeds :
  split (text "a~~~b") frameSeparator = [js "a"; text "~b"].
Proof. reflexivity. Qed.

Example trim_example : trim (text "  ~ leave policy ~") = js "leave policy".
Proof. reflexivity. Qed.

Example parse_chunk :
  JSON.parse (text "{'type':'chunk','content':'Hi'}")
  = Normal (JObject [(js "type", JString (js "chunk")); (js "content", JString (js "Hi"))]).
Proof. reflexivity. Qed.

Example parse_nested :
  JSON.parse (text " [1, -2.5e+3, true, null, {'a': [], 'b': {}}] ")
  = Normal (JArray [JNumber (js "1"); JNumber (js "-2.5e+3"); JBool true; JNull;
                    JObject [(js "a", JArray []); (js "b", JObject [])]]).
Proof. reflexivity. Qed.

Example parse_escapes :
  JSON.parse (text "'a\nA\\'") = Normal (JString [97; 10; 65; 92]).
Proof. reflexivity. Qed.

Example parse_rejects :
  map (fun s => match JSON.parse s with Normal _ => true | Throw _ => false end)
    [text "{'type':'chunk','con"; text "tent':'Hi'}"; text "[1,]"; text "{'a':1,}";
     text "01"; text "1."; text "tru"; text ""; text "[1 2]"; text "'a~b'"]
  = [false; false; false; false; false; false; false; false; false; false].
Proof. reflexivity. Qed.

Example decode_utf8 :
  TextDecoder.decode [72; 105; 32; 226; 130; 172; 240; 159; 152; 128]
  = [72; 105; 32; 8364; 55357; 56832].
Proof. reflexivity. Qed.

Example decode_cut_sequence :
  TextDecoder.decode [72; 226; 130] = [72; 65533] /\
  TextDecoder.decode [172; 105] = [65533; 105].
Proof. split; reflexivity. Qed.

Example sort_numbers :
  JSArray.sort (fun a b => Some (b - a)) [3; 1; 2; 3] = [3; 3; 2; 1].
Proof. reflexivity. Qed.

(** ** Dates *)

(** Replaces the comparisons of the goal that [lia] proves by [true]. *)
Ltac leb_holds :=
  repeat match goal with
         | |- context [?a <=? ?b] =>
             replace (a <=? b) with true by (symmetry; apply Z.leb_le; lia)
         end.

(** Reads the next padded field of an ISO string, then the separator. *)
Ltac read_field lemma :=
  rewrite lemma by (cbn; lia); cbn [bind app expect Z.eqb Pos.eqb].

Lemma digitValue_digit d : 0 <= d <= 9 -> digitValue (48 + d) = Some d.
Proof.
  intros H. unfold digitValue. leb_holds. cbn [andb]. f_equal. lia.
Qed.

Lemma readDigits_pad n : forall v rest,
  0 <= v < 10 ^ Z.of_nat n -> readDigits n (pad n v ++ rest) = Some (v, rest).
Proof.
  induction n as [|k IH]; intros v rest Hv.
  - simpl in *. f_equal. f_equal. lia.
  - cbn [pad readDigits]. rewrite <- app_assoc. cbn [app].
    assert (Hk : 0 <= v / 10 < 10 ^ Z.of_nat k).
    { rewrite Nat2Z.inj_succ, Z.pow_succ_r in Hv by lia.
      split; [apply Z.div_pos; lia | apply Z.div_lt_upper_bound; lia]. }
    rewrite (IH _ _ Hk).
    rewrite digitValue_digit by (pose proof (Z.mod_pos_bound v 10); lia).
    f_equal. f_equal. pose proof (Z.div_mod v 10). lia.
Qed.

Lemma YearFromDay_spec d :
  DayFromYear (YearFromDay d) <= d < DayFromYear (YearFromDay d + 1).
Proof.
  unfold YearFromDay.
  set (y := 1970 + d * 400 / 146097).
  assert (Hy : 146097 * (y - 1970) <= d * 400 < 146097 * (y - 1970) + 146097).
  { subst y. pose proof (Z.div_mod (d * 400) 146097 ltac:(lia)).
    pose proof (Z.mod_pos_bound (d * 400) 146097 ltac:(lia)). lia. }
  clearbody y.
  destruct (Z.gtb_spec (DayFromYear y) d).
  - unfold DayFromYear in *. Z.div_mod_to_equations. lia.
  - destruct (Z.leb_spec (DayFromYear (y + 1)) d);
      unfold DayFromYear in *; Z.div_mod_to_equations; lia.
Qed.

Lemma DayFromYear_succ y : DayFromYear (y + 1) = DayFromYear y + DaysInYear y.
Proof.
  unfold DayFromYear, DaysInYear, isLeapYear.
  destruct (Z.eqb_spec (y mod 4) 0), (Z.eqb_spec (y mod 100) 0),
    (Z.eqb_spec (y mod 400) 0); cbn [negb andb orb];
    Z.div_mod_to_equations; lia.
Qed.

Lemma DayWithinYear_range t :
  0 <= DayWithinYear t < DaysInYear (YearFromTime t).
Proof.
  unfold DayWithinYear, YearFromTime.
  pose proof (YearFromDay_spec (Day t)) as H.
  rewrite DayFromYear_succ in H. lia.
Qed.

Lemma month_of_day d leap :
  (leap = 0 \/ leap = 1) -> 0 <= d < 365 + leap ->
  let m := MonthFromDayWithinYear d leap in
  0 <= m <= 11 /\
  DaysBeforeMonth m leap <= d /\
  (m = 11 -> d - DaysBeforeMonth m leap < 31) /\
  (m <> 11 -> d < DaysBeforeMonth (m + 1) leap).
Proof.
  intros Hl Hd. unfold MonthFromDayWithinYear.
  destruct Hl; subst leap;
  repeat match goal with
         | |- context [?a <? ?b] => destruct (Z.ltb_spec a b)
         end; cbn; repeat split; intros; try lia.
Qed.

Lemma year_range t :
  validTime t = true -> -271821 <= YearFromTime t <= 275760.
Proof.
  unfold validTime, maxTime. intros H.
  apply andb_true_iff in H as [H1 H2].
  apply Z.leb_le in H1, H2.
  pose proof (YearFromDay_spec (Day t)) as Hy.
  unfold YearFromTime. set (y := YearFromDay (Day t)) in *. clearbody y.
  unfold Day, msPerDay, DayFromYear in *. Z.div_mod_to_equations. lia.
Qed.

Lemma isoYearField_isoYear y rest :
  -999999 <= y <= 999999 -> isoYearField (isoYear y ++ rest) = Some (y, rest).
Proof.
  intros Hy. unfold isoYear.
  destruct (Z.leb_spec 0 y) as [H0|H0]; cbn [andb].
  - destruct (Z.leb_spec y 9999) as [H1|H1].
    + pose proof (readDigits_pad 4 y rest ltac:(cbn; lia)) as R.
      revert R. cbn [pad app]. unfold isoYearField.
      set (c := 48 + y / 10 / 10 / 10 mod 10).
      assert (Hc : 48 <= c <= 57) by (subst c; Z.div_mod_to_equations; lia).
      destruct (Z.eqb_spec c 43); [lia|]. destruct (Z.eqb_spec c 45); [lia|].
      auto.
    + cbn [app isoYearField]. cbn [Z.eqb Pos.eqb].
      rewrite Z.abs_eq by lia. apply readDigits_pad. cbn; lia.
  - cbn [app isoYearField]. cbn [Z.eqb Pos.eqb].
    rewrite readDigits_pad by (cbn; lia). cbn [bind].
    destruct (Z.eqb_spec (Z.abs y) 0); [lia|]. f_equal. f_equal. lia.
Qed.

Lemma time_fields t :
  MakeTime (HourFromTime t) (MinFromTime t) (SecFromTime t) (msFromTime t)
  = TimeWithinDay t.
Proof.
  unfold MakeTime, HourFromTime, MinFromTime, SecFromTime, msFromTime,
    TimeWithinDay, msPerHour, msPerMinute, msPerSecond, msPerDay.
  Z.div_mod_to_equations. lia.
Qed.

Lemma leap_flag t : InLeapYear t = 0 \/ InLeapYear t = 1.
Proof. unfold InLeapYear. destruct (isLeapYear _); auto. Qed.

Lemma DaysInYear_leap t : DaysInYear (YearFromTime t) = 365 + InLeapYear t.
Proof. unfold DaysInYear, InLeapYear. destruct (isLeapYear _); reflexivity. Qed.

Lemma date_fields t :
  let m := MonthFromTime t in
  0 <= m <= 11 /\ 1 <= DateFromTime t <= DaysInMonth (YearFromTime t) m /\
  MakeDay (YearFromTime t) m (DateFromTime t) = Day t.
Proof.
  intros m.
  pose proof (DayWithinYear_range t) as Hd. rewrite DaysInYear_leap in Hd.
  pose proof (month_of_day _ _ (leap_flag t) Hd) as (Hm & Hlo & Hdec & Hhi).
  fold (MonthFromTime t) in Hm, Hlo, Hdec, Hhi. fold m in Hm, Hlo, Hdec, Hhi.
  split; [exact Hm|]. split.
  - unfold DateFromTime, DaysInMonth. fold m. fold (InLeapYear t).
    destruct (Z.eqb_spec m 11) as [E|E]; [specialize (Hdec E)|specialize (Hhi E)]; lia.
  - unfold MakeDay, DateFromTime. fold m.
    rewrite Z.div_small, Z.mod_small by lia. rewrite Z.add_0_r.
    fold (InLeapYear t). unfold DayWithinYear in *. lia.
Qed.

Lemma time_field_ranges t :
  0 <= HourFromTime t < 24 /\ 0 <= MinFromTime t < 60 /\
  0 <= SecFromTime t < 60 /\ 0 <= msFromTime t < 1000.
Proof.
  unfold HourFromTime, MinFromTime, SecFromTime, msFromTime, msPerSecond.
  repeat split; apply Z.mod_pos_bound; lia.
Qed.

Lemma DaysInMonth_max y m : DaysInMonth y m <= 31.
Proof.
  unfold DaysInMonth, DaysBeforeMonth.
  destruct (isLeapYear _);
    repeat match goal with
           | |- context [?a =? ?b] => destruct (Z.eqb_spec a b)
           end; lia.
Qed.

Lemma parseISO_isoString t : validTime t = true -> parseISO (isoString t) = Some t.
Proof.
  intros Hv. pose proof (year_range t Hv) as Hy.
  pose proof (date_fields t) as (Hm & Hdt & Hmk).
  pose proof (DaysInMonth_max (YearFromTime t) (MonthFromTime t)) as Hdm.
  pose proof (time_field_ranges t) as (Hh & Hmi & Hs & Hms).
  unfold parseISO, isoString.
  read_field isoYearField_isoYear.
  do 6 read_field readDigits_pad.
  replace (MonthFromTime t + 1 - 1) with (MonthFromTime t) by lia.
  rewrite Hmk, time_fields. leb_holds.
  cbn [andb orb]. f_equal. unfold MakeDate, Day, TimeWithinDay, msPerDay.
  pose proof (Z.div_mod t 86400000). lia.
Qed.

Lemma Date_roundtrip t :
  validTime t = true -> Date_fromString (isoString t) = DateValue t.
Proof.
  intros Hv. unfold Date_fromString, Date_parse.
  rewrite parseISO_isoString by exact Hv. unfold TimeClip. now rewrite Hv.
Qed.

(** ** Strings *)

Lemma str_eqb_refl s : str_eqb s s = true.
Proof. induction s as [|c s IH]; cbn; [reflexivity|]. now rewrite Z.eqb_refl. Qed.

Lemma str_eqb_eq a : forall b, str_eqb a b = true <-> a = b.
Proof.
  induction a as [|c a IH]; intros [|d b]; cbn; split; intros H;
    try reflexivity; try discriminate.
  - apply andb_true_iff in H as [H1 H2]. apply Z.eqb_eq in H1. apply IH in H2.
    now subst.
  - injection H as -> ->. now rewrite Z.eqb_refl, str_eqb_refl.
Qed.

Lemma str_eqb_neq a b : a <> b -> str_eqb a b = false.
Proof.
  intros H. destruct (str_eqb a b) eqn:E; [|reflexivity].
  apply str_eqb_eq in E. contradiction.
Qed.

(** ** The stored object *)

Lemma objOwn_objReplace_same h : forall k v,
  objOwn h k <> None -> objOwn (objReplace h k v) k = Some v.
Proof.
  induction h as [|[k' v'] h IH]; intros k v H; cbn in *; [contradiction|].
  destruct (str_eqb k' k) eqn:E; cbn.
  - now rewrite str_eqb_refl.
  - rewrite E. now apply IH.
Qed.

Lemma objOwn_objReplace_other h : forall k v j,
  k <> j -> objOwn (objReplace h k v) j = objOwn h j.
Proof.
  induction h as [|[k' v'] h IH]; intros k v j Hkj; cbn; [reflexivity|].
  destruct (str_eqb k' k) eqn:E; cbn.
  - apply str_eqb_eq in E. subst k'. now rewrite (str_eqb_neq _ _ Hkj).
  - destruct (str_eqb k' j); [reflexivity | now apply IH].
Qed.

Lemma objOwn_cons_none k' v' h k :
  objOwn ((k', v') :: h) k = None -> str_eqb k' k = false /\ objOwn h k = None.
Proof. cbn. destruct (str_eqb k' k); [discriminate | auto]. Qed.

Lemma objOwn_insertIndex_same h : forall k n v,
  objOwn h k = None -> objOwn (insertIndex h k n v) k = Some v.
Proof.
  induction h as [|[k' v'] h IH]; intros k n v H; cbn [insertIndex].
  - cbn. now rewrite str_eqb_refl.
  - apply objOwn_cons_none in H as [E H].
    destruct (arrayIndex k') as [n'|]; [destruct (n' <? n)|]; cbn [objOwn].
    + rewrite E. now apply IH.
    + now rewrite str_eqb_refl.
    + now rewrite str_eqb_refl.
Qed.

Lemma objOwn_insertIndex_other h : forall k n v j,
  k <> j -> objOwn (insertIndex h k n v) j = objOwn h j.
Proof.
  induction h as [|[k' v'] h IH]; intros k n v j Hkj; cbn [insertIndex].
  - cbn. now rewrite (str_eqb_neq _ _ Hkj).
  - destruct (arrayIndex k') as [n'|]; [destruct (n' <? n)|].
    + cbn [objOwn]. destruct (str_eqb k' j); [reflexivity | now apply IH].
    + cbn [objOwn]. now rewrite (str_eqb_neq _ _ Hkj).
    + cbn [objOwn]. now rewrite (str_eqb_neq _ _ Hkj).
Qed.

Lemma objOwn_last_same h : forall k v,
  objOwn h k = None -> objOwn (h ++ [(k, v)]) k = Some v.
Proof.
  induction h as [|[k' v'] h IH]; intros k v H; cbn [app objOwn].
  - now rewrite str_eqb_refl.
  - apply objOwn_cons_none in H as [E H]. rewrite E. now apply IH.
Qed.

Lemma objOwn_last_other h : forall k v j,
  k <> j -> objOwn (h ++ [(k, v)]) j = objOwn h j.
Proof.
  induction h as [|[k' v'] h IH]; intros k v j Hkj; cbn [app objOwn].
  - now rewrite (str_eqb_neq _ _ Hkj).
  - destruct (str_eqb k' j); [reflexivity | now apply IH].
Qed.

(** A record is stored under every key but [__proto__], which stores one
    only where the object has that name as an own property already. *)
Lemma objOwn_objSet_same h k v :
  objOwn h k <> None \/ k <> js "__proto__" -> objOwn (objSet h k v) k = Some v.
Proof.
  intros H. unfold objSet. destruct (objOwn h k) eqn:E.
  - apply objOwn_objReplace_same. congruence.
  - destruct H as [H|H]; [contradiction|].
    rewrite (str_eqb_neq _ _ H).
    destruct (arrayIndex k); [now apply objOwn_insertIndex_same | now apply objOwn_last_same].
Qed.

Lemma objOwn_objSet_other h k v j :
  k <> j -> objOwn (objSet h k v) j = objOwn h j.
Proof.
  intros H. unfold objSet. destruct (objOwn h k).
  - now apply objOwn_objReplace_other.
  - destruct (str_eqb k (js "__proto__")); [reflexivity|].
    destruct (arrayIndex k); [now apply objOwn_insertIndex_other | now apply objOwn_last_other].
Qed.

Lemma objSet_proto h v :
  objOwn h (js "__proto__") = None -> objSet h (js "__proto__") v = h.
Proof. intros H. unfold objSet. now rewrite H. Qed.


Lemma objOwn_objDelete_same h : forall k, objOwn (objDelete h k) k = None.
Proof.
  induction h as [|[k' v'] h IH]; intros k; cbn; [reflexivity|].
  destruct (str_eqb k' k) eqn:E; cbn; [apply IH|].
  rewrite E. apply IH.
Qed.

Lemma objOwn_objDelete_other h : forall k j,
  k <> j -> objOwn (objDelete h k) j = objOwn h j.
Proof.
  induction h as [|[k' v'] h IH]; intros k j Hkj; cbn; [reflexivity|].
  destruct (str_eqb k' k) eqn:E; cbn.
  - apply str_eqb_eq in E. subst k'.
    rewrite (str_eqb_neq _ _ Hkj). now apply IH.
  - destruct (str_eqb k' j); [reflexivity | now apply IH].
Qed.

(** ** Saving and loading *)

Lemma storeMessages_valid messages :
  Forall (fun m => validDate (timestamp m) = true) messages ->
  exists stored,
    storeMessages messages = Normal stored /\
    map loadMessage stored = map asStored messages.
Proof.
  induction 1 as [|m rest Hm _ IH].
  - exists []. split; reflexivity.
  - destruct IH as (stored & Hs & Hl).
    destruct m as [i r c [t|] s cf it]; cbn in Hm; [|discriminate].
    exists (storeMessage (mkMessage i r c (DateValue t) s cf it) (isoString t) :: stored).
    split.
    + cbn. rewrite Hs. reflexivity.
    + cbn [map]. rewrite Hl. f_equal.
      unfold loadMessage, storeMessage, asStored. cbn.
      now rewrite Date_roundtrip.
Qed.

Lemma getAllChatHistory_set ls h : getAllChatHistory (setChatHistory ls h) = h.
Proof. reflexivity. Qed.

Lemma loadSession_own sessionId session ls :
  objOwn (getAllChatHistory ls) sessionId = Some session ->
  loadSession sessionId ls = Normal (Some (map loadMessage (session_messages session))).
Proof. intros H. unfold loadSession, objGet. now rewrite H. Qed.

Lemma loadSession_none sessionId ls :
  objOwn (getAllChatHistory ls) sessionId = None ->
  isInherited sessionId = false ->
  loadSession sessionId ls = Normal None.
Proof. intros H Hi. unfold loadSession, objGet. now rewrite H, Hi. Qed.

Lemma loadSession_inherited sessionId ls :
  objOwn (getAllChatHistory ls) sessionId = None ->
  isInherited sessionId = true ->
  loadSession sessionId ls
  = Throw (ErrorObject (js "TypeError")
             (js "Cannot read properties of undefined (reading 'map')")).
Proof. intros H Hi. unfold loadSession, objGet. now rewrite H, Hi. Qed.

Lemma saveChatHistory_loadSession now sessionId messages ls :
  messages <> [] ->
  sessionId <> js "__proto__" ->
  Forall (fun m => validDate (timestamp m) = true) messages ->
  fst (saveChatHistory now sessionId messages ls) = Normal tt /\
  loadSession sessionId (snd (saveChatHistory now sessionId messages ls))
  = Normal (Some (map asStored messages)).
Proof.
  intros Hne Hid Hvalid.
  destruct (storeMessages_valid messages Hvalid) as (stored & Hs & Hl).
  unfold saveChatHistory.
  destruct messages as [|m rest]; [contradiction|].
  rewrite Hs. cbn [fst snd]. split; [reflexivity|].
  match goal with |- loadSession _ (setChatHistory _ (objSet ?h ?k ?v)) = _ =>
    rewrite (loadSession_own k v (setChatHistory ls (objSet h k v)))
  end.
  - cbn [session_messages]. now rewrite Hl.
  - rewrite getAllChatHistory_set. apply objOwn_objSet_same. now right.
Qed.

Lemma map_unchanged {A} (f : A -> A) (l : list A) :
  Forall (fun x => f x = x) l -> map f l = l.
Proof. induction 1 as [|x l Hx _ IH]; cbn; [reflexivity | now rewrite Hx, IH]. Qed.

(** C6 (as amended). Under a session id other than [__proto__], saving a
    non-empty list of messages whose timestamps hold a time value and
    loading the session back gives the list again, every field of every
    message as it was: the timestamp goes through its ISO string and back
    without loss, and the optional fields come back as JSON carries them,
    which is unchanged unless they hold a number that overflows (read back
    as [null]) or a negative zero (read back as [0]). *)
Theorem save_then_load_identity now sessionId messages ls :
  messages <> [] ->
  sessionId <> js "__proto__" ->
  Forall (fun m => validDate (timestamp m) = true) messages ->
  fst (saveChatHistory now sessionId messages ls) = Normal tt /\
  loadSession sessionId (snd (saveChatHistory now sessionId messages ls))
  = Normal (Some (map asStored messages)) /\
  map timestamp (map asStored messages) = map timestamp messages /\
  (Forall (fun m => asStored m = m) messages ->
   loadSession sessionId (snd (saveChatHistory now sessionId messages ls))
   = Normal (Some messages)).
Proof.
  intros Hne Hid Hvalid.
  destruct (saveChatHistory_loadSession now sessionId messages ls Hne Hid Hvalid) as [H1 H2].
  split; [exact H1|]. split; [exact H2|]. split.
  - rewrite map_map. reflexivity.
  - intros H. rewrite H2. now rewrite (map_unchanged _ _ H).
Qed.

Lemma save_then_load_identity_witness :
  fst (saveChatHistory 1764873000500 (js "session_1_abc") [sampleMessage] freshStorage)
  = Normal tt /\
  loadSession (js "session_1_abc")
    (snd (saveChatHistory 1764873000500 (js "session_1_abc") [sampleMessage] freshStorage))
  = Normal (Some (map asStored [sampleMessage])) /\
  map timestamp (map asStored [sampleMessage]) = map timestamp [sampleMessage] /\
  (Forall (fun m => asStored m = m) [sampleMessage] ->
   loadSession (js "session_1_abc")
     (snd (saveChatHistory 1764873000500 (js "session_1_abc") [sampleMessage] freshStorage))
   = Normal (Some [sampleMessage])).
Proof.
  apply (save_then_load_identity 1764873000500 (js "session_1_abc") [sampleMessage]
           freshStorage).
  - discriminate.
  - intros H. vm_compute in H. discriminate H.
  - constructor; [reflexivity | constructor].
Defined.

(** C6 (counterexample). Three non-empty saves that loading does not give
    back.  A message whose date holds no time value: the save throws a
    RangeError and writes nothing, and loading gives null.  The session id
    [__proto__]: the save completes and stores nothing, and loading throws a
    TypeError.  A source with the number [1e999]: the message comes back
    with [null] in its place. *)
Lemma save_then_load_differs :
  saveChatHistory 1764873000500 (js "session_1_abc") [undatedMessage] freshStorage
  = (Throw (ErrorObject (js "RangeError") (js "Invalid time value")), freshStorage) /\
  loadSession (js "session_1_abc") freshStorage = Normal None /\
  fst (saveChatHistory 1764873000500 (js "__proto__") [sampleMessage] freshStorage)
  = Normal tt /\
  getAllChatHistory
    (snd (saveChatHistory 1764873000500 (js "__proto__") [sampleMessage] freshStorage)) = [] /\
  loadSession (js "__proto__")
    (snd (saveChatHistory 1764873000500 (js "__proto__") [sampleMessage] freshStorage))
  = Throw (ErrorObject (js "TypeError")
             (js "Cannot read properties of undefined (reading 'map')")) /\
  option_map (map sources)
    match loadSession (js "session_1_abc")
            (snd (saveChatHistory 1764873000500 (js "session_1_abc") [overflowMessage]
                    freshStorage)) with
    | Normal loaded => loaded
    | Throw _ => None
    end
  = Some [Some (JArray [JObject [(js "score", JNull)]])].
Proof. repeat split; vm_compute; reflexivity. Qed.

Lemma storeMessages_length messages : forall stored,
  storeMessages messages = Normal stored -> List.length stored = List.length messages.
Proof.
  induction messages as [|m rest IH]; intros stored H; cbn in H.
  - now injection H as <-.
  - destruct (toISOString (timestamp m)); [|discriminate].
    destruct (storeMessages rest) as [stored'|]; [|discriminate].
    injection H as <-. cbn. f_equal. now apply IH.
Qed.

Lemma objOwn_objDelete_some h : forall k j v,
  objOwn (objDelete h k) j = Some v -> objOwn h j = Some v.
Proof.
  induction h as [|[k' v'] h IH]; intros k j v; cbn; [discriminate|].
  destruct (str_eqb k' k) eqn:E; cbn.
  - intros H. destruct (str_eqb k' j) eqn:E'; [|now apply IH in H].
    apply str_eqb_eq in E, E'. subst.
    pose proof (objOwn_objDelete_same h j) as X. unfold objDelete in X.
    rewrite X in H. discriminate.
  - destruct (str_eqb k' j); [auto | apply IH].
Qed.

Lemma objOwn_objSet_cases h k v j session :
  objOwn (objSet h k v) j = Some session -> session = v \/ objOwn h j = Some session.
Proof.
  intros H. destruct (list_eq_dec Z.eq_dec k j) as [->|Hne].
  - unfold objSet in H. destruct (objOwn h j) eqn:E.
    + rewrite objOwn_objReplace_same in H by congruence. left. congruence.
    + destruct (str_eqb j (js "__proto__")); [congruence|].
      destruct (arrayIndex j).
      * rewrite objOwn_insertIndex_same in H by exact E. left. congruence.
      * rewrite objOwn_last_same in H by exact E. left. congruence.
  - right. now rewrite objOwn_objSet_other in H.
Qed.

Lemma reachable_noEmptySession ls : reachable ls -> noEmptySession ls.
Proof.
  induction 1 as [ls Hfresh | now sessionId messages ls _ IH | sessionId ls _ IH];
    intros j session; unfold storedSession.
  - unfold getAllChatHistory. rewrite Hfresh. discriminate.
  - unfold saveChatHistory.
    destruct messages as [|m rest].
    + cbn [snd]. rewrite getAllChatHistory_set. intros H.
      apply objOwn_objDelete_some in H. now apply (IH j).
    + destruct (storeMessages (m :: rest)) as [stored|] eqn:Hs; cbn [snd].
      * rewrite getAllChatHistory_set. intros H.
        apply objOwn_objSet_cases in H as [->|H]; [|now apply (IH j)].
        cbn [session_messages]. apply storeMessages_length in Hs.
        destruct stored; discriminate.
      * apply (IH j).
  - unfold deleteSession. rewrite getAllChatHistory_set. intros H.
    apply objOwn_objDelete_some in H. now apply (IH j).
Qed.

(** C7 (as amended). Saving an empty message list does exactly what
    deleting the session does: no record is left under the id, and no store
    the service can reach holds a record without messages.  Loading the
    session afterwards gives null under every id that is not a name
    [Object.prototype] defines; under such a name it throws a TypeError. *)
Theorem save_empty_is_delete now sessionId ls :
  saveChatHistory now sessionId [] ls = (Normal tt, deleteSession sessionId ls) /\
  storedSession (snd (saveChatHistory now sessionId [] ls)) sessionId = None /\
  (isInherited sessionId = false ->
   loadSession sessionId (snd (saveChatHistory now sessionId [] ls)) = Normal None) /\
  (isInherited sessionId = true ->
   loadSession sessionId (snd (saveChatHistory now sessionId [] ls))
   = Throw (ErrorObject (js "TypeError")
              (js "Cannot read properties of undefined (reading 'map')"))) /\
  (reachable ls ->
   noEmptySession ls /\ noEmptySession (snd (saveChatHistory now sessionId [] ls))).
Proof.
  assert (H : objOwn (getAllChatHistory (snd (saveChatHistory now sessionId [] ls))) sessionId
              = None).
  { cbn [saveChatHistory snd]. rewrite getAllChatHistory_set. apply objOwn_objDelete_same. }
  split; [reflexivity|]. split; [exact H|]. split; [|split].
  - intros Hi. now apply loadSession_none.
  - intros Hi. now apply loadSession_inherited.
  - intros Hr. split; apply reachable_noEmptySession; [exact Hr|].
    now apply reachable_save.
Qed.

Lemma save_empty_is_delete_witness :
  reachable sampleStorage /\
  isInherited (js "session_1_abc") = false /\
  saveChatHistory 1764873002000 (js "session_1_abc") [] sampleStorage
  = (Normal tt, deleteSession (js "session_1_abc") sampleStorage) /\
  storedSession (snd (saveChatHistory 1764873002000 (js "session_1_abc") [] sampleStorage))
    (js "session_1_abc") = None /\
  loadSession (js "session_1_abc")
    (snd (saveChatHistory 1764873002000 (js "session_1_abc") [] sampleStorage))
  = Normal None /\
  noEmptySession sampleStorage /\
  noEmptySession (snd (saveChatHistory 1764873002000 (js "session_1_abc") [] sampleStorage)).
Proof.
  assert (R : reachable sampleStorage)
    by (apply reachable_save, reachable_fresh; reflexivity).
  split; [exact R|]. split; [reflexivity|].
  destruct (save_empty_is_delete 1764873002000 (js "session_1_abc") sampleStorage)
    as (H1 & H2 & H3 & _ & H5).
  split; [exact H1|]. split; [exact H2|]. split; [exact (H3 eq_refl)|]. exact (H5 R).
Defined.

(** C7 (counterexample). Under the id [constructor], which every object
    inherits, loading after the save of an empty list does not give null:
    the lookup finds the inherited function, and reading its messages
    throws. *)
Lemma load_of_inherited_name_throws :
  saveChatHistory 1764873002000 (js "constructor") [] sampleStorage
  = (Normal tt, deleteSession (js "constructor") sampleStorage) /\
  loadSession (js "constructor")
    (snd (saveChatHistory 1764873002000 (js "constructor") [] sampleStorage))
  = Throw (ErrorObject (js "TypeError")
             (js "Cannot read properties of undefined (reading 'map')")).
Proof. split; vm_compute; reflexivity. Qed.



(** ** The sidebar list *)

(** A sort whose comparator never finds a number leaves the array as it
    is. *)
Lemma sort_without_order {A} (cmp : A -> A -> option Z) (l : list A) :
  (forall x y, In x l -> In y l -> cmp x y = None) -> JSArray.sort cmp l = l.
Proof.
  induction l as [|x l IH]; intros H; [reflexivity|].
  cbn [JSArray.sort fold_right]. fold (JSArray.sort cmp l).
  rewrite IH by (intros a b Ha Hb; apply H; now right).
  destruct l as [|y l']; [reflexivity|].
  cbn [JSArray.insert]. unfold JSArray.comesFirst.
  now rewrite (H x y (or_introl eq_refl) (or_intror (or_introl eq_refl))).
Qed.

(** As long as no label of the list reads as a date (every session is less
    than a week old), the list is in the order of the store. *)
Lemma list_in_store_order now ls :
  Forall (fun session =>
            Date_parse (formatTimestamp now (session_timestamp session)) = None)
    (objValues (getAllChatHistory ls)) ->
  map chat_id (getChatHistoryList now ls)
  = map session_id (objValues (getAllChatHistory ls)).
Proof.
  intros H. unfold getChatHistoryList.
  rewrite sort_without_order.
  - rewrite map_map. reflexivity.
  - intros a b Ha Hb. apply in_map_iff in Hb as (session & <- & Hs).
    rewrite Forall_forall in H. specialize (H session Hs).
    unfold compareChats, Date_fromString. cbn [chat_timestamp]. now rewrite H.
Qed.

(** C3. Two sessions saved one second apart are listed in the order they
    were first saved, the older one first: the comparator reads the
    timestamps after they were turned into labels, finds no date in a label
    such as [Just now], and the sort leaves the entries where they were. *)
Theorem list_keeps_insertion_order :
  reachable twoSessions /\
  map chat_id (getChatHistoryList 1764873002000 twoSessions)
  = [js "session_a"; js "session_b"] /\
  map chat_timestamp (getChatHistoryList 1764873002000 twoSessions)
  = [js "Just now"; js "Just now"] /\
  lastActivity twoSessions (js "session_a") = Some 1764873000000 /\
  lastActivity twoSessions (js "session_b") = Some 1764873001000 /\
  sortedByLastActivity 1764873002000 twoSessions = false.
Proof.
  split.
  - apply reachable_save, reachable_save, reachable_fresh. reflexivity.
  - repeat split; vm_compute; reflexivity.
Qed.

(** ** Splitting a read into frames *)

Lemma split_aux_other c s cur :
  c <> 10 ->
  split_aux frameSeparator (c :: s) cur 0 = split_aux frameSeparator s (c :: cur) 0.
Proof.
  intros Hc. cbn [split_aux].
  change (startsWith (c :: s) frameSeparator) with ((10 =? c) && startsWith s [10]).
  destruct (Z.eqb_spec 10 c) as [E|_]; [congruence | reflexivity].
Qed.

Lemma split_aux_frame s : forall cur rest,
  ~ In 10 s ->
  split_aux frameSeparator (s ++ frameSeparator ++ rest) cur 0
  = (rev cur ++ s) :: split_aux frameSeparator rest [] 0.
Proof.
  induction s as [|c s IH]; intros cur rest Hs.
  - rewrite app_nil_r. reflexivity.
  - assert (Hc : c <> 10) by (intros ->; apply Hs; now left).
    assert (Hs' : ~ In 10 s) by (intros H; apply Hs; now right).
    cbn [app]. rewrite split_aux_other, IH by assumption.
    cbn [rev]. now rewrite <- app_assoc.
Qed.

Lemma js_data : js "data: " = [100; 97; 116; 97; 58; 32].
Proof. reflexivity. Qed.

Lemma split_frames payloads :
  Forall (fun p => ~ In 10 p) payloads ->
  split (framesText payloads) frameSeparator
  = map (fun p => js "data: " ++ p) payloads ++ [[]].
Proof.
  unfold split, framesText.
  induction 1 as [|p rest Hp _ IH]; [reflexivity|].
  cbn [map concat]. unfold frame at 1.
  rewrite <- !app_assoc, app_assoc.
  rewrite split_aux_frame.
  - cbn [rev app map]. now rewrite IH.
  - rewrite js_data. intros H. apply in_app_or in H as [H|H]; [|contradiction].
    cbn in H. intuition discriminate.
Qed.

Lemma no_line_feed p : existsb (Z.eqb 10) p = false -> ~ In 10 p.
Proof.
  intros H Hin.
  assert (E : existsb (Z.eqb 10) p = true)
    by (apply existsb_exists; exists 10; split; [exact Hin | apply Z.eqb_refl]).
  congruence.
Qed.

(** ** The effect of a chunk event *)

Lemma chunk_is_not_status s :
  str_eqb s (js "chunk") = true -> str_eqb s (js "status") = false.
Proof. intros H. apply str_eqb_eq in H. now subst. Qed.

Lemma updateMessage_timestamps aid f l :
  (forall m, timestamp (f m) = timestamp m) ->
  map timestamp (updateMessage aid f l) = map timestamp l.
Proof.
  intros Hf. unfold updateMessage. rewrite map_map. apply map_ext.
  intros m. destruct (str_eqb (id m) aid); [apply Hf | reflexivity].
Qed.

Lemma updateMessage_last aid f pre m :
  id m = aid ->
  updateMessage aid f (pre ++ [m]) = updateMessage aid f pre ++ [f m].
Proof.
  intros H. unfold updateMessage. rewrite map_app. cbn [map].
  now rewrite H, str_eqb_refl.
Qed.

Lemma fragmentsOf_app a b : fragmentsOf (a ++ b) = fragmentsOf a ++ fragmentsOf b.
Proof. unfold fragmentsOf. now rewrite flat_map_app. Qed.

Lemma fragmentsOf_length payloads :
  forallb isChunkPayload payloads = true ->
  List.length (fragmentsOf payloads) = List.length payloads.
Proof.
  induction payloads as [|p rest IH]; intros H; [reflexivity|].
  cbn [forallb] in H. apply andb_true_iff in H as [Hp Hrest].
  unfold isChunkPayload in Hp. apply andb_true_iff in Hp as [_ Hp].
  unfold fragmentsOf in *. cbn [flat_map].
  destruct (chunkFragment p); [|discriminate].
  cbn. f_equal. now apply IH.
Qed.

Lemma forallb_concat {A} (f : A -> bool) (ll : list (list A)) :
  forallb (forallb f) ll = true -> forallb f (concat ll) = true.
Proof.
  induction ll as [|l ll IH]; intros H; [reflexivity|].
  cbn [forallb] in H. apply andb_true_iff in H as [H1 H2].
  cbn [concat]. rewrite forallb_app, H1. now apply IH.
Qed.

Section Turn.

(** One turn: its clock and the id chosen for the answer. *)
Variable clk : Clock.
Variable aid : jsstring.

Lemma handleFrame_chunk payload fragment st tu :
  chunkFragment payload = Some fragment ->
  handleFrame clk aid payload st tu = (Normal tt, applyChunk clk aid (st, tu) fragment).
Proof.
  unfold chunkFragment, handleFrame, applyChunk.
  destruct (JSON.parse payload) as [data|]; [|discriminate].
  destruct (Get data (js "type")) as [type|]; [|discriminate].
  destruct (Get data (js "content")) as [[[]|]|]; try discriminate.
  destruct (strictEqualsString type (js "chunk")) eqn:E; [|discriminate].
  intros H. injection H as ->.
  assert (E' : strictEqualsString type (js "status") = false).
  { destruct type as [[]|]; try discriminate. cbn in *. now apply chunk_is_not_status. }
  rewrite E'. cbn [ToStringValue ToString].
  destruct (messageAdded tu); reflexivity.
Qed.

Lemma handleLine_chunk payload fragment acc :
  chunkFragment payload = Some fragment ->
  handleLine clk aid acc (js "data: " ++ payload) = applyChunk clk aid acc fragment.
Proof.
  intros H. destruct acc as [st tu]. unfold handleLine.
  rewrite js_data. cbn [app startsWith Z.eqb Pos.eqb andb slice_from skipn].
  now rewrite (handleFrame_chunk _ _ _ _ H).
Qed.

Lemma handleLine_chunks payloads : forall acc,
  forallb isChunkPayload payloads = true ->
  fold_left (handleLine clk aid) (map (fun p => js "data: " ++ p) payloads) acc
  = fold_left (applyChunk clk aid) (fragmentsOf payloads) acc.
Proof.
  induction payloads as [|p rest IH]; intros acc H; [reflexivity|].
  cbn [forallb] in H. apply andb_true_iff in H as [Hp Hrest].
  unfold isChunkPayload in Hp. apply andb_true_iff in Hp as [_ Hp].
  destruct (chunkFragment p) as [c|] eqn:E; [|discriminate].
  cbn [map fold_left]. unfold fragmentsOf. cbn [flat_map]. rewrite E.
  cbn [app fold_left]. rewrite (handleLine_chunk _ _ _ E).
  apply IH, Hrest.
Qed.

Lemma handleLine_empty acc : handleLine clk aid acc [] = acc.
Proof. destruct acc. reflexivity. Qed.

(** One read of whole chunk frames. *)
Lemma read_whole_frames payloads acc :
  forallb isChunkPayload payloads = true ->
  fold_left (handleLine clk aid) (split (framesText payloads) frameSeparator) acc
  = fold_left (applyChunk clk aid) (fragmentsOf payloads) acc.
Proof.
  intros H. rewrite split_frames.
  - rewrite fold_left_app, handleLine_chunks by exact H.
    cbn [fold_left]. apply handleLine_empty.
  - apply Forall_forall. intros p Hp.
    rewrite forallb_forall in H. specialize (H p Hp).
    unfold isChunkPayload in H. apply andb_true_iff in H as [H _].
    apply no_line_feed. now apply negb_true_iff in H.
Qed.

(** The whole body. *)
Lemma readLoop_whole_frames ending reads : forall payloadss st tu,
  map TextDecoder.decode reads = map framesText payloadss ->
  forallb (forallb isChunkPayload) payloadss = true ->
  readLoop clk aid (streamOf reads ending) st tu
  = (fold_left (applyChunk clk aid) (fragmentsOf (concat payloadss)) (st, tu), ending).
Proof.
  induction reads as [|value rest IH]; intros payloadss st tu Hd Hp.
  - destruct payloadss; [|discriminate]. cbn. now destruct ending.
  - destruct payloadss as [|payloads payloadss]; [discriminate|].
    cbn [map] in Hd. injection Hd as Hv Hrest.
    cbn [forallb] in Hp. apply andb_true_iff in Hp as [Hp Hps].
    cbn [streamOf readLoop concat]. rewrite Hv, read_whole_frames by exact Hp.
    rewrite fragmentsOf_app, fold_left_app.
    destruct (fold_left (applyChunk clk aid) (fragmentsOf payloads) (st, tu)) as [st' tu'].
    now apply IH.
Qed.

(** *** The state of the turn after some chunk events *)

(** The conversation before the answer, and the session of the turn. *)
Variable base : list Message.
Variable sid : jsstring.

Lemma applyChunk_turnState cs acc c :
  turnState base aid clk sid cs acc ->
  turnState base aid clk sid (cs ++ [c]) (applyChunk clk aid acc c).
Proof.
  destruct acc as [st tu]. unfold turnState, applyChunk. cbn [fst snd].
  intros (Hacc & Hsid & H).
  assert (Hcat : concat (cs ++ [c]) = concat cs ++ c)
    by (rewrite concat_app; cbn; now rewrite app_nil_r).
  destruct cs as [|c0 cs'].
  - destruct H as (Hadd & Hm). rewrite Hadd. cbn [negb fst snd app].
    rewrite Hacc. cbn [concat app messages sessionId accumulatedContent messageAdded setMessages].
    rewrite app_nil_r.
    split; [reflexivity|]. split; [exact Hsid|]. split; [reflexivity|].
    exists base. now rewrite Hm.
  - destruct H as (Hadd & pre & Hm & Hts). rewrite Hadd. cbn [negb fst snd].
    cbn [messages sessionId accumulatedContent messageAdded setMessages].
    rewrite Hacc, <- Hcat.
    split; [reflexivity|]. split; [exact Hsid|].
    change ((c0 :: cs') ++ [c]) with (c0 :: (cs' ++ [c])) at 2.
    cbv iota. split; [reflexivity|].
    exists (updateMessage aid (withContent (concat ((c0 :: cs') ++ [c]))) pre). split.
    + rewrite Hm, updateMessage_last by reflexivity. reflexivity.
    + rewrite updateMessage_timestamps by reflexivity. exact Hts.
Qed.

Lemma fold_applyChunk_turnState fs : forall cs acc,
  turnState base aid clk sid cs acc ->
  turnState base aid clk sid (cs ++ fs) (fold_left (applyChunk clk aid) fs acc).
Proof.
  induction fs as [|c fs IH]; intros cs acc H; cbn [fold_left].
  - now rewrite app_nil_r.
  - replace (cs ++ c :: fs) with ((cs ++ [c]) ++ fs) by now rewrite <- app_assoc.
    apply IH. now apply applyChunk_turnState.
Qed.

End Turn.

(** ** A whole turn *)

Lemma submit_accepted clk st w :
  truthy (trim (input st)) = true -> isThinking st = false ->
  exists st1 w1,
    submit clk st w = Some (st1, w1, assistantMessageId clk) /\
    messages st1 = messages st ++ [userMessage clk st] /\
    sessionId st1 = sessionId st /\
    isThinking st1 = true /\
    storage w1 = storage w /\
    List.length (requests w1) = S (List.length (requests w)).
Proof.
  intros Hin Hth. unfold submit. rewrite Hin, Hth. cbn [negb orb].
  eexists _, _. split; [reflexivity|].
  cbn [messages sessionId isThinking storage requests setMessages setInput
       setIsThinking setThinkingStatus setError].
  do 4 (split; [reflexivity|]). rewrite length_app. cbn [List.length]. lia.
Qed.

(** A turn whose reads carry whole chunk frames, at least one, and then
    end or fail: the answer is the last message, with the fragments in
    order and the notice of the failure if there was one. *)
Lemma complete_whole_frames env aid st1 status reads payloadss ending :
  response env = FetchResponse true status (Some (streamOf reads ending)) ->
  map TextDecoder.decode reads = map framesText payloadss ->
  forallb (forallb isChunkPayload) payloadss = true ->
  concat payloadss <> [] ->
  exists pre,
    messages (complete env aid st1)
    = pre ++ [assistantMessage aid (clock env)
                (concat (fragmentsOf (concat payloadss)) ++ failureNotice ending)] /\
    map timestamp pre = map timestamp (messages st1) /\
    sessionId (complete env aid st1) = sessionId st1.
Proof.
  intros Hresp Hdec Hchunks Hne.
  unfold complete, stream. rewrite Hresp. cbn [negb].
  rewrite (readLoop_whole_frames _ _ _ _ _ _ _ Hdec Hchunks).
  set (tu0 := {| accumulatedContent := []; turn_sources := Some (JArray []);
                 messageAdded := false |}).
  assert (H0 : turnState (messages st1) aid (clock env) (sessionId st1) [] (st1, tu0))
    by (repeat split).
  apply (fold_applyChunk_turnState _ _ _ _ (fragmentsOf (concat payloadss))) in H0.
  cbn [app] in H0.
  assert (Hlen := fragmentsOf_length _ (forallb_concat _ _ Hchunks)).
  destruct (fragmentsOf (concat payloadss)) as [|c cs] eqn:Hf.
  { destruct (concat payloadss); [contradiction | discriminate]. }
  destruct (fold_left _ (c :: cs) (st1, tu0)) as [st' tu'].
  destruct H0 as (Hacc & Hsid & Hadd & pre & Hm & Hts). cbn [fst snd] in *.
  destruct ending as [err|].
  - unfold handleError. rewrite Hadd. cbn [negb].
    cbn [messages sessionId setMessages setError setIsThinking setThinkingStatus].
    rewrite Hm, updateMessage_last by reflexivity.
    eexists. split; [reflexivity|]. split; [|exact Hsid].
    rewrite updateMessage_timestamps by reflexivity. exact Hts.
  - cbn [messages sessionId setIsThinking setThinkingStatus failureNotice].
    rewrite app_nil_r. exists pre. repeat split; assumption.
Qed.

(** ** C1: fragments and reads *)

(** C1 (counterexample). The frame delivered in one read gives the answer
    [Hi]; the same bytes delivered in two reads, cut inside the payload,
    give no answer at all: the first part does not parse, the second does
    not start with the marker, and nothing is kept from one read to the
    next. *)
Lemma split_frame_loses_chunk :
  firstn 26 hiFrame ++ skipn 26 hiFrame = hiFrame /\
  transcript (handleSend (answering [hiFrame] None) idleState freshWorld)
  = [(user, js "What is the leave policy?", None); (assistant, js "Hi", None)] /\
  transcript (handleSend (answering [firstn 26 hiFrame; skipn 26 hiFrame] None)
                idleState freshWorld)
  = [(user, js "What is the leave policy?", None)].
Proof. repeat split; vm_compute; reflexivity. Qed.

(** ** C2: sources before the first chunk *)

(** C2. With the [sources] event ahead of the first [chunk], the turn keeps
    the sources in its local variable and the answer is created without
    them; with the two events the other way round they are attached. *)
Theorem early_sources_are_dropped :
  transcript (handleSend (answering [sourcesFrame; helloFrame; doneFrame] None)
                idleState freshWorld)
  = [(user, js "What is the leave policy?", None); (assistant, js "Hello", undefined)] /\
  turn_sources
    (snd (fst (readLoop sampleClock (assistantMessageId sampleClock)
                 (streamOf [sourcesFrame; helloFrame; doneFrame] None)
                 idleState (mkTurn [] (Some (JArray [])) false))))
  = pdfSources /\
  transcript (handleSend (answering [helloFrame; sourcesFrame; doneFrame] None)
                idleState freshWorld)
  = [(user, js "What is the leave policy?", None); (assistant, js "Hello", pdfSources)].
Proof. repeat split; vm_compute; reflexivity. Qed.

(** ** C4: a stream that stops without [done] *)

Lemma Forall_timestamps (P : Date -> Prop) (l l' : list Message) :
  map timestamp l = map timestamp l' ->
  Forall (fun m => P (timestamp m)) l' -> Forall (fun m => P (timestamp m)) l.
Proof.
  revert l'. induction l as [|m l IH]; intros [|m' l'] H Hl'; try discriminate.
  - constructor.
  - cbn [map] in H. injection H as Hm Hl. inversion Hl' as [|? ? Hm' Hrest]; subst.
    constructor; [now rewrite Hm | now apply (IH l')].
Qed.

(** C4 (counterexample). The stream gives [chunk("Partial")] and ends,
    without [done] and without [error]: the turn finishes with the answer
    [Partial] as it stands, no notice appended and no error shown. *)
Lemma ended_stream_completes_silently :
  transcript (handleSend (answering partialReads None) idleState freshWorld)
  = [(user, js "What is the leave policy?", None); (assistant, js "Partial", None)] /\
  error (fst (handleSend (answering partialReads None) idleState freshWorld)) = None /\
  isThinking (fst (handleSend (answering partialReads None) idleState freshWorld)) = false.
Proof. repeat split; vm_compute; reflexivity. Qed.

(** ** C5: the [error] event *)

(** Whatever its message, an [error] event leaves the state and the local
    variables of the turn as they were. *)
Lemma handleLine_error clk aid payload acc :
  isErrorPayload payload = true ->
  handleLine clk aid acc (js "data: " ++ payload) = acc.
Proof.
  destruct acc as [st tu]. unfold isErrorPayload, handleLine.
  rewrite js_data. cbn [app startsWith Z.eqb Pos.eqb andb slice_from skipn].
  unfold handleFrame.
  destruct (JSON.parse payload) as [data|]; [|discriminate].
  destruct (Get data (js "type")) as [type|]; [|discriminate].
  intros E. destruct type as [[]|]; try discriminate.
  cbn [strictEqualsString] in *. apply str_eqb_eq in E. subst s.
  cbn [str_eqb js map list_ascii_of_string N_of_ascii Z.of_N N.add N.mul Pos.add Pos.mul
       N_of_digits Z.eqb Pos.eqb andb].
  destruct (Get data _) as [[message|]|]; try reflexivity.
  destruct (ToString message); reflexivity.
Qed.

(** C5. The [error] event throws inside the [try] that wraps the parsing of
    a frame, and the [catch] of that [try] only logs: an [error] event
    before any chunk leaves the conversation without an answer, one after a
    chunk leaves the partial answer without a notice, no error is shown, and
    the frames that follow are still applied. *)
Theorem error_event_is_swallowed :
  fst (handleFrame sampleClock (assistantMessageId sampleClock)
         (text "{'type':'error','message':'boom'}") idleState (mkTurn [] (Some (JArray [])) false))
  = Throw (ErrorObject (js "Error") (js "boom")) /\
  transcript (handleSend (answering [errorFrame] None) idleState freshWorld)
  = [(user, js "What is the leave policy?", None)] /\
  error (fst (handleSend (answering [errorFrame] None) idleState freshWorld)) = None /\
  transcript (handleSend (answering [partialFrame; errorFrame] None) idleState freshWorld)
  = [(user, js "What is the leave policy?", None); (assistant, js "Partial", None)] /\
  transcript (handleSend (answering [partialFrame; errorFrame; moreFrame] None)
                idleState freshWorld)
  = [(user, js "What is the leave policy?", None); (assistant, js "Partial and more", None)].
Proof. repeat split; vm_compute; reflexivity. Qed.

(** ** C10: the guard *)

Lemma trimStart_blank s : Forall (fun c => isWhiteSpace c = true) s -> trimStart s = [].
Proof. induction 1 as [|c s Hc _ IH]; cbn; [reflexivity | now rewrite Hc]. Qed.

(** C10. When the input is empty or holds white space only, [handleSend]
    changes nothing: the state, with its messages, is as it was, no request
    was sent and the store is untouched. *)
Theorem blank_input_is_ignored env st w :
  Forall (fun c => isWhiteSpace c = true) (input st) ->
  handleSend env st w = (st, w).
Proof.
  intros H. unfold handleSend, submit, trim.
  rewrite (trimStart_blank _ H). reflexivity.
Qed.

Lemma blank_input_is_ignored_witness :
  Forall (fun c => isWhiteSpace c = true) (input blankState) /\
  handleSend (answering helloReads None) blankState freshWorld = (blankState, freshWorld).
Proof.
  assert (H : Forall (fun c => isWhiteSpace c = true) (input blankState))
    by (repeat constructor).
  split; [exact H|].
  exact (blank_input_is_ignored (answering helloReads None) blankState freshWorld H).
Defined.

(** * Further properties of the store and of the component *)

(** ** Relative times *)

Lemma range_check (P : Z -> bool) (a : Z) (n : nat) :
  forallb P (map (fun i => a + Z.of_nat i) (seq 0 n)) = true ->
  forall z, a <= z < a + Z.of_nat n -> P z = true.
Proof.
  intros H z Hz. rewrite forallb_forall in H. apply H.
  apply in_map_iff. exists (Z.to_nat (z - a)). split; [lia|].
  apply in_seq. lia.
Qed.

(** The label of a stored timestamp depends on the elapsed time alone. *)
Lemma formatTimestamp_elapsed now t :
  validTime t = true ->
  formatTimestamp now (isoString t) =
  let diffMs := now - t in
  let diffMins := diffMs / 60000 in
  let diffHours := diffMs / 3600000 in
  let diffDays := diffMs / 86400000 in
  if diffMins <? 1 then js "Just now"
  else if diffMins <? 60 then
    Number_toString diffMins ++ js " min" ++ (if diffMins >? 1 then js "s" else []) ++ js " ago"
  else if diffHours <? 24 then
    Number_toString diffHours ++ js " hour" ++ (if diffHours >? 1 then js "s" else []) ++ js " ago"
  else if diffDays =? 1 then js "Yesterday"
  else if diffDays <? 7 then Number_toString diffDays ++ js " days ago"
  else toLocaleDateString (DateValue t).
Proof.
  intros Hv. unfold formatTimestamp. rewrite Date_roundtrip by exact Hv. reflexivity.
Qed.

(** X1. The label of a session saved at [t], read at [now]. *)
Theorem formatTimestamp_by_elapsed_time now t :
  validTime t = true ->
  (now - t < 60000 -> formatTimestamp now (isoString t) = js "Just now") /\
  (60000 <= now - t < 120000 -> formatTimestamp now (isoString t) = js "1 min ago") /\
  (120000 <= now - t < 3600000 ->
   formatTimestamp now (isoString t)
   = Number_toString ((now - t) / 60000) ++ js " mins ago") /\
  (3600000 <= now - t < 7200000 -> formatTimestamp now (isoString t) = js "1 hour ago") /\
  (7200000 <= now - t < 86400000 ->
   formatTimestamp now (isoString t)
   = Number_toString ((now - t) / 3600000) ++ js " hours ago") /\
  (86400000 <= now - t < 172800000 -> formatTimestamp now (isoString t) = js "Yesterday") /\
  (172800000 <= now - t < 604800000 ->
   formatTimestamp now (isoString t)
   = Number_toString ((now - t) / 86400000) ++ js " days ago") /\
  (604800000 <= now - t ->
   formatTimestamp now (isoString t) = toLocaleDateString (DateValue t)).
Proof.
  intros Hv. rewrite (formatTimestamp_elapsed now t Hv). cbv zeta.
  set (d := now - t).
  assert (Hm := Z.div_mod d 60000 ltac:(lia)).
  assert (Hm' := Z.mod_pos_bound d 60000 ltac:(lia)).
  assert (Hh := Z.div_mod d 3600000 ltac:(lia)).
  assert (Hh' := Z.mod_pos_bound d 3600000 ltac:(lia)).
  assert (Hd := Z.div_mod d 86400000 ltac:(lia)).
  assert (Hd' := Z.mod_pos_bound d 86400000 ltac:(lia)).
  repeat split; intros H.
  - destruct (Z.ltb_spec (d / 60000) 1); [reflexivity | lia].
  - assert (E : d / 60000 = 1) by lia. rewrite E. reflexivity.
  - destruct (Z.ltb_spec (d / 60000) 1); [lia|].
    destruct (Z.ltb_spec (d / 60000) 60); [|lia].
    destruct (Z.gtb_spec (d / 60000) 1); [reflexivity | lia].
  - assert (E : d / 3600000 = 1) by lia.
    destruct (Z.ltb_spec (d / 60000) 1); [lia|].
    destruct (Z.ltb_spec (d / 60000) 60); [lia|]. rewrite E. reflexivity.
  - destruct (Z.ltb_spec (d / 60000) 1); [lia|].
    destruct (Z.ltb_spec (d / 60000) 60); [lia|].
    destruct (Z.ltb_spec (d / 3600000) 24); [|lia].
    destruct (Z.gtb_spec (d / 3600000) 1); [reflexivity | lia].
  - assert (E : d / 86400000 = 1) by lia.
    destruct (Z.ltb_spec (d / 60000) 1); [lia|].
    destruct (Z.ltb_spec (d / 60000) 60); [lia|].
    destruct (Z.ltb_spec (d / 3600000) 24); [lia|]. rewrite E. reflexivity.
  - destruct (Z.ltb_spec (d / 60000) 1); [lia|].
    destruct (Z.ltb_spec (d / 60000) 60); [lia|].
    destruct (Z.ltb_spec (d / 3600000) 24); [lia|].
    destruct (Z.eqb_spec (d / 86400000) 1); [lia|].
    destruct (Z.ltb_spec (d / 86400000) 7); [reflexivity | lia].
  - destruct (Z.ltb_spec (d / 60000) 1); [lia|].
    destruct (Z.ltb_spec (d / 60000) 60); [lia|].
    destruct (Z.ltb_spec (d / 3600000) 24); [lia|].
    destruct (Z.eqb_spec (d / 86400000) 1); [lia|].
    destruct (Z.ltb_spec (d / 86400000) 7); [lia | reflexivity].
Qed.

Lemma formatTimestamp_by_elapsed_time_witness :
  formatTimestamp 1764873300123 (isoString 1764873000123) = js "5 mins ago".
Proof.
  assert (V : validTime 1764873000123 = true) by reflexivity.
  destruct (formatTimestamp_by_elapsed_time 1764873300123 1764873000123 V)
    as (_ & _ & H & _).
  exact (H ltac:(lia)).
Defined.

(** No label of a session less than a week old reads as a date. *)
Lemma recent_label_is_no_date now t :
  validTime t = true -> now - t < 604800000 ->
  Date_parse (formatTimestamp now (isoString t)) = None.
Proof.
  intros Hv Hrecent. rewrite (formatTimestamp_elapsed now t Hv). cbv zeta.
  set (d := now - t) in *.
  assert (Hm := Z.div_mod d 60000 ltac:(lia)).
  assert (Hm' := Z.mod_pos_bound d 60000 ltac:(lia)).
  assert (Hh := Z.div_mod d 3600000 ltac:(lia)).
  assert (Hh' := Z.mod_pos_bound d 3600000 ltac:(lia)).
  assert (Hd := Z.div_mod d 86400000 ltac:(lia)).
  assert (Hd' := Z.mod_pos_bound d 86400000 ltac:(lia)).
  assert (N : forall s, noDate s = true -> Date_parse s = None)
    by (intros s; unfold noDate; destruct (Date_parse s); [discriminate | reflexivity]).
  destruct (Z.ltb_spec (d / 60000) 1); [reflexivity|].
  destruct (Z.ltb_spec (d / 60000) 60).
  { apply N.
    apply (range_check
             (fun m => noDate (Number_toString m ++ js " min"
                               ++ (if m >? 1 then js "s" else []) ++ js " ago")) 1 59);
      [vm_compute; reflexivity | lia]. }
  destruct (Z.ltb_spec (d / 3600000) 24).
  { apply N.
    apply (range_check
             (fun m => noDate (Number_toString m ++ js " hour"
                               ++ (if m >? 1 then js "s" else []) ++ js " ago")) 1 23);
      [vm_compute; reflexivity | lia]. }
  destruct (Z.eqb_spec (d / 86400000) 1); [reflexivity|].
  destruct (Z.ltb_spec (d / 86400000) 7); [|lia].
  apply N.
  apply (range_check (fun m => noDate (Number_toString m ++ js " days ago")) 1 6);
    [vm_compute; reflexivity | lia].
Qed.

(** ** The sidebar list, in general *)

(** X2. As long as every stored session was last saved less than a week
    before [now], the list comes in the order of the store: the sort finds
    nothing to compare. *)
Theorem recent_sessions_listed_in_store_order now ls :
  Forall (savedWithin 604800000 now) (objValues (getAllChatHistory ls)) ->
  map chat_id (getChatHistoryList now ls) = map session_id (objValues (getAllChatHistory ls)).
Proof.
  intros H. apply list_in_store_order.
  eapply Forall_impl; [|exact H].
  intros session (t & -> & Hv & Hrecent). now apply recent_label_is_no_date.
Qed.

Lemma recent_sessions_listed_in_store_order_witness :
  map chat_id (getChatHistoryList 1764873002000 twoSessions)
  = map session_id (objValues (getAllChatHistory twoSessions)).
Proof.
  apply (recent_sessions_listed_in_store_order 1764873002000 twoSessions).
  constructor; [|constructor; [|constructor]].
  - exists 1764873000000. split; [reflexivity|]. split; [reflexivity | lia].
  - exists 1764873001000. split; [reflexivity|]. split; [reflexivity | lia].
Defined.

Lemma insert_permutation {A} (cmp : A -> A -> option Z) x l :
  Permutation (JSArray.insert cmp x l) (x :: l).
Proof.
  induction l as [|y l IH]; cbn [JSArray.insert]; [reflexivity|].
  destruct (JSArray.comesFirst cmp x y); [reflexivity|].
  rewrite IH. apply perm_swap.
Qed.

Lemma sort_permutation {A} (cmp : A -> A -> option Z) l :
  Permutation (JSArray.sort cmp l) l.
Proof.
  induction l as [|x l IH]; [reflexivity|].
  cbn [JSArray.sort fold_right]. fold (JSArray.sort cmp l).
  rewrite insert_permutation. now constructor.
Qed.

(** X3. Whatever the timestamps, the list holds one entry for each stored
    session, with its id, its title and its last message. *)
Theorem list_has_one_entry_per_session now ls :
  Permutation (map listedEntry (getChatHistoryList now ls))
    (map storedEntry (objValues (getAllChatHistory ls))).
Proof.
  unfold getChatHistoryList.
  rewrite sort_permutation, map_map. reflexivity.
Qed.

(** ** The stored object keeps its keys in order *)

Lemma objOwn_in h k : In k (map fst h) -> exists v, objOwn h k = Some v.
Proof.
  induction h as [|[k' v'] h IH]; cbn; [contradiction|].
  intros [->|H].
  - rewrite str_eqb_refl. eauto.
  - destruct (str_eqb k' k); eauto.
Qed.


Lemma objOwn_some_in h k v : objOwn h k = Some v -> In k (map fst h).
Proof.
  induction h as [|[k' v'] h IH]; cbn; [discriminate|].
  destruct (str_eqb k' k) eqn:E.
  - apply str_eqb_eq in E. now left.
  - intros H. right. now apply IH.
Qed.

Lemma objReplace_keys h k v : map fst (objReplace h k v) = map fst h.
Proof.
  induction h as [|[k' v'] h IH]; cbn [objReplace map fst]; [reflexivity|].
  destruct (str_eqb k' k) eqn:E; cbn [map fst].
  - apply str_eqb_eq in E. now subst.
  - now rewrite IH.
Qed.

Lemma insertIndex_keys h k n v :
  Permutation (map fst (insertIndex h k n v)) (k :: map fst h).
Proof.
  induction h as [|[k' v'] h IH]; cbn [insertIndex map fst]; [reflexivity|].
  destruct (arrayIndex k') as [n'|]; [destruct (n' <? n)|]; cbn [map fst];
    try reflexivity.
  rewrite IH. apply perm_swap.
Qed.

Lemma objSet_keys h k v :
  map fst (objSet h k v)
  = match objOwn h k with
    | Some _ => map fst h
    | None =>
        if str_eqb k (js "__proto__") then map fst h
        else match arrayIndex k with
             | Some n => map fst (insertIndex h k n v)
             | None => map fst h ++ [k]
             end
    end.
Proof.
  unfold objSet. destruct (objOwn h k); [apply objReplace_keys|].
  destruct (str_eqb k (js "__proto__")); [reflexivity|].
  destruct (arrayIndex k); [reflexivity|].
  rewrite map_app. reflexivity.
Qed.

Lemma existsb_str_in k l : existsb (str_eqb k) l = true <-> In k l.
Proof.
  rewrite existsb_exists. split.
  - intros (x & Hx & E). apply str_eqb_eq in E. now subst.
  - intros H. exists k. split; [exact H | apply str_eqb_refl].
Qed.

Lemma objDelete_keys h k :
  map fst (objDelete h k) = filter (fun j => negb (str_eqb j k)) (map fst h).
Proof.
  induction h as [|[k' v'] h IH]; cbn [objDelete filter map fst]; [reflexivity|].
  fold (objDelete h k). destruct (str_eqb k' k); cbn [negb map fst]; now rewrite IH.
Qed.

Lemma objSet_forall (P : jsstring * StoredSession -> Prop) h k v :
  Forall P h -> P (k, v) -> Forall P (objSet h k v).
Proof.
  intros Hh Hv. unfold objSet. destruct (objOwn h k).
  - induction Hh as [|[k' v'] h Hx Hh IH]; cbn [objReplace]; [constructor|].
    destruct (str_eqb k' k); constructor; auto.
  - destruct (str_eqb k (js "__proto__")); [exact Hh|].
    destruct (arrayIndex k) as [n|].
    + induction Hh as [|[k' v'] h Hx Hh IH]; cbn [insertIndex].
      * now repeat constructor.
      * destruct (arrayIndex k') as [n'|]; [destruct (n' <? n)|];
          repeat (constructor; auto).
    + apply Forall_app. split; [exact Hh | now repeat constructor].
Qed.

Lemma objDelete_forall (P : jsstring * StoredSession -> Prop) h k :
  Forall P h -> Forall P (objDelete h k).
Proof.
  unfold objDelete. rewrite !Forall_forall. intros H x Hx.
  apply filter_In in Hx as [Hx _]. auto.
Qed.

Lemma objSet_wellKeyed h k v :
  wellKeyed h -> session_id v = k -> wellKeyed (objSet h k v).
Proof.
  intros [Hnd Hid] Hv. split; [|now apply objSet_forall].
  rewrite objSet_keys. destruct (objOwn h k) eqn:E; [exact Hnd|].
  destruct (str_eqb k (js "__proto__")); [exact Hnd|].
  assert (Hk : ~ In k (map fst h)).
  { intros Hin. apply objOwn_in in Hin as (x & Hx). congruence. }
  destruct (arrayIndex k) as [n|].
  - eapply Permutation_NoDup; [symmetry; apply insertIndex_keys|].
    now constructor.
  - apply NoDup_app; [exact Hnd | repeat constructor; intros [] | ].
    intros x Hx [<-|[]]. contradiction.
Qed.

Lemma objDelete_wellKeyed h k : wellKeyed h -> wellKeyed (objDelete h k).
Proof.
  intros [Hnd Hid]. split.
  - rewrite objDelete_keys. now apply NoDup_filter.
  - now apply objDelete_forall.
Qed.

Lemma reachable_wellKeyed ls : reachable ls -> wellKeyed (getAllChatHistory ls).
Proof.
  induction 1 as [ls Hfresh | now sessionId messages ls _ IH | sessionId ls _ IH].
  - unfold getAllChatHistory. rewrite Hfresh. split; constructor.
  - unfold saveChatHistory. destruct messages as [|m rest].
    + cbn [snd]. rewrite getAllChatHistory_set. now apply objDelete_wellKeyed.
    + destruct (storeMessages (m :: rest)); cbn [snd]; [|exact IH].
      rewrite getAllChatHistory_set. now apply objSet_wellKeyed.
  - unfold deleteSession. rewrite getAllChatHistory_set. now apply objDelete_wellKeyed.
Qed.

(** X4. In every store the service can reach, each entry of the list opens:
    [loadSession] of its id gives a conversation, never empty, and no
    session is listed twice. *)
Theorem listed_sessions_load now ls :
  reachable ls ->
  NoDup (map chat_id (getChatHistoryList now ls)) /\
  forall chat, In chat (getChatHistoryList now ls) ->
    exists messages,
      loadSession (chat_id chat) ls = Normal (Some messages) /\ messages <> [].
Proof.
  intros R. destruct (reachable_wellKeyed ls R) as [Hnd Hid].
  assert (P : Permutation (map chat_id (getChatHistoryList now ls))
                (map fst (getAllChatHistory ls))).
  { unfold getChatHistoryList. rewrite sort_permutation, map_map. unfold objValues.
    rewrite map_map. cbn [chat_id].
    rewrite (map_ext_in _ fst); [reflexivity|].
    intros kv Hkv. rewrite Forall_forall in Hid. now apply Hid. }
  split.
  - eapply Permutation_NoDup; [symmetry; exact P | exact Hnd].
  - intros chat Hin.
    assert (K : In (chat_id chat) (map fst (getAllChatHistory ls)))
      by (eapply Permutation_in; [exact P | now apply in_map]).
    destruct (objOwn_in _ _ K) as (session & Hs).
    rewrite (loadSession_own _ _ _ Hs). eexists. split; [reflexivity|].
    pose proof (reachable_noEmptySession ls R (chat_id chat) session Hs) as Hne.
    destruct (session_messages session); [contradiction | discriminate].
Qed.

Lemma listed_sessions_load_witness :
  NoDup (map chat_id (getChatHistoryList 1764873002000 twoSessions)) /\
  forall chat, In chat (getChatHistoryList 1764873002000 twoSessions) ->
    exists messages,
      loadSession (chat_id chat) twoSessions = Normal (Some messages) /\ messages <> [].
Proof.
  apply (listed_sessions_load 1764873002000 twoSessions).
  apply reachable_save, reachable_save, reachable_fresh. reflexivity.
Defined.

(** ** What a save writes *)

Lemma last_some {A} (l : list A) (x : A) :
  last (map Some (l ++ [x])) None = Some x.
Proof.
  induction l as [|y l IH]; [reflexivity|].
  cbn [app map]. rewrite <- IH. cbn [last].
  destruct (map Some (l ++ [x])) eqn:E; [|reflexivity].
  destruct l; discriminate.
Qed.

Lemma sessionTitle_length messages : (List.length (sessionTitle messages) <= 53)%nat.
Proof.
  unfold sessionTitle, slice_to.
  destruct (find _ messages) as [q|];
    [|change (List.length (js "New Chat")) with 8%nat; lia].
  rewrite length_app, length_firstn.
  destruct (50 <? _); [change (List.length (js "...")) with 3%nat|]; cbn [List.length]; lia.
Qed.

(** X5. A save that completes writes, under the id it is given unless that
    is [__proto__], a record with that id, the instant of the save, the
    content of the last message, and a title of at most 53 code units: the
    content of the first user message, cut after 50 code units and then
    marked with three dots, or the placeholder when no message is the
    user's. *)
Theorem save_writes_title_and_last_message now sessionId pre m ls :
  sessionId <> js "__proto__" ->
  Forall (fun m => validDate (timestamp m) = true) (pre ++ [m]) ->
  exists session,
    storedSession (snd (saveChatHistory now sessionId (pre ++ [m]) ls)) sessionId
    = Some session /\
    session_id session = sessionId /\
    session_timestamp session = isoString now /\
    session_lastMessage session = Some (content m) /\
    List.length (session_messages session) = List.length (pre ++ [m]) /\
    (List.length (session_title session) <= 53)%nat /\
    match find (fun m => Role_eqb (role m) user) (pre ++ [m]) with
    | Some q =>
        session_title session =
        if (Z.of_nat (List.length (content q)) <=? 50) then content q
        else firstn 50 (content q) ++ js "..."
    | None => session_title session = js "New Chat"
    end.
Proof.
  intros Hid Hvalid.
  destruct (storeMessages_valid _ Hvalid) as (stored & Hs & Hl).
  unfold saveChatHistory, storedSession.
  destruct (pre ++ [m]) as [|m0 rest] eqn:E; [destruct pre; discriminate|].
  rewrite Hs. cbn [snd]. rewrite getAllChatHistory_set.
  rewrite objOwn_objSet_same by now right.
  eexists. split; [reflexivity|]. cbn [session_id session_timestamp session_lastMessage
    session_messages session_title].
  split; [reflexivity|]. split; [reflexivity|]. split.
  { rewrite <- E, last_some. reflexivity. }
  split.
  { apply (f_equal (@List.length _)) in Hl. now rewrite !length_map in Hl. }
  split; [apply sessionTitle_length|].
  unfold sessionTitle, slice_to.
  destruct (find _ (m0 :: rest)) as [q|]; [|reflexivity].
  destruct (Z.ltb_spec 50 (Z.of_nat (List.length (content q))));
    destruct (Z.leb_spec (Z.of_nat (List.length (content q))) 50); try lia.
  - reflexivity.
  - rewrite firstn_all2 by lia. apply app_nil_r.
Qed.

Lemma save_writes_title_and_last_message_witness :
  exists session,
    storedSession sampleStorage (js "session_1_abc") = Some session /\
    session_title session = js "What is the leave policy?" /\
    session_lastMessage session = Some (js "What is the leave policy?").
Proof.
  destruct (save_writes_title_and_last_message 1764873000500 (js "session_1_abc") []
              sampleMessage freshStorage)
    as (session & H1 & _ & _ & H4 & _ & _ & H7).
  - intros H. vm_compute in H. discriminate H.
  - constructor; [reflexivity | constructor].
  - exists session. split; [exact H1|]. split; [exact H7 | exact H4].
Defined.




Example save_under_array_indices :
  sessionOrder
    (snd (saveChatHistory 1764873009003 (js "0") [sampleMessage]
       (snd (saveChatHistory 1764873009002 (js "a") [sampleMessage]
          (snd (saveChatHistory 1764873009001 (js "1") [sampleMessage]
             (snd (saveChatHistory 1764873009000 (js "b") [sampleMessage]
                     freshStorage))))))))
  = [js "0"; js "1"; js "b"; js "a"].
Proof. vm_compute. reflexivity. Qed.

(** ** Deleting *)





(** ** The pointer to the current session *)

Lemma generateSessionId_truthy now random : truthy (generateSessionId now random) = true.
Proof. reflexivity. Qed.

(** X8. [getCurrentSessionId] always returns a non-empty id, leaves it in the
    store, and returns the same id on every later call, whatever the clock
    and the random source give by then; the chat history is not touched. *)
Theorem current_session_id_is_stable now random now' random' ls :
  let r := getCurrentSessionId now random ls in
  truthy (fst r) = true /\
  CURRENT_SESSION (snd r) = Some (fst r) /\
  getCurrentSessionId now' random' (snd r) = r /\
  CHAT_HISTORY (snd r) = CHAT_HISTORY ls.
Proof.
  unfold getCurrentSessionId.
  destruct (CURRENT_SESSION ls) as [sid|] eqn:E.
  - destruct (truthy sid) eqn:T; cbn [fst snd].
    + rewrite E, T. repeat split; assumption.
    + cbn [CURRENT_SESSION CHAT_HISTORY setCurrentSession].
      rewrite generateSessionId_truthy. repeat split.
  - cbn [fst snd CURRENT_SESSION CHAT_HISTORY setCurrentSession].
    rewrite generateSessionId_truthy. repeat split.
Qed.

(** X9. After [createNewSession] the current session is the new one:
    [getCurrentSessionId] returns the id it made and changes nothing, and
    the chat history is as before. *)
Theorem new_session_becomes_current now random now' random' ls :
  let r := createNewSession now random ls in
  fst r = generateSessionId now random /\
  getCurrentSessionId now' random' (snd r) = r /\
  getAllChatHistory (snd r) = getAllChatHistory ls /\
  auth_token (snd r) = auth_token ls.
Proof.
  unfold createNewSession, getCurrentSessionId. cbn [fst snd CURRENT_SESSION setCurrentSession].
  rewrite generateSessionId_truthy. repeat split.
Qed.

(** ** Clearing the store *)

Lemma generateSessionId_ordinary now random :
  isInherited (generateSessionId now random) = false /\
  generateSessionId now random <> js "__proto__" /\
  arrayIndex (generateSessionId now random) = None.
Proof. split; [reflexivity|]. split; [discriminate | reflexivity]. Qed.

(** X10. [clearAll] removes the chats, the pointer to the current session, the
    API key and the settings, and nothing else: no record is left, loading a
    session gives null (or throws, under a name every object inherits) and
    the list is empty, so that the chat component mounts on a new session
    without messages; the token and the user record of the login are still
    there, so that the provider mounts in the state it would have mounted
    in before. *)
Theorem clearAll_keeps_the_login now nowId random sessionId bs :
  storedSession (service_items (clearAll bs)) sessionId = None /\
  loadSession sessionId (service_items (clearAll bs))
  = (if isInherited sessionId
     then Throw (ErrorObject (js "TypeError")
                   (js "Cannot read properties of undefined (reading 'map')"))
     else Normal None) /\
  getChatHistoryList now (service_items (clearAll bs)) = [] /\
  getApiKey (clearAll bs) = None /\
  SETTINGS (clearAll bs) = None /\
  auth_token (service_items (clearAll bs)) = auth_token (service_items bs) /\
  auth_user (clearAll bs) = auth_user bs /\
  fst (mountAuth (clearAll bs)) = fst (mountAuth bs) /\
  fst (initialize now nowId random mountedState mountedSidebar (service_items (clearAll bs)))
  = Normal tt /\
  fst (snd (initialize now nowId random mountedState mountedSidebar
              (service_items (clearAll bs))))
  = ({| messages := []; input := []; isThinking := false;
        thinkingStatus := Some (JString []);
        sessionId := generateSessionId nowId random; error := None |},
     {| sidebarOpen := false; chatHistory := [] |}).
Proof.
  split; [reflexivity|]. split.
  { unfold loadSession, objGet, clearAll, getAllChatHistory.
    cbn [service_items CHAT_HISTORY objOwn].
    destruct (isInherited sessionId); reflexivity. }
  do 5 (split; [reflexivity|]). split; [|split; reflexivity].
  unfold mountAuth, loadFromStorage, clearAll.
  cbn [browser service_items auth_token auth_user].
  destruct (auth_token (service_items bs)) as [token|]; [|reflexivity].
  destruct (auth_user bs) as [userStr|]; [|reflexivity].
  destruct (truthy token && truthy userStr); [|reflexivity].
  destruct (JSON.parse userStr); reflexivity.
Qed.

(** ** Events *)

Lemma handleLine_event clk aid payload acc :
  handleLine clk aid acc (js "data: " ++ payload)
  = applyEvent clk aid acc (decodeEvent payload).
Proof.
  destruct acc as [st tu]. unfold handleLine.
  rewrite js_data. cbn [app startsWith Z.eqb Pos.eqb andb slice_from skipn].
  unfold handleFrame, decodeEvent.
  destruct (JSON.parse payload) as [data|]; [|reflexivity].
  destruct (Get data (js "type")) as [type|]; [|reflexivity].
  destruct (strictEqualsString type (js "status")).
  { destruct (Get data (js "message")); reflexivity. }
  destruct (strictEqualsString type (js "chunk")).
  { destruct (Get data (js "content")) as [fragment|]; [|reflexivity].
    destruct (ToStringValue fragment); [|reflexivity].
    cbn [applyEvent applyChunk]. unfold assistantMessage.
    destruct (messageAdded tu); reflexivity. }
  destruct (strictEqualsString type (js "sources")).
  { destruct (Get data (js "sources")); [|reflexivity].
    cbn [applyEvent fst snd]. destruct (messageAdded tu); reflexivity. }
  destruct (strictEqualsString type (js "done")); [reflexivity|].
  destruct (strictEqualsString type (js "error")); [|reflexivity].
  destruct (Get data (js "message")) as [[message|]|]; try reflexivity.
  destruct (ToString message); reflexivity.
Qed.

Lemma handleLine_unmarked clk aid line acc :
  startsWith line (js "data: ") = false -> handleLine clk aid acc line = acc.
Proof. intros H. destruct acc. unfold handleLine. now rewrite H. Qed.

Lemma handleLine_events clk aid payloads : forall acc,
  fold_left (handleLine clk aid) (map (fun p => js "data: " ++ p) payloads) acc
  = fold_left (applyEvent clk aid) (map decodeEvent payloads) acc.
Proof.
  induction payloads as [|p rest IH]; intros acc; [reflexivity|].
  cbn [map fold_left]. rewrite handleLine_event. apply IH.
Qed.

Lemma oneLine_no_line_feed payloads :
  forallb oneLine payloads = true -> Forall (fun p => ~ In 10 p) payloads.
Proof.
  intros H. apply Forall_forall. intros p Hp.
  rewrite forallb_forall in H. specialize (H p Hp).
  unfold oneLine in H. apply negb_true_iff in H. now apply no_line_feed.
Qed.

Lemma read_events clk aid payloads acc :
  forallb oneLine payloads = true ->
  fold_left (handleLine clk aid) (split (framesText payloads) frameSeparator) acc
  = fold_left (applyEvent clk aid) (map decodeEvent payloads) acc.
Proof.
  intros H. rewrite split_frames by now apply oneLine_no_line_feed.
  rewrite fold_left_app, handleLine_events. cbn [fold_left].
  destruct (fold_left _ _ acc). reflexivity.
Qed.

Lemma forallb_app_concat {A} (f : A -> bool) (l : list A) (ll : list (list A)) :
  forallb f (concat (l :: ll)) = forallb f l && forallb f (concat ll).
Proof. cbn [concat]. apply forallb_app. Qed.

Lemma readLoop_events clk aid ending reads : forall payloadss st tu,
  map TextDecoder.decode reads = map framesText payloadss ->
  forallb oneLine (concat payloadss) = true ->
  readLoop clk aid (streamOf reads ending) st tu
  = (fold_left (applyEvent clk aid) (map decodeEvent (concat payloadss)) (st, tu), ending).
Proof.
  induction reads as [|value rest IH]; intros payloadss st tu Hd Hp.
  - destruct payloadss; [|discriminate]. cbn. now destruct ending.
  - destruct payloadss as [|payloads payloadss]; [discriminate|].
    cbn [map] in Hd. injection Hd as Hv Hrest.
    rewrite forallb_app_concat in Hp. apply andb_true_iff in Hp as [Hp Hps].
    cbn [streamOf readLoop concat]. rewrite Hv, read_events by exact Hp.
    rewrite map_app, fold_left_app.
    destruct (fold_left (applyEvent clk aid) (map decodeEvent payloads) (st, tu)) as [st' tu'].
    now apply IH.
Qed.

(** ** What every turn keeps *)

Lemma updateMessage_length aid f l :
  List.length (updateMessage aid f l) = List.length l.
Proof. unfold updateMessage. apply length_map. Qed.

Lemma updateMessage_fresh aid f l :
  Forall (fun m => id m <> aid) l -> updateMessage aid f l = l.
Proof.
  induction 1 as [|m l Hm _ IH]; [reflexivity|].
  unfold updateMessage in *. cbn [map]. rewrite IH.
  now rewrite (str_eqb_neq _ _ Hm).
Qed.

Lemma applyEvent_fieldsKept clk aid st1 acc ev :
  fieldsKept st1 acc -> fieldsKept st1 (applyEvent clk aid acc ev).
Proof.
  destruct acc as [st tu]. unfold fieldsKept. cbn [fst snd].
  intros (Hi & Hs & He & Hl).
  destruct ev as [[message|fragment|srcs| |]|]; cbn [applyEvent applyChunk fst snd];
    try (repeat split; assumption).
  - destruct (messageAdded tu) eqn:E; cbn [negb fst snd messages input sessionId error
      setMessages messageAdded]; repeat split; try assumption.
    + rewrite updateMessage_length. exact Hl.
    + rewrite length_app. cbn [List.length]. lia.
  - destruct (messageAdded tu) eqn:E; cbn [fst snd messages input sessionId error
      setMessages messageAdded]; repeat split; try assumption.
    rewrite updateMessage_length. exact Hl.
Qed.

Lemma startsWith_prefix p : forall s,
  startsWith s p = true -> s = p ++ skipn (List.length p) s.
Proof.
  induction p as [|c p IH]; intros s H; [reflexivity|].
  destruct s as [|d s]; cbn [startsWith] in H; [discriminate|].
  apply andb_true_iff in H as [Hc H]. apply Z.eqb_eq in Hc. subst d.
  cbn [List.length skipn app]. f_equal. now apply IH.
Qed.

Lemma marked_line line :
  startsWith line (js "data: ") = true -> line = js "data: " ++ slice_from 6 line.
Proof. intros H. exact (startsWith_prefix _ _ H). Qed.

(** Every line is skipped or read as an event. *)
Lemma handleLine_cases clk aid acc line :
  handleLine clk aid acc line = acc \/
  exists ev, handleLine clk aid acc line = applyEvent clk aid acc ev.
Proof.
  destruct (startsWith line (js "data: ")) eqn:E.
  - right. rewrite (marked_line _ E), handleLine_event. eauto.
  - left. now apply handleLine_unmarked.
Qed.

Lemma handleLine_fieldsKept clk aid st1 acc line :
  fieldsKept st1 acc -> fieldsKept st1 (handleLine clk aid acc line).
Proof.
  intros H. destruct (handleLine_cases clk aid acc line) as [-> | [ev ->]];
    [exact H | now apply applyEvent_fieldsKept].
Qed.

Lemma fold_handleLine_invariant clk aid (P : ChatState * Turn -> Prop) :
  (forall acc line, P acc -> P (handleLine clk aid acc line)) ->
  forall lines acc, P acc -> P (fold_left (handleLine clk aid) lines acc).
Proof.
  intros Hstep. induction lines as [|line rest IH]; intros acc H; [exact H|].
  cbn [fold_left]. apply IH, Hstep, H.
Qed.

Lemma readLoop_invariant clk aid (P : ChatState * Turn -> Prop) :
  (forall acc line, P acc -> P (handleLine clk aid acc line)) ->
  forall reader st tu, P (st, tu) -> P (fst (readLoop clk aid reader st tu)).
Proof.
  intros Hstep. induction reader as [|e|value rest IH]; intros st tu H;
    cbn [readLoop fst]; try exact H.
  pose proof (fold_handleLine_invariant clk aid P Hstep
                (split (TextDecoder.decode value) frameSeparator) (st, tu) H) as H'.
  destruct (fold_left _ _ (st, tu)) as [st' tu']. now apply IH.
Qed.

Lemma stream_invariant env aid (P : ChatState * Turn -> Prop) st :
  (forall acc line, P acc -> P (handleLine (clock env) aid acc line)) ->
  P (st, {| accumulatedContent := []; turn_sources := Some (JArray []);
            messageAdded := false |}) ->
  P (fst (stream env aid st)).
Proof.
  intros Hstep H. unfold stream.
  destruct (response env) as [e|ok status body]; [exact H|].
  destruct ok; cbn [negb]; [|exact H].
  destruct body as [reader|]; [|exact H].
  now apply readLoop_invariant.
Qed.

Lemma submit_submitted clk st w :
  truthy (trim (input st)) = true -> isThinking st = false ->
  submit clk st w
  = Some (submitted clk st,
          {| storage := storage w; requests := requests w ++ [requestOf st w] |},
          assistantMessageId clk).
Proof. intros Hin Hth. unfold submit. now rewrite Hin, Hth. Qed.

Lemma handleError_fields clk aid err st tu :
  input (handleError clk aid err st tu) = input st /\
  sessionId (handleError clk aid err st tu) = sessionId st /\
  error (handleError clk aid err st tu) = Some (errorText err) /\
  List.length (messages (handleError clk aid err st tu))
  = (List.length (messages st) + (if messageAdded tu then 0 else 1))%nat.
Proof.
  unfold handleError.
  destruct (messageAdded tu);
    cbn [negb input sessionId error messages setMessages setError]; repeat split.
  - rewrite updateMessage_length. lia.
  - rewrite length_app. reflexivity.
Qed.

(** X11. Whatever the network does, a turn that was accepted comes to its
    end: the component is idle again with the input cleared, it shows the
    same session, one request went out with the text typed, the session id
    and the token of the store, and the conversation grew by the question
    and at most one message more.  Sending again without typing does
    nothing. *)
Theorem every_turn_ends_idle env st w :
  truthy (trim (input st)) = true -> isThinking st = false ->
  let r := handleSend env st w in
  isThinking (fst r) = false /\
  thinkingStatus (fst r) = Some (JString []) /\
  input (fst r) = [] /\
  sessionId (fst r) = sessionId st /\
  (List.length (messages (fst r)) = S (List.length (messages st)) \/
   List.length (messages (fst r)) = S (S (List.length (messages st)))) /\
  snd r = {| storage := storage w; requests := requests w ++ [requestOf st w] |} /\
  forall env', handleSend env' (fst r) (snd r) = r.
Proof.
  intros Hin Hth. unfold handleSend at 1. rewrite submit_submitted by assumption.
  cbv zeta. cbn [fst snd].
  set (aid := assistantMessageId (clock env)).
  set (st1 := submitted (clock env) st).
  assert (Hk : fieldsKept st1 (fst (stream env aid st1))).
  { apply stream_invariant.
    - intros acc line. apply handleLine_fieldsKept.
    - unfold fieldsKept. cbn [fst snd messageAdded]. repeat split. lia. }
  assert (H : isThinking (complete env aid st1) = false /\
              thinkingStatus (complete env aid st1) = Some (JString []) /\
              input (complete env aid st1) = [] /\
              sessionId (complete env aid st1) = sessionId st /\
              (List.length (messages (complete env aid st1)) = S (List.length (messages st)) \/
               List.length (messages (complete env aid st1))
               = S (S (List.length (messages st))))).
  { unfold complete.
    destruct (stream env aid st1) as [[st2 tu2] [err|]];
      destruct Hk as (Hi & Hs & He & Hl); cbn [fst snd] in *;
      cbn [isThinking thinkingStatus input sessionId messages setThinkingStatus setIsThinking].
    - destruct (handleError_fields (clock env) aid err st2 tu2) as (Hi' & Hs' & _ & Hl').
      rewrite Hi', Hs', Hl', Hi, Hs, Hl.
      subst st1. cbn [submitted input sessionId messages]. rewrite length_app.
      cbn [List.length]. repeat split. destruct (messageAdded tu2); [right | right]; lia.
    - rewrite Hi, Hs, Hl. subst st1. cbn [submitted input sessionId messages].
      rewrite length_app. cbn [List.length]. repeat split.
      destruct (messageAdded tu2); [right | left]; lia. }
  destruct H as (H1 & H2 & H3 & H4 & H5).
  repeat split; try assumption.
  intros env'. unfold handleSend, submit. rewrite H3. reflexivity.
Qed.

Lemma every_turn_ends_idle_witness :
  let r := handleSend (answering [] (Some networkError)) idleState freshWorld in
  isThinking (fst r) = false /\
  thinkingStatus (fst r) = Some (JString []) /\
  input (fst r) = [] /\
  sessionId (fst r) = sessionId idleState /\
  (List.length (messages (fst r)) = S (List.length (messages idleState)) \/
   List.length (messages (fst r)) = S (S (List.length (messages idleState)))) /\
  snd r = {| storage := storage freshWorld;
             requests := requests freshWorld ++ [requestOf idleState freshWorld] |} /\
  forall env', handleSend env' (fst r) (snd r) = r.
Proof.
  apply (every_turn_ends_idle (answering [] (Some networkError)) idleState freshWorld);
    reflexivity.
Defined.

(** ** The conversation around the answer *)

Lemma applyEvent_conversationKept clk aid base acc ev :
  Forall (fun m => id m <> aid) base ->
  conversationKept base aid acc -> conversationKept base aid (applyEvent clk aid acc ev).
Proof.
  intros Hfresh. destruct acc as [st tu]. unfold conversationKept. cbn [fst snd].
  intros (tail & Hm & Ht).
  destruct ev as [[message|fragment|srcs| |]|]; cbn [applyEvent applyChunk fst snd];
    try (exists tail; split; assumption).
  - destruct (messageAdded tu) eqn:E; cbn [negb fst snd messages setMessages messageAdded].
    + destruct Ht as (m & -> & Hid & Hrole). rewrite Hm.
      rewrite (updateMessage_last _ _ _ _ Hid), updateMessage_fresh by exact Hfresh.
      eexists. split; [reflexivity|]. eexists. split; [reflexivity|].
      split; assumption.
    + subst tail. rewrite Hm, app_nil_r.
      eexists. split; [reflexivity|]. eexists. split; [reflexivity|].
      repeat split.
  - destruct (messageAdded tu) eqn:E; cbn [fst snd messages setMessages messageAdded].
    + destruct Ht as (m & -> & Hid & Hrole). rewrite Hm.
      rewrite (updateMessage_last _ _ _ _ Hid), updateMessage_fresh by exact Hfresh.
      eexists. split; [reflexivity|]. eexists. split; [reflexivity|].
      split; assumption.
    + exists tail. split; assumption.
Qed.

Lemma handleLine_conversationKept clk aid base acc line :
  Forall (fun m => id m <> aid) base ->
  conversationKept base aid acc -> conversationKept base aid (handleLine clk aid acc line).
Proof.
  intros Hfresh H. destruct (handleLine_cases clk aid acc line) as [-> | [ev ->]];
    [exact H | now apply applyEvent_conversationKept].
Qed.

Lemma complete_conversation env aid st1 :
  Forall (fun m => id m <> aid) (messages st1) ->
  exists tail,
    messages (complete env aid st1) = messages st1 ++ tail /\
    (List.length tail <= 1)%nat /\
    Forall (fun m => id m = aid /\ role m = assistant /\ confidence m = undefined) tail.
Proof.
  intros Hfresh.
  set (base := messages st1) in *.
  assert (Hk : conversationKept base aid (fst (stream env aid st1))).
  { apply stream_invariant.
    - intros acc line. now apply handleLine_conversationKept.
    - exists []. cbn [fst snd messageAdded]. split; [|reflexivity].
      subst base. now rewrite app_nil_r. }
  unfold complete.
  destruct (stream env aid st1) as [[st2 tu2] [err|]];
    destruct Hk as (tail & Hm & Ht); cbn [fst snd] in *;
    cbn [messages setThinkingStatus setIsThinking].
  - unfold handleError. destruct (messageAdded tu2);
      cbn [negb messages setMessages setError].
    + destruct Ht as (m & -> & Hid & Hrole). rewrite Hm.
      rewrite (updateMessage_last _ _ _ _ Hid), updateMessage_fresh by exact Hfresh.
      eexists. split; [reflexivity|].
      split; [cbn; lia|]. constructor; [|constructor]. split; assumption.
    + subst tail. rewrite Hm, app_nil_r.
      eexists. split; [reflexivity|].
      split; [cbn; lia|]. constructor; [|constructor]. repeat split.
  - exists tail. rewrite Hm. split; [reflexivity|].
    destruct (messageAdded tu2).
    + destruct Ht as (m & -> & Hid & Hrole).
      split; [cbn; lia|]. constructor; [|constructor]. split; assumption.
    + subst tail. split; [cbn; lia | constructor].
Qed.

(** X12. Whatever the network does, when no message of the conversation has
    the id chosen for the answer, a turn leaves the earlier messages and the
    question as they are and adds at most one message after them, an
    assistant message with that id and without a confidence. *)
Theorem turn_only_appends env st w :
  truthy (trim (input st)) = true -> isThinking st = false ->
  Forall (fun m => id m <> assistantMessageId (clock env))
    (messages st ++ [userMessage (clock env) st]) ->
  exists tail,
    messages (fst (handleSend env st w)) = messages st ++ [userMessage (clock env) st] ++ tail /\
    (List.length tail <= 1)%nat /\
    Forall (fun m => id m = assistantMessageId (clock env) /\ role m = assistant /\
                     confidence m = undefined) tail.
Proof.
  intros Hin Hth Hfresh. unfold handleSend. rewrite submit_submitted by assumption.
  cbn [fst].
  destruct (complete_conversation env (assistantMessageId (clock env))
              (submitted (clock env) st) Hfresh) as (tail & Hm & Hl & Ht).
  exists tail. rewrite Hm. cbn [submitted messages]. rewrite <- app_assoc.
  repeat split; assumption.
Qed.

Lemma turn_only_appends_witness :
  exists tail,
    messages (fst (handleSend (answering helloReads (Some networkError)) idleState freshWorld))
    = messages idleState ++ [userMessage sampleClock idleState] ++ tail /\
    (List.length tail <= 1)%nat /\
    Forall (fun m => id m = assistantMessageId sampleClock /\ role m = assistant /\
                     confidence m = undefined) tail.
Proof.
  apply (turn_only_appends (answering helloReads (Some networkError)) idleState freshWorld).
  - reflexivity.
  - reflexivity.
  - constructor; [|constructor]. intros H. vm_compute in H. discriminate H.
Defined.

(** ** The answer a stream of events adds up to *)

Lemma applyEvent_answerState clk aid base a acc ev :
  Forall (fun m => id m <> aid) base ->
  answerState base aid clk a acc ->
  answerState base aid clk (accumulate a ev) (applyEvent clk aid acc ev).
Proof.
  intros Hfresh. destruct acc as [st tu]. destruct a as [ex c s].
  unfold answerState. cbn [fst snd answer_exists answer_content answer_sources].
  intros (Hc & Ha & Hs & Hm).
  destruct ev as [[message|fragment|srcs| |]|];
    cbn [applyEvent applyChunk accumulate fst snd answer_exists answer_content
         answer_sources messages setThinkingStatus setIsThinking];
    try (repeat split; assumption).
  - rewrite Ha, Hc. destruct ex;
      cbn [negb fst snd messages setMessages messageAdded accumulatedContent];
      rewrite Hm.
    + rewrite updateMessage_last by reflexivity.
      rewrite updateMessage_fresh by exact Hfresh.
      repeat split. discriminate.
    + rewrite app_nil_r. rewrite (Hs eq_refl).
      repeat split.
  - rewrite Ha. destruct ex;
      cbn [fst snd messages setMessages messageAdded accumulatedContent answer_exists
           answer_content answer_sources].
    + rewrite Hm, updateMessage_last by reflexivity.
      rewrite updateMessage_fresh by exact Hfresh.
      repeat split; try assumption. discriminate.
    + repeat split; assumption.
Qed.

Lemma fold_applyEvent_answerState clk aid base evs : forall a acc,
  Forall (fun m => id m <> aid) base ->
  answerState base aid clk a acc ->
  answerState base aid clk (fold_left accumulate evs a)
    (fold_left (applyEvent clk aid) evs acc).
Proof.
  induction evs as [|ev rest IH]; intros a acc Hfresh H; [exact H|].
  cbn [fold_left]. apply IH; [exact Hfresh|]. now apply applyEvent_answerState.
Qed.

Lemma fold_applyEvent_fieldsKept clk aid st1 evs : forall acc,
  fieldsKept st1 acc -> fieldsKept st1 (fold_left (applyEvent clk aid) evs acc).
Proof.
  induction evs as [|ev rest IH]; intros acc H; [exact H|].
  cbn [fold_left]. apply IH. now apply applyEvent_fieldsKept.
Qed.

(** X13. A turn whose reads each carry whole frames, of any payloads that
    hold on one line, when no message of the conversation has the id chosen
    for the answer.  The payloads that are events are applied in order and
    the others are skipped: the answer exists from the first chunk on, its
    content is the chunks' text in order, its sources are those of the last
    sources event that came after the first chunk.  A body that fails adds
    its notice to the answer, or an error message when there is no answer,
    and sets the error shown; a body that ends sets none. *)
Theorem turn_of_whole_frames env st w status reads payloadss ending :
  truthy (trim (input st)) = true -> isThinking st = false ->
  response env = FetchResponse true status (Some (streamOf reads ending)) ->
  map TextDecoder.decode reads = map framesText payloadss ->
  forallb oneLine (concat payloadss) = true ->
  Forall (fun m => id m <> assistantMessageId (clock env))
    (messages st ++ [userMessage (clock env) st]) ->
  messages (fst (handleSend env st w))
  = messages st ++ [userMessage (clock env) st]
    ++ turnTail (assistantMessageId (clock env)) (clock env)
         (answerOf (concat payloadss)) ending /\
  error (fst (handleSend env st w)) = option_map errorText ending.
Proof.
  intros Hin Hth Hresp Hd Hp Hfresh. unfold handleSend.
  rewrite submit_submitted by assumption. cbn [fst].
  set (aid := assistantMessageId (clock env)) in *.
  set (clk := clock env) in *.
  set (base := messages st ++ [userMessage clk st]) in *.
  set (st1 := submitted clk st).
  assert (Hbase : forall t, base ++ t = messages st ++ [userMessage clk st] ++ t)
    by (intros t; subst base; now rewrite <- app_assoc).
  unfold complete, stream. fold clk. rewrite Hresp. cbn [negb].
  rewrite (readLoop_events clk aid ending reads payloadss) by assumption.
  set (tu0 := {| accumulatedContent := []; turn_sources := Some (JArray []);
                 messageAdded := false |}).
  assert (H0 : answerState base aid clk noAnswer (st1, tu0)).
  { unfold answerState. cbn. repeat split. now rewrite app_nil_r. }
  assert (Hk0 : fieldsKept st1 (st1, tu0)).
  { unfold fieldsKept, tu0. cbn [fst snd messageAdded]. repeat split. lia. }
  pose proof (fold_applyEvent_answerState clk aid base
                (map decodeEvent (concat payloadss)) noAnswer (st1, tu0) Hfresh H0) as H.
  assert (Hk : fieldsKept st1
                 (fold_left (applyEvent clk aid) (map decodeEvent (concat payloadss))
                    (st1, tu0))).
  { now apply fold_applyEvent_fieldsKept. }
  fold (answerOf (concat payloadss)) in H.
  destruct (fold_left _ _ (st1, tu0)) as [st2 tu2].
  destruct H as (Hc & Ha & Hs & Hm). destruct Hk as (_ & _ & He & _).
  cbn [fst snd] in *. unfold turnTail.
  destruct ending as [err|]; cbn [option_map].
  - cbn [messages error setThinkingStatus setIsThinking].
    unfold handleError. rewrite Ha.
    destruct (answer_exists (answerOf (concat payloadss)));
      cbn [negb messages error setMessages setError]; rewrite Hm.
    + rewrite updateMessage_last by reflexivity.
      rewrite updateMessage_fresh by exact Hfresh.
      split; [apply Hbase | reflexivity].
    + rewrite app_nil_r. split; [apply Hbase | reflexivity].
  - cbn [messages error setThinkingStatus setIsThinking]. rewrite Hm, He.
    split; [|reflexivity]. rewrite <- Hbase. f_equal.
    destruct (answer_exists (answerOf (concat payloadss))); [|reflexivity].
    unfold withContent, answerMessage, failureNotice. cbn. now rewrite app_nil_r.
Qed.

Lemma turn_of_whole_frames_witness :
  messages (fst (handleSend (answering mixedReads (Some networkError)) idleState freshWorld))
  = messages idleState ++ [userMessage sampleClock idleState]
    ++ turnTail (assistantMessageId sampleClock) sampleClock
         (answerOf (concat mixedPayloads)) (Some networkError) /\
  error (fst (handleSend (answering mixedReads (Some networkError)) idleState freshWorld))
  = option_map errorText (Some networkError).
Proof.
  apply (turn_of_whole_frames (answering mixedReads (Some networkError)) idleState freshWorld
           200 mixedReads mixedPayloads (Some networkError)).
  - reflexivity.
  - reflexivity.
  - reflexivity.
  - vm_compute. reflexivity.
  - vm_compute. reflexivity.
  - constructor; [|constructor]. intros H. vm_compute in H. discriminate H.
Defined.

Example answerOf_mixed :
  answerOf (concat mixedPayloads)
  = {| answer_exists := true; answer_content := js "Hello world";
       answer_sources := pdfSources |}.
Proof. vm_compute. reflexivity. Qed.

(** ** Requests that fail *)

(** X14. When the request fails before a frame is read (the fetch rejects,
    the status is not ok, the response has no body, or the first read
    rejects), the conversation gets the question and one assistant message
    [Error: <message>. Please try again.], the same message is set as the
    error shown, and the component is idle again. *)
Theorem failed_request_is_reported env st w err :
  truthy (trim (input st)) = true -> isThinking st = false ->
  requestFailure (response env) = Some err ->
  messages (fst (handleSend env st w))
  = messages st ++ [userMessage (clock env) st;
                    errorMessage (assistantMessageId (clock env)) (clock env) err] /\
  error (fst (handleSend env st w)) = Some (errorText err) /\
  isThinking (fst (handleSend env st w)) = false.
Proof.
  intros Hin Hth Hf. unfold handleSend. rewrite submit_submitted by assumption.
  cbn [fst]. unfold complete, stream.
  destruct (response env) as [e|[] status [[|e|value rest]|]]; cbn in Hf;
    try discriminate; injection Hf as <-;
    cbn [negb readLoop handleError messageAdded setError setMessages setIsThinking
         setThinkingStatus messages error isThinking submitted];
    rewrite <- app_assoc; repeat split.
Qed.

Lemma failed_request_is_reported_witness :
  let env := {| clock := sampleClock; response := FetchResponse false 503 None |} in
  let err := ErrorObject (js "Error") (js "HTTP error! status: 503") in
  messages (fst (handleSend env idleState freshWorld))
  = messages idleState ++ [userMessage sampleClock idleState;
                           errorMessage (assistantMessageId sampleClock) sampleClock err] /\
  error (fst (handleSend env idleState freshWorld)) = Some (errorText err) /\
  isThinking (fst (handleSend env idleState freshWorld)) = false.
Proof.
  apply (failed_request_is_reported
           {| clock := sampleClock; response := FetchResponse false 503 None |}
           idleState freshWorld
           (ErrorObject (js "Error") (js "HTTP error! status: 503")));
    reflexivity.
Defined.

(** ** Lines that are skipped *)

(** X15. A line of a read that does not start with the marker, or whose
    payload is no JSON, is [null], or has a type other than [status],
    [chunk], [sources] and [done], changes nothing: neither the state of
    the component nor what the turn has accumulated. *)
Theorem unreadable_lines_are_skipped clk aid acc line :
  startsWith line (js "data: ") = false \/
  (exists payload, line = js "data: " ++ payload /\ skipped payload = true) ->
  handleLine clk aid acc line = acc.
Proof.
  intros [H | (payload & -> & H)]; [now apply handleLine_unmarked|].
  rewrite handleLine_event. unfold skipped, decodeEvent in *.
  destruct (JSON.parse payload) as [data|]; [|reflexivity].
  destruct (Get data (js "type")) as [type|]; [|reflexivity].
  destruct (strictEqualsString type (js "status")); [discriminate|].
  destruct (strictEqualsString type (js "chunk")); [discriminate|].
  destruct (strictEqualsString type (js "sources")); [discriminate|].
  destruct (strictEqualsString type (js "done")); [discriminate|].
  destruct (strictEqualsString type (js "error")); reflexivity.
Qed.

Lemma unreadable_lines_are_skipped_witness :
  let acc := (thinkingState, {| accumulatedContent := js "Partial";
                                turn_sources := Some (JArray []);
                                messageAdded := true |}) in
  handleLine sampleClock (assistantMessageId sampleClock) acc (text ": keep-alive") = acc /\
  handleLine sampleClock (assistantMessageId sampleClock) acc (text "data: [DONE]") = acc /\
  handleLine sampleClock (assistantMessageId sampleClock) acc (text "data: null") = acc /\
  handleLine sampleClock (assistantMessageId sampleClock) acc
    (text "data: {'type':'error','message':'boom'}") = acc.
Proof.
  intros acc. split; [|split; [|split]].
  - apply unreadable_lines_are_skipped. left. reflexivity.
  - apply unreadable_lines_are_skipped. right. exists (text "[DONE]").
    split; vm_compute; reflexivity.
  - apply unreadable_lines_are_skipped. right. exists (text "null").
    split; vm_compute; reflexivity.
  - apply unreadable_lines_are_skipped. right.
    exists (text "{'type':'error','message':'boom'}").
    split; vm_compute; reflexivity.
Defined.

(** ** The component and the store *)

Lemma handleSend_keeps_session env st w :
  sessionId (fst (handleSend env st w)) = sessionId st /\
  storage (snd (handleSend env st w)) = storage w.
Proof.
  unfold handleSend, submit.
  destruct (negb (truthy (trim (input st))) || isThinking st); [split; reflexivity|].
  cbn [fst snd storage]. split; [|reflexivity].
  match goal with |- sessionId (complete env ?aid ?st1) = _ =>
    assert (Hk : fieldsKept st1 (fst (stream env aid st1)));
    [ apply stream_invariant;
      [ intros acc line; apply handleLine_fieldsKept
      | unfold fieldsKept; cbn [fst snd messageAdded]; repeat split; lia ]
    | unfold complete; destruct (stream env aid st1) as [[st2 tu2] [err|]];
      destruct Hk as (_ & Hs & _); cbn [fst snd] in Hs;
      cbn [sessionId setThinkingStatus setIsThinking] ]
  end.
  - destruct (handleError_fields (clock env) (Number_toString (now_assistantId (clock env) + 1))
                err st2 tu2) as (_ & Hs' & _).
    rewrite Hs', Hs. reflexivity.
  - rewrite Hs. reflexivity.
Qed.

Lemma saveChatHistory_current now sessionId messages ls :
  CURRENT_SESSION (snd (saveChatHistory now sessionId messages ls)) = CURRENT_SESSION ls.
Proof.
  unfold saveChatHistory. destruct messages; [reflexivity|].
  destruct (storeMessages _); reflexivity.
Qed.

Lemma saveMessagesEffect_current now nowList st sb ls :
  CURRENT_SESSION (snd (saveMessagesEffect now nowList st sb ls)) = CURRENT_SESSION ls.
Proof.
  unfold saveMessagesEffect. destruct (truthy (sessionId st)); [|reflexivity].
  pose proof (saveChatHistory_current now (sessionId st) (messages st) ls) as H.
  destruct (saveChatHistory now (sessionId st) (messages st) ls) as [[|] ls']; exact H.
Qed.

(** X16. From the mount on, through every turn (whatever the network does),
    every save, new chat, opened chat and deleted chat, the current-session
    item of the store names the session the component shows. *)
Theorem store_names_the_session_shown c :
  mounted c -> CURRENT_SESSION (storage (snd c)) = Some (sessionId (fst (fst c))).
Proof.
  induction 1 as [now nowId random w | c c' _ IH Hstep].
  - cbn [fst snd storage]. unfold initialize, getCurrentSessionId.
    destruct (CURRENT_SESSION (storage w)) as [[|c s]|] eqn:E; cbn [truthy].
    + destruct (loadSession _ _) as [[saved|]|e]; reflexivity.
    + destruct (loadSession _ _) as [[saved|]|e]; cbn; exact E.
    + destruct (loadSession _ _) as [[saved|]|e]; reflexivity.
  - destruct Hstep; cbn [fst snd storage] in *.
    + exact IH.
    + destruct (handleSend_keeps_session env st w) as [-> ->]. exact IH.
    + rewrite saveMessagesEffect_current. exact IH.
    + reflexivity.
    + unfold loadChatSession.
      destruct (loadSession historySessionId (storage w)) as [[saved|]|e];
        [reflexivity | exact IH | exact IH].
    + unfold deleteChat. destruct (str_eqb historySessionId (sessionId st));
        [reflexivity | exact IH].
Qed.

Lemma store_names_the_session_shown_witness :
  CURRENT_SESSION (storage (snd afterDelete)) = Some (sessionId (fst (fst afterDelete))).
Proof.
  apply (store_names_the_session_shown afterDelete).
  apply (mounted_step firstConfiguration).
  - exact (mounted_first 1764873002000 1764873002000 (js "0.k3j9x2m1qzz")
             {| storage := currentStorage; requests := [] |}).
  - exact (step_delete 1764873003000 1764873003000 (js "0.z7y6x5w4vuu") (js "session_a")
             (fst (fst firstConfiguration)) (snd (fst firstConfiguration))
             (snd firstConfiguration)).
Defined.

Example afterDelete_session :
  sessionId (fst (fst afterDelete)) = js "session_1764873003000_z7y6x5w4v" /\
  messages (fst (fst afterDelete)) = [] /\
  map chat_id (chatHistory (snd (fst afterDelete))) = [js "session_b"].
Proof. vm_compute. repeat split. Qed.

(** ** New chat, opened chat, deleted chat *)

Lemma saveChatHistory_empty now sessionId ls :
  saveChatHistory now sessionId [] ls = (Normal tt, deleteSession sessionId ls).
Proof. reflexivity. Qed.

Lemma storedSession_deleteSession_same i ls : storedSession (deleteSession i ls) i = None.
Proof.
  unfold storedSession, deleteSession. rewrite getAllChatHistory_set.
  apply objOwn_objDelete_same.
Qed.

Lemma storedSession_deleteSession_other i j ls :
  i <> j -> storedSession (deleteSession i ls) j = storedSession ls j.
Proof.
  intros H. unfold storedSession, deleteSession. rewrite getAllChatHistory_set.
  now apply objOwn_objDelete_other.
Qed.

Lemma loadSession_absent i ls :
  storedSession ls i = None -> isInherited i = false -> loadSession i ls = Normal None.
Proof. apply loadSession_none. Qed.


Lemma listed_ids now ls c :
  wellKeyed (getAllChatHistory ls) ->
  In c (getChatHistoryList now ls) -> In (chat_id c) (sessionOrder ls).
Proof.
  intros [_ Hid] Hc. unfold getChatHistoryList in Hc.
  apply (Permutation_in _ (sort_permutation _ _)) in Hc.
  unfold objValues in Hc. rewrite map_map in Hc.
  apply in_map_iff in Hc as ([k s] & <- & Hin). cbn [chat_id snd].
  rewrite Forall_forall in Hid. pose proof (Hid _ Hin) as E. cbn [fst snd] in E.
  rewrite E. unfold sessionOrder. apply in_map_iff. now exists (k, s).
Qed.

Lemma sessionOrder_deleteSession i ls :
  sessionOrder (deleteSession i ls)
  = filter (fun j => negb (str_eqb j i)) (sessionOrder ls).
Proof.
  unfold sessionOrder, deleteSession. rewrite getAllChatHistory_set. apply objDelete_keys.
Qed.

Lemma wellKeyed_deleteSession i ls :
  wellKeyed (getAllChatHistory ls) -> wellKeyed (getAllChatHistory (deleteSession i ls)).
Proof.
  intros H. unfold deleteSession. rewrite getAllChatHistory_set.
  now apply objDelete_wellKeyed.
Qed.

(** X18. Deleting the chat that is open removes its record and starts a new
    chat: no messages, a fresh session id that becomes the current one,
    nothing stored under it or under the old id after the save effect
    (loading either gives null, the old one provided it is no name every
    object inherits), the other sessions as they were, and (for a store the
    service wrote) no entry for the deleted chat in the list.  Deleting
    another chat leaves the state of the component as it is. *)
Theorem deleting_the_open_chat_starts_a_new_one now nowId random now' nowList st sb ls :
  reachable ls ->
  let r := deleteChat now nowId random (sessionId st) st sb ls in
  let st' := fst (fst r) in
  let e := saveMessagesEffect now' nowList st' (snd (fst r)) (snd r) in
  messages st' = [] /\
  sessionId st' = generateSessionId nowId random /\
  CURRENT_SESSION (snd e) = Some (sessionId st') /\
  storedSession (snd e) (sessionId st) = None /\
  (isInherited (sessionId st) = false ->
   loadSession (sessionId st) (snd e) = Normal None) /\
  loadSession (sessionId st') (snd e) = Normal None /\
  (forall j, j <> sessionId st -> j <> sessionId st' ->
             storedSession (snd e) j = storedSession ls j) /\
  Forall (fun c => chat_id c <> sessionId st) (chatHistory (fst e)) /\
  (forall i, i <> sessionId st ->
             fst (fst (deleteChat now nowId random i st sb ls)) = st).
Proof.
  intros Hr. cbv zeta. unfold deleteChat. rewrite str_eqb_refl.
  unfold startNewChat, createNewSession. cbn [fst snd].
  unfold saveMessagesEffect.
  cbn [sessionId messages error setError setMessages setSessionId].
  rewrite generateSessionId_truthy, saveChatHistory_empty.
  cbn [fst snd chatHistory loadChatHistory].
  set (new := generateSessionId nowId random).
  set (old := sessionId st).
  assert (Hh : getAllChatHistory (setCurrentSession (deleteSession old ls) new)
               = getAllChatHistory (deleteSession old ls)) by reflexivity.
  assert (Hold : storedSession
                   (deleteSession new (setCurrentSession (deleteSession old ls) new)) old
                 = None).
  { destruct (list_eq_dec Z.eq_dec new old) as [E|E].
    - rewrite E. apply storedSession_deleteSession_same.
    - rewrite storedSession_deleteSession_other by exact E.
      unfold storedSession. rewrite Hh.
      fold (storedSession (deleteSession old ls) old).
      apply storedSession_deleteSession_same. }
  split; [reflexivity|]. split; [reflexivity|]. split; [reflexivity|].
  split; [exact Hold|].
  split; [|split; [|split; [|split]]].
  - intros Hi. now apply loadSession_absent.
  - apply loadSession_absent; [apply storedSession_deleteSession_same|].
    apply generateSessionId_ordinary.
  - intros j Ho Hn. rewrite storedSession_deleteSession_other by congruence.
    unfold storedSession. rewrite Hh.
    fold (storedSession (deleteSession old ls) j).
    rewrite storedSession_deleteSession_other by congruence. reflexivity.
  - apply Forall_forall. intros c Hc.
    apply listed_ids in Hc.
    + rewrite sessionOrder_deleteSession in Hc. apply filter_In in Hc as [Hc _].
      unfold sessionOrder in Hc. rewrite Hh in Hc.
      fold (sessionOrder (deleteSession old ls)) in Hc.
      rewrite sessionOrder_deleteSession in Hc. apply filter_In in Hc as [_ Hc].
      apply negb_true_iff in Hc. intros E. rewrite E, str_eqb_refl in Hc. discriminate.
    + apply wellKeyed_deleteSession. rewrite Hh. apply wellKeyed_deleteSession.
      now apply reachable_wellKeyed.
  - intros i Hi. rewrite str_eqb_neq by exact Hi. reflexivity.
Qed.

Lemma deleting_the_open_chat_starts_a_new_one_witness :
  let r := deleteChat 1764873003000 1764873003000 (js "0.z7y6x5w4vuu") (sessionId showingState)
             showingState mountedSidebar currentStorage in
  let st' := fst (fst r) in
  let e := saveMessagesEffect 1764873003001 1764873003002 st' (snd (fst r)) (snd r) in
  messages st' = [] /\
  sessionId st' = generateSessionId 1764873003000 (js "0.z7y6x5w4vuu") /\
  CURRENT_SESSION (snd e) = Some (sessionId st') /\
  storedSession (snd e) (sessionId showingState) = None /\
  (isInherited (sessionId showingState) = false ->
   loadSession (sessionId showingState) (snd e) = Normal None) /\
  loadSession (sessionId st') (snd e) = Normal None /\
  (forall j, j <> sessionId showingState -> j <> sessionId st' ->
             storedSession (snd e) j = storedSession currentStorage j) /\
  Forall (fun c => chat_id c <> sessionId showingState) (chatHistory (fst e)) /\
  (forall i, i <> sessionId showingState ->
             fst (fst (deleteChat 1764873003000 1764873003000 (js "0.z7y6x5w4vuu") i
                         showingState mountedSidebar currentStorage)) = showingState).
Proof.
  apply (deleting_the_open_chat_starts_a_new_one 1764873003000 1764873003000
           (js "0.z7y6x5w4vuu") 1764873003001 1764873003002 showingState mountedSidebar
           currentStorage).
  apply (reachable_save 1764873001000 (js "session_b") [sampleMessage]
           (snd (saveChatHistory 1764873000000 (js "session_a") [sampleMessage]
                   (setCurrentSession freshStorage (js "session_a"))))).
  apply (reachable_save 1764873000000 (js "session_a") [sampleMessage]).
  apply reachable_fresh. reflexivity.
Defined.


Lemma saveChatHistory_valid now i messages ls :
  messages <> [] ->
  Forall (fun m => validDate (timestamp m) = true) messages ->
  exists stored,
    map loadMessage stored = map asStored messages /\
    saveChatHistory now i messages ls
    = (Normal tt,
       setChatHistory ls
         (objSet (getAllChatHistory ls) i
            {| session_id := i;
               session_title := sessionTitle messages;
               session_timestamp := isoString now;
               session_messages := stored;
               session_lastMessage := option_map content (last (map Some messages) None) |})).
Proof.
  intros Hne Hv. destruct (storeMessages_valid messages Hv) as (stored & Hs & Hl).
  exists stored. split; [exact Hl|].
  unfold saveChatHistory. destruct messages; [contradiction|]. now rewrite Hs.
Qed.




Lemma asStored_loadMessage stored :
  map timestamp (map asStored stored) = map timestamp stored.
Proof. rewrite map_map. reflexivity. Qed.







(** Opening a chat of a store written by hand, with a number too large for
    a double among the sources: the number is shown as it reads, and the
    save effect writes [null] in its place. *)
Example opening_a_chat_written_by_hand :
  let r := snd (loadChatSession (js "session_a") mountedState mountedSidebar editedStorage) in
  let e := saveMessagesEffect 1764959400000 1764959400001 (fst (fst r)) (snd (fst r))
             (snd r) in
  map sources (messages (fst (fst r)))
  = [Some (JArray [JObject [(js "score", JNumber (js "1e999"))]])] /\
  option_map (map sources)
    match loadSession (js "session_a") (snd e) with
    | Normal loaded => loaded
    | Throw _ => None
    end
  = Some [Some (JArray [JObject [(js "score", JNull)]])].
Proof. split; vm_compute; reflexivity. Qed.









(** ** Feedback *)

Lemma findIndex_spec f l : forall i pre m post,
  l = pre ++ m :: post ->
  Forall (fun x => f x = false) pre -> f m = true ->
  findIndex f l i = Some ((i + List.length pre)%nat, m).
Proof.
  induction l as [|x l IH]; intros i pre m post Hl Hpre Hm.
  - destruct pre; discriminate.
  - destruct pre as [|y pre]; cbn [app] in Hl; injection Hl as -> ->.
    + cbn [findIndex List.length]. rewrite Hm. now rewrite Nat.add_0_r.
    + inversion Hpre as [|? ? Hy Hpre']; subst.
      cbn [findIndex List.length]. rewrite Hy.
      rewrite (IH (S i) pre m post eq_refl Hpre' Hm). f_equal. f_equal. lia.
Qed.

Lemma find_app_some {A} (f : A -> bool) l l' x :
  find f l = Some x -> find f (l ++ l') = Some x.
Proof.
  induction l as [|y l IH]; cbn [find app]; [discriminate|].
  destruct (f y); auto.
Qed.

(** X21. Feedback on a message is filed with the first user message that
    stands before it in the conversation, which is the first question of
    the conversation, not the question the rated message answers; when no
    user message stands before it, nothing is sent. *)
Theorem feedback_goes_with_first_question msgs pre m post :
  msgs = pre ++ m :: post ->
  Forall (fun x => id x <> id m) pre ->
  feedbackSubject msgs (id m)
  = option_map (fun u => (u, m)) (find (fun x => Role_eqb (role x) user) pre) /\
  (forall u, find (fun x => Role_eqb (role x) user) pre = Some u ->
             find (fun x => Role_eqb (role x) user) msgs = Some u).
Proof.
  intros -> Hpre. split.
  - unfold feedbackSubject.
    rewrite (findIndex_spec _ _ 0%nat pre m post eq_refl).
    + cbn [Nat.add]. rewrite firstn_app, firstn_all, Nat.sub_diag. cbn [firstn].
      rewrite app_nil_r. now destruct (find _ pre).
    + eapply Forall_impl; [|exact Hpre]. intros x Hx. now apply str_eqb_neq.
    + apply str_eqb_refl.
  - intros u Hu. now apply find_app_some.
Qed.

Lemma feedback_goes_with_first_question_witness :
  feedbackSubject twoTurns (js "1764873060001")
  = option_map (fun u => (u, nth 3 twoTurns sampleMessage))
      (find (fun x => Role_eqb (role x) user) (firstn 3 twoTurns)) /\
  (forall u, find (fun x => Role_eqb (role x) user) (firstn 3 twoTurns) = Some u ->
             find (fun x => Role_eqb (role x) user) twoTurns = Some u).
Proof.
  apply (feedback_goes_with_first_question twoTurns (firstn 3 twoTurns)
           (nth 3 twoTurns sampleMessage) []).
  - reflexivity.
  - repeat constructor; intros H; vm_compute in H; discriminate H.
Defined.

Example feedback_on_second_answer :
  option_map (fun p => (content (fst p), content (snd p)))
    (feedbackSubject twoTurns (js "1764873060001"))
  = Some (js "What is the leave policy?", js "Economy class.").
Proof. vm_compute. reflexivity. Qed.

(** ** The login *)

Lemma truthy_nonempty s : truthy s = true <-> s <> [].
Proof. destruct s; cbn; split; congruence. Qed.

(** X22. Mounting the provider always ends the loading state, so the
    protected route never stays on the spinner.  It shows the chat exactly
    when the store holds a non-empty token and a non-empty user item that is
    JSON; the token of the state and the [Authorization] header are then
    those of the store, which is not written.  Otherwise it sends to the
    login with no user, no token and no header; a user item that is no JSON
    takes the token and the user item out of the store.  The chats are
    never touched. *)
Theorem mount_decides_the_route bs :
  let r := mountAuth bs in
  ProtectedRoute (fst r) <> Spinner /\
  (ProtectedRoute (fst r) = Children <->
   exists token userStr parsedUser,
     auth_token (service_items bs) = Some token /\ token <> [] /\
     auth_user bs = Some userStr /\ userStr <> [] /\
     JSON.parse userStr = Normal parsedUser) /\
  (ProtectedRoute (fst r) = Children ->
   state_token (fst r) = auth_token (service_items bs) /\
   Authorization (snd r) = option_map (app (js "Bearer ")) (auth_token (service_items bs)) /\
   browser (snd r) = bs) /\
  (ProtectedRoute (fst r) = NavigateToLogin ->
   state_user (fst r) = None /\ state_token (fst r) = None /\
   Authorization (snd r) = None /\
   (browser (snd r) = bs \/
    exists e userStr, auth_user bs = Some userStr /\ JSON.parse userStr = Throw e /\
                      browser (snd r) = removeLogin bs)) /\
  CHAT_HISTORY (service_items (browser (snd r))) = CHAT_HISTORY (service_items bs) /\
  CURRENT_SESSION (service_items (browser (snd r))) = CURRENT_SESSION (service_items bs).
Proof.
  cbv zeta. unfold mountAuth, loadFromStorage. cbn [browser].
  destruct (auth_token (service_items bs)) as [token|] eqn:Et;
    [destruct (auth_user bs) as [userStr|] eqn:Eu|].
  - destruct (truthy token) eqn:Ht; [destruct (truthy userStr) eqn:Hu|]; cbn [andb].
    + destruct (JSON.parse userStr) as [parsedUser|e] eqn:Ep; cbn.
      * split; [discriminate|]. split; [|split; [|split; [|split]]]; try reflexivity.
        -- split; [|reflexivity]. intros _. exists token, userStr, parsedUser.
           repeat split; try assumption; now apply truthy_nonempty.
        -- intros _. destruct bs as [[h c t] k s u]; cbn in *. subst. repeat split.
        -- discriminate.
      * split; [discriminate|]. split; [|split; [|split; [|split]]]; try reflexivity.
        -- split; [discriminate|]. intros (t & u & p & Ht' & _ & Hu' & _ & Hp).
           injection Hu' as <-. congruence.
        -- discriminate.
        -- intros _. repeat split. right. exists e, userStr. repeat split; assumption.
    + cbn. split; [discriminate|]. split; [|split; [|split; [|split]]]; try reflexivity.
      * split; [discriminate|]. intros (t & u & p & _ & _ & Hu' & Hne & _).
        injection Hu' as <-. apply truthy_nonempty in Hne. congruence.
      * discriminate.
      * intros _. repeat split. now left.
    + cbn. split; [discriminate|]. split; [|split; [|split; [|split]]]; try reflexivity.
      * split; [discriminate|]. intros (t & u & p & Ht' & Hne & _).
        injection Ht' as <-. apply truthy_nonempty in Hne. congruence.
      * discriminate.
      * intros _. repeat split. now left.
  - cbn. split; [discriminate|]. split; [|split; [|split; [|split]]]; try reflexivity.
    + split; [discriminate|]. intros (t & u & p & _ & _ & Hu' & _). discriminate.
    + discriminate.
    + intros _. repeat split. now left.
  - cbn. split; [discriminate|]. split; [|split; [|split; [|split]]]; try reflexivity.
    + split; [discriminate|]. intros (t & u & p & Ht' & _). discriminate.
    + discriminate.
    + intros _. repeat split. now left.
Qed.

Example mount_logged_in :
  ProtectedRoute (fst (mountAuth loggedInStorage)) = Children /\
  Authorization (snd (mountAuth loggedInStorage))
  = Some (js "Bearer eyJhbGciOiJIUzI1NiJ9.e30.abc").
Proof. vm_compute. split; reflexivity. Qed.

Example mount_corrupt :
  ProtectedRoute (fst (mountAuth corruptStorage)) = NavigateToLogin /\
  auth_token (service_items (browser (snd (mountAuth corruptStorage)))) = None /\
  auth_user (browser (snd (mountAuth corruptStorage))) = None.
Proof. vm_compute. repeat split. Qed.

(** X23. Logging out takes the token and the user item out of the store and
    the header off the client: the protected route sends to the login, now
    and after a reload, and a question sent from a chat still open goes out
    without a token.  A response with status 401 leaves the same store.
    The chats are not part of the logout: they stay in the store, and the
    chat component mounted afterwards shows the conversation and the list it
    showed before. *)
Theorem logout_keeps_the_chats w env st ww now nowId random :
  truthy (trim (input st)) = true -> isThinking st = false ->
  storage ww = service_items (browser (snd (logout w))) ->
  ProtectedRoute (fst (logout w)) = NavigateToLogin /\
  ProtectedRoute (fst (mountAuth (browser (snd (logout w))))) = NavigateToLogin /\
  Authorization (snd (logout w)) = None /\
  snd (logout (snd (logout w))) = snd (logout w) /\
  responseError (Some 401) (browser w) = (browser (snd (logout w)), true) /\
  fst (initialize now nowId random mountedState mountedSidebar
         (service_items (browser (snd (logout w)))))
  = fst (initialize now nowId random mountedState mountedSidebar
           (service_items (browser w))) /\
  fst (snd (initialize now nowId random mountedState mountedSidebar
              (service_items (browser (snd (logout w))))))
  = fst (snd (initialize now nowId random mountedState mountedSidebar
                (service_items (browser w)))) /\
  requests (snd (handleSend env st ww))
  = requests ww ++ [{| request_token := None; request_query := input st;
                       request_session_id := sessionId st |}].
Proof.
  intros Hin Hth Hst.
  split; [reflexivity|]. split; [reflexivity|]. split; [reflexivity|].
  split; [reflexivity|]. split; [reflexivity|].
  assert (Hi : forall ls t,
             initialize now nowId random mountedState mountedSidebar
               {| CHAT_HISTORY := CHAT_HISTORY ls; CURRENT_SESSION := CURRENT_SESSION ls;
                  auth_token := t |}
             = let r := initialize now nowId random mountedState mountedSidebar ls in
               (fst r, (fst (snd r),
                        {| CHAT_HISTORY := CHAT_HISTORY (snd (snd r));
                           CURRENT_SESSION := CURRENT_SESSION (snd (snd r));
                           auth_token := t |}))).
  { intros [h c t0] t. unfold initialize, getCurrentSessionId, createNewSession.
    cbn [CURRENT_SESSION CHAT_HISTORY].
    destruct c as [x|]; [destruct (truthy x)|];
      unfold loadSession, getAllChatHistory, setCurrentSession;
      cbn [CHAT_HISTORY CURRENT_SESSION];
      match goal with |- context [objGet ?hh ?k] => destruct (objGet hh k) end;
      reflexivity. }
  assert (Hl : service_items (browser (snd (logout w)))
               = {| CHAT_HISTORY := CHAT_HISTORY (service_items (browser w));
                    CURRENT_SESSION := CURRENT_SESSION (service_items (browser w));
                    auth_token := None |}) by reflexivity.
  split; [|split].
  - rewrite Hl, Hi. reflexivity.
  - rewrite Hl, Hi. reflexivity.
  - unfold handleSend. rewrite submit_submitted by assumption.
    cbn [snd requests]. unfold requestOf. rewrite Hst. reflexivity.
Qed.

Lemma logout_keeps_the_chats_witness :
  let w := {| browser := loggedInStorage;
              Authorization := Some (js "Bearer eyJhbGciOiJIUzI1NiJ9.e30.abc") |} in
  let ww := {| storage := service_items (browser (snd (logout w))); requests := [] |} in
  let env := answering helloReads None in
  ProtectedRoute (fst (logout w)) = NavigateToLogin /\
  ProtectedRoute (fst (mountAuth (browser (snd (logout w))))) = NavigateToLogin /\
  Authorization (snd (logout w)) = None /\
  snd (logout (snd (logout w))) = snd (logout w) /\
  responseError (Some 401) (browser w) = (browser (snd (logout w)), true) /\
  fst (initialize 1764959400000 1764959400000 (js "0.k3j9x2m1qzz") mountedState mountedSidebar
         (service_items (browser (snd (logout w)))))
  = fst (initialize 1764959400000 1764959400000 (js "0.k3j9x2m1qzz") mountedState
           mountedSidebar (service_items (browser w))) /\
  fst (snd (initialize 1764959400000 1764959400000 (js "0.k3j9x2m1qzz") mountedState
              mountedSidebar (service_items (browser (snd (logout w))))))
  = fst (snd (initialize 1764959400000 1764959400000 (js "0.k3j9x2m1qzz") mountedState
                mountedSidebar (service_items (browser w)))) /\
  requests (snd (handleSend env idleState ww))
  = requests ww ++ [{| request_token := None; request_query := input idleState;
                       request_session_id := sessionId idleState |}].
Proof.
  intros w ww env.
  apply (logout_keeps_the_chats w env idleState ww 1764959400000 1764959400000
           (js "0.k3j9x2m1qzz")); reflexivity.
Defined.

(** ** Turns and the store *)

Lemma updateMessage_validDates aid f l :
  (forall m, timestamp (f m) = timestamp m) ->
  Forall (fun m => validDate (timestamp m) = true) l ->
  Forall (fun m => validDate (timestamp m) = true) (updateMessage aid f l).
Proof.
  intros Hf H.
  apply (Forall_timestamps (fun d => validDate d = true) (updateMessage aid f l) l);
    [now apply updateMessage_timestamps | exact H].
Qed.

Lemma applyEvent_validDates clk aid acc ev :
  validTime (now_firstChunk clk) = true ->
  validDates acc -> validDates (applyEvent clk aid acc ev).
Proof.
  intros Hc. destruct acc as [st tu]. unfold validDates. cbn [fst]. intros H.
  destruct ev as [[message|fragment|srcs| |]|]; cbn [applyEvent applyChunk fst snd];
    try exact H.
  - destruct (messageAdded tu); cbn [negb fst messages setMessages].
    + now apply updateMessage_validDates.
    + apply Forall_app. split; [exact H|]. constructor; [exact Hc | constructor].
  - destruct (messageAdded tu); cbn [fst messages setMessages]; [|exact H].
    now apply updateMessage_validDates.
Qed.

Lemma handleLine_validDates clk aid acc line :
  validTime (now_firstChunk clk) = true ->
  validDates acc -> validDates (handleLine clk aid acc line).
Proof.
  intros Hc H. destruct (handleLine_cases clk aid acc line) as [-> | [ev ->]];
    [exact H | now apply applyEvent_validDates].
Qed.

Lemma complete_validDates env aid st1 :
  validTime (now_firstChunk (clock env)) = true ->
  validTime (now_errorMessage (clock env)) = true ->
  Forall (fun m => validDate (timestamp m) = true) (messages st1) ->
  Forall (fun m => validDate (timestamp m) = true) (messages (complete env aid st1)).
Proof.
  intros Hc He H.
  assert (Hk : validDates (fst (stream env aid st1))).
  { apply stream_invariant; [|exact H].
    intros acc line. now apply handleLine_validDates. }
  unfold complete. destruct (stream env aid st1) as [[st2 tu2] [err|]];
    unfold validDates in Hk; cbn [fst] in Hk;
    cbn [messages setThinkingStatus setIsThinking]; [|exact Hk].
  unfold handleError. destruct (messageAdded tu2); cbn [negb messages setMessages setError].
  - now apply updateMessage_validDates.
  - apply Forall_app. split; [exact Hk|]. constructor; [exact He | constructor].
Qed.

Lemma objOwn_some_member h k v : objOwn h k = Some v -> In (k, v) h.
Proof.
  induction h as [|[k' v'] h IH]; cbn [objOwn]; [discriminate|].
  destruct (str_eqb k' k) eqn:E.
  - intros [= ->]. apply str_eqb_eq in E as ->. now left.
  - intros H. right. now apply IH.
Qed.

Lemma objSet_in h k v :
  objOwn h k <> None \/ k <> js "__proto__" -> In (k, v) (objSet h k v).
Proof. intros H. now apply objOwn_some_member, objOwn_objSet_same. Qed.

Lemma complete_nonempty env aid st1 :
  messages st1 <> [] -> messages (complete env aid st1) <> [].
Proof.
  intros H.
  assert (Hk : fieldsKept st1 (fst (stream env aid st1))).
  { apply stream_invariant.
    - intros acc line. apply handleLine_fieldsKept.
    - unfold fieldsKept. cbn [fst snd messageAdded]. repeat split. lia. }
  assert (Hl : (0 < List.length (messages st1))%nat)
    by (destruct (messages st1); [contradiction | cbn; lia]).
  assert (Hgoal : (0 < List.length (messages (complete env aid st1)))%nat).
  { unfold complete. destruct (stream env aid st1) as [[st2 tu2] [err|]];
      destruct Hk as (_ & _ & _ & Hlen); cbn [fst snd] in Hlen;
      cbn [messages setThinkingStatus setIsThinking].
    - destruct (handleError_fields (clock env) aid err st2 tu2) as (_ & _ & _ & Hl').
      rewrite Hl', Hlen. lia.
    - rewrite Hlen. lia. }
  intros E. rewrite E in Hgoal. cbn in Hgoal. lia.
Qed.

(** X24. Whatever the network does, the save effect that follows a turn
    leaves the whole conversation in the store under the session of the
    turn: loading the session gives the messages the component shows, as
    JSON carries them, and the very messages when each of them comes
    through JSON unchanged; the list has an entry for the session with the
    last message shown.  (The session id is not empty and is not
    [__proto__], under which the store keeps nothing; the dates of the
    conversation and of the clock hold a time value.) *)
Theorem every_turn_is_persisted env st w sb now nowList :
  truthy (trim (input st)) = true -> isThinking st = false ->
  truthy (sessionId st) = true ->
  sessionId st <> js "__proto__" ->
  Forall (fun m => validDate (timestamp m) = true) (messages st) ->
  validClock (clock env) ->
  let r := handleSend env st w in
  let e := saveMessagesEffect now nowList (fst r) sb (storage (snd r)) in
  loadSession (sessionId st) (snd e) = Normal (Some (map asStored (messages (fst r)))) /\
  (Forall (fun m => asStored m = m) (messages (fst r)) ->
   loadSession (sessionId st) (snd e) = Normal (Some (messages (fst r)))) /\
  exists chat,
    In chat (chatHistory (fst e)) /\
    chat_id chat = sessionId st /\
    chat_lastMessage chat = option_map content (last (map Some (messages (fst r))) None).
Proof.
  intros Hin Hth Hsid Hp Hv (Hu & Hc & He). cbv zeta.
  destruct (handleSend_keeps_session env st w) as [Hs Hw].
  unfold saveMessagesEffect. rewrite Hs, Hsid, Hw.
  assert (Hm : messages (fst (handleSend env st w)) <> [] /\
               Forall (fun m => validDate (timestamp m) = true)
                 (messages (fst (handleSend env st w)))).
  { unfold handleSend. rewrite submit_submitted by assumption. cbn [fst]. split.
    - apply complete_nonempty. cbn [submitted messages]. now destruct (messages st).
    - apply complete_validDates; try assumption.
      cbn [submitted messages]. apply Forall_app. split; [exact Hv|].
      constructor; [exact Hu | constructor]. }
  destruct Hm as [Hne Hvalid].
  destruct (saveChatHistory_valid now (sessionId st) _ (storage w) Hne Hvalid)
    as (stored & Hl & ->).
  cbn [fst snd chatHistory loadChatHistory].
  assert (Hload : forall session,
             loadSession (sessionId st)
               (setChatHistory (storage w)
                  (objSet (getAllChatHistory (storage w)) (sessionId st) session))
             = Normal (Some (map loadMessage (session_messages session)))).
  { intros session. apply loadSession_own. rewrite getAllChatHistory_set.
    apply objOwn_objSet_same. now right. }
  split; [|split].
  - rewrite Hload. cbn [session_messages]. now rewrite Hl.
  - intros Hsame. rewrite Hload. cbn [session_messages].
    now rewrite Hl, (map_unchanged _ _ Hsame).
  - unfold getChatHistoryList. rewrite getAllChatHistory_set.
    eexists. split.
    + apply (Permutation_in _ (Permutation_sym (sort_permutation _ _))).
      unfold objValues. rewrite map_map. apply in_map_iff.
      eexists. split; [reflexivity|]. apply objSet_in. now right.
    + cbn [snd chat_id chat_lastMessage session_id session_lastMessage]. split; reflexivity.
Qed.

Lemma every_turn_is_persisted_witness :
  let env := answering mixedReads (Some networkError) in
  let r := handleSend env idleState freshWorld in
  let e := saveMessagesEffect 1764873002000 1764873002001 (fst r) mountedSidebar
             (storage (snd r)) in
  loadSession (sessionId idleState) (snd e)
  = Normal (Some (map asStored (messages (fst r)))) /\
  (Forall (fun m => asStored m = m) (messages (fst r)) ->
   loadSession (sessionId idleState) (snd e) = Normal (Some (messages (fst r)))) /\
  exists chat,
    In chat (chatHistory (fst e)) /\
    chat_id chat = sessionId idleState /\
    chat_lastMessage chat = option_map content (last (map Some (messages (fst r))) None).
Proof.
  apply (every_turn_is_persisted (answering mixedReads (Some networkError)) idleState
           freshWorld mountedSidebar 1764873002000 1764873002001).
  - reflexivity.
  - reflexivity.
  - reflexivity.
  - discriminate.
  - constructor.
  - split; [reflexivity | split; reflexivity].
Defined.

Lemma find_app_first {A} (f : A -> bool) l l' :
  find f (l ++ l') = match find f l with Some x => Some x | None => find f l' end.
Proof.
  induction l as [|y l IH]; [reflexivity|]. cbn [find app]. now destruct (f y).
Qed.

Lemma sessionTitle_app l l' :
  sessionTitle (l ++ l')
  = match find (fun m => Role_eqb (role m) user) l with
    | Some _ => sessionTitle l
    | None => sessionTitle l'
    end.
Proof.
  unfold sessionTitle. rewrite find_app_first.
  now destruct (find (fun m => Role_eqb (role m) user) l).
Qed.

(** X25. The title a chat is stored and listed with is fixed by its first
    question.  After a turn and the save effect, whatever the network did,
    the title is that of the conversation as it stood when the question was
    sent; once the conversation holds a user message, no later turn changes
    the title.  (No message of the conversation has the id chosen for the
    answer, and the session id is not [__proto__], under which the store
    keeps nothing.) *)
Theorem title_is_fixed_by_the_first_question env st w sb now nowList :
  truthy (trim (input st)) = true -> isThinking st = false ->
  truthy (sessionId st) = true ->
  sessionId st <> js "__proto__" ->
  Forall (fun m => validDate (timestamp m) = true) (messages st) ->
  validClock (clock env) ->
  Forall (fun m => id m <> assistantMessageId (clock env))
    (messages st ++ [userMessage (clock env) st]) ->
  let r := handleSend env st w in
  let e := saveMessagesEffect now nowList (fst r) sb (storage (snd r)) in
  exists session,
    storedSession (snd e) (sessionId st) = Some session /\
    session_title session = sessionTitle (messages st ++ [userMessage (clock env) st]) /\
    (forall q, find (fun m => Role_eqb (role m) user) (messages st) = Some q ->
               session_title session = sessionTitle (messages st)) /\
    (find (fun m => Role_eqb (role m) user) (messages st) = None ->
     session_title session
     = firstn 50 (input st)
       ++ (if 50 <? Z.of_nat (List.length (input st)) then js "..." else [])).
Proof.
  intros Hin Hth Hsid Hp Hv (Hu & Hc & He) Hfresh. cbv zeta.
  destruct (handleSend_keeps_session env st w) as [Hs Hw].
  unfold saveMessagesEffect. rewrite Hs, Hsid, Hw.
  assert (Hm : exists tail,
             messages (fst (handleSend env st w))
             = (messages st ++ [userMessage (clock env) st]) ++ tail /\
             Forall (fun m => validDate (timestamp m) = true)
               (messages (fst (handleSend env st w)))).
  { unfold handleSend. rewrite submit_submitted by assumption. cbn [fst].
    destruct (complete_conversation env (assistantMessageId (clock env))
                (submitted (clock env) st) Hfresh) as (tail & Ht & _).
    exists tail. split; [exact Ht|].
    apply complete_validDates; try assumption.
    cbn [submitted messages]. apply Forall_app. split; [exact Hv|].
    constructor; [exact Hu | constructor]. }
  destruct Hm as (tail & Hm & Hvalid).
  assert (Hne : messages (fst (handleSend env st w)) <> []).
  { rewrite Hm. destruct (messages st); discriminate. }
  destruct (saveChatHistory_valid now (sessionId st) _ (storage w) Hne Hvalid)
    as (stored & Hl & ->).
  cbn [fst snd]. unfold storedSession.
  rewrite getAllChatHistory_set, objOwn_objSet_same by now right.
  eexists. split; [reflexivity|]. cbn [session_title]. rewrite Hm.
  assert (Hq : find (fun m => Role_eqb (role m) user)
                 (messages st ++ [userMessage (clock env) st]) <> None).
  { rewrite find_app_first.
    destruct (find (fun m => Role_eqb (role m) user) (messages st)); discriminate. }
  assert (Ht : sessionTitle ((messages st ++ [userMessage (clock env) st]) ++ tail)
               = sessionTitle (messages st ++ [userMessage (clock env) st])).
  { rewrite sessionTitle_app.
    destruct (find (fun m => Role_eqb (role m) user)
                (messages st ++ [userMessage (clock env) st])); [reflexivity | contradiction]. }
  rewrite Ht. split; [reflexivity|]. split.
  - intros q Hfind. rewrite sessionTitle_app, Hfind. reflexivity.
  - intros Hfind. rewrite sessionTitle_app, Hfind. reflexivity.
Qed.

Lemma title_is_fixed_by_the_first_question_witness :
  let env := answering mixedReads (Some networkError) in
  let r := handleSend env idleState freshWorld in
  let e := saveMessagesEffect 1764873002000 1764873002001 (fst r) mountedSidebar
             (storage (snd r)) in
  exists session,
    storedSession (snd e) (sessionId idleState) = Some session /\
    session_title session
    = sessionTitle (messages idleState ++ [userMessage (clock env) idleState]) /\
    (forall q, find (fun m => Role_eqb (role m) user) (messages idleState) = Some q ->
               session_title session = sessionTitle (messages idleState)) /\
    (find (fun m => Role_eqb (role m) user) (messages idleState) = None ->
     session_title session
     = firstn 50 (input idleState)
       ++ (if 50 <? Z.of_nat (List.length (input idleState)) then js "..." else [])).
Proof.
  apply (title_is_fixed_by_the_first_question (answering mixedReads (Some networkError))
           idleState freshWorld mountedSidebar 1764873002000 1764873002001).
  - reflexivity.
  - reflexivity.
  - reflexivity.
  - discriminate.
  - constructor.
  - split; [reflexivity | split; reflexivity].
  - constructor; [|constructor]. intros H. vm_compute in H. discriminate H.
Defined.

(** ** Dates that cannot be read *)

Lemma storeMessages_unreadable messages :
  unreadable messages ->
  storeMessages messages = Throw (ErrorObject (js "RangeError") (js "Invalid time value")).
Proof.
  induction 1 as [m rest Hm | m rest _ IH]; cbn [storeMessages].
  - rewrite Hm. reflexivity.
  - destruct (timestamp m); cbn [toISOString]; [|reflexivity].
    now rewrite IH.
Qed.

Lemma saveChatHistory_unreadable now sessionId messages ls :
  unreadable messages ->
  saveChatHistory now sessionId messages ls
  = (Throw (ErrorObject (js "RangeError") (js "Invalid time value")), ls).
Proof.
  intros H. unfold saveChatHistory.
  destruct messages as [|m rest]; [inversion H|].
  now rewrite (storeMessages_unreadable _ H).
Qed.

Lemma updateMessage_unreadable aid f l :
  (forall m, timestamp (f m) = timestamp m) ->
  unreadable l -> unreadable (updateMessage aid f l).
Proof.
  intros Hf H. unfold unreadable, updateMessage in *.
  apply Exists_exists in H as (m & Hin & Hm). apply Exists_exists.
  exists (if str_eqb (id m) aid then f m else m). split.
  - apply in_map_iff. now exists m.
  - destruct (str_eqb (id m) aid); [now rewrite Hf | exact Hm].
Qed.

Lemma unreadable_app l l' : unreadable l -> unreadable (l ++ l').
Proof. intros H. apply Exists_app. now left. Qed.

Lemma applyEvent_unreadable clk aid acc ev :
  unreadable (messages (fst acc)) -> unreadable (messages (fst (applyEvent clk aid acc ev))).
Proof.
  destruct acc as [st tu]. cbn [fst]. intros H.
  destruct ev as [[message|fragment|srcs| |]|]; cbn [applyEvent applyChunk fst snd];
    try exact H.
  - destruct (messageAdded tu); cbn [negb fst messages setMessages].
    + now apply updateMessage_unreadable.
    + now apply unreadable_app.
  - destruct (messageAdded tu); cbn [fst messages setMessages]; [|exact H].
    now apply updateMessage_unreadable.
Qed.

Lemma handleSend_unreadable env st w :
  unreadable (messages st) -> unreadable (messages (fst (handleSend env st w))).
Proof.
  intros H. unfold handleSend, submit.
  destruct (negb (truthy (trim (input st))) || isThinking st); [exact H|].
  cbn [fst].
  match goal with |- unreadable (messages (complete env ?aid ?st1)) =>
    assert (Hk : (fun acc => unreadable (messages (fst acc))) (fst (stream env aid st1)));
    [ apply stream_invariant;
      [ intros acc line Hacc;
        destruct (handleLine_cases (clock env) aid acc line) as [-> | [ev ->]];
        [exact Hacc | now apply applyEvent_unreadable]
      | cbn [fst messages setMessages setInput setIsThinking setThinkingStatus setError];
        now apply unreadable_app ]
    | unfold complete; destruct (stream env aid st1) as [[st2 tu2] [err|]];
      cbn [fst] in Hk; cbn [messages setThinkingStatus setIsThinking]; [|exact Hk] ]
  end.
  unfold handleError. destruct (messageAdded tu2); cbn [negb messages setMessages setError].
  - now apply updateMessage_unreadable.
  - now apply unreadable_app.
Qed.

(** X26. A conversation that holds a message with an invalid date cannot be
    saved: the save throws a RangeError before it writes and the effect
    ends there, so the store and the list stay as they are, before a turn
    and after it, whatever the network does; what is said from then on is
    gone after a reload.  Opening a stored session in which the timestamp of a
    message is no date gives such a conversation. *)
Theorem unreadable_timestamp_blocks_saving env st w sb now nowList :
  truthy (sessionId st) = true ->
  unreadable (messages st) ->
  saveMessagesEffect now nowList st sb (storage w) = (sb, storage w) /\
  saveMessagesEffect now nowList (fst (handleSend env st w)) sb
    (storage (snd (handleSend env st w))) = (sb, storage w) /\
  forall i session stored st0,
    storedSession (storage w) i = Some session ->
    In stored (session_messages session) ->
    Date_parse (stored_timestamp stored) = None ->
    unreadable (messages (fst (fst (snd (loadChatSession i st0 sb (storage w)))))).
Proof.
  intros Hsid H. split; [|split].
  - unfold saveMessagesEffect. rewrite Hsid.
    now rewrite (saveChatHistory_unreadable _ _ _ _ H).
  - destruct (handleSend_keeps_session env st w) as [Hs Hw].
    unfold saveMessagesEffect. rewrite Hs, Hsid, Hw.
    now rewrite (saveChatHistory_unreadable _ _ _ _ (handleSend_unreadable env st w H)).
  - intros i session stored st0 Hstored Hin Hparse.
    unfold loadChatSession, loadSession, objGet. unfold storedSession in Hstored.
    rewrite Hstored. cbn [fst snd messages setMessages setSessionId].
    apply Exists_exists. exists (loadMessage stored). split.
    + now apply in_map.
    + unfold loadMessage. cbn [timestamp]. unfold Date_fromString. now rewrite Hparse.
Qed.

Lemma unreadable_timestamp_blocks_saving_witness :
  let env := answering mixedReads None in
  let w := {| storage := staleStorage; requests := [] |} in
  saveMessagesEffect 1764873002000 1764873002001 staleState mountedSidebar (storage w)
  = (mountedSidebar, storage w) /\
  saveMessagesEffect 1764873002000 1764873002001 (fst (handleSend env staleState w))
    mountedSidebar (storage (snd (handleSend env staleState w)))
  = (mountedSidebar, storage w) /\
  forall i session stored st0,
    storedSession (storage w) i = Some session ->
    In stored (session_messages session) ->
    Date_parse (stored_timestamp stored) = None ->
    unreadable (messages (fst (fst (snd (loadChatSession i st0 mountedSidebar (storage w)))))).
Proof.
  apply (unreadable_timestamp_blocks_saving (answering mixedReads None) staleState
           {| storage := staleStorage; requests := [] |} mountedSidebar
           1764873002000 1764873002001).
  - reflexivity.
  - constructor. vm_compute. reflexivity.
Defined.

(** * The turn over reads of any shape *)

(** ** The events of the reads *)

Lemma lineEvent_marked payload : lineEvent (js "data: " ++ payload) = decodeEvent payload.
Proof. unfold lineEvent. rewrite js_data. reflexivity. Qed.

Lemma handleLine_lineEvent clk aid acc line :
  handleLine clk aid acc line = applyEvent clk aid acc (lineEvent line).
Proof.
  unfold lineEvent. destruct (startsWith line (js "data: ")) eqn:E.
  - rewrite (marked_line _ E) at 1. apply handleLine_event.
  - now apply handleLine_unmarked.
Qed.

Lemma fold_handleLine_lineEvent clk aid lines : forall acc,
  fold_left (handleLine clk aid) lines acc
  = fold_left (applyEvent clk aid) (map lineEvent lines) acc.
Proof.
  induction lines as [|line rest IH]; intros acc; [reflexivity|].
  cbn [map fold_left]. now rewrite handleLine_lineEvent, IH.
Qed.

Lemma readsHandled_events clk aid reads : forall acc,
  readsHandled clk aid reads acc = fold_left (applyEvent clk aid) (eventsRead reads) acc.
Proof.
  unfold readsHandled, eventsRead.
  induction reads as [|value rest IH]; intros acc; [reflexivity|].
  cbn [fold_left flat_map]. now rewrite fold_left_app, IH, fold_handleLine_lineEvent.
Qed.

Lemma readLoop_readsHandled clk aid ending reads : forall st tu,
  readLoop clk aid (streamOf reads ending) st tu = (readsHandled clk aid reads (st, tu), ending).
Proof.
  unfold readsHandled.
  induction reads as [|value rest IH]; intros st tu.
  - cbn. now destruct ending.
  - cbn [streamOf readLoop fold_left].
    destruct (fold_left (handleLine clk aid) _ (st, tu)) as [st' tu']. apply IH.
Qed.

Lemma chunkTexts_app a b : chunkTexts (a ++ b) = chunkTexts a ++ chunkTexts b.
Proof. unfold chunkTexts. now rewrite flat_map_app. Qed.

Lemma chunkTexts_cons ev evs : chunkTexts (ev :: evs) = chunkTexts [ev] ++ chunkTexts evs.
Proof. apply (chunkTexts_app [ev] evs). Qed.

Lemma lineEvent_frames payloads :
  forallb oneLine payloads = true ->
  chunkTexts (map lineEvent (split (framesText payloads) frameSeparator))
  = chunkTexts (map decodeEvent payloads).
Proof.
  intros H. rewrite split_frames by now apply oneLine_no_line_feed.
  rewrite map_app, map_map, chunkTexts_app. cbn [map].
  rewrite (map_ext _ decodeEvent) by apply lineEvent_marked.
  apply app_nil_r.
Qed.

Lemma chunksRead_whole_frames reads : forall payloadss,
  map TextDecoder.decode reads = map framesText payloadss ->
  forallb oneLine (concat payloadss) = true ->
  chunksRead reads = chunkTexts (map decodeEvent (concat payloadss)).
Proof.
  unfold chunksRead, eventsRead.
  induction reads as [|value rest IH]; intros payloadss Hd Hp.
  - destruct payloadss; [reflexivity | discriminate].
  - destruct payloadss as [|payloads payloadss]; [discriminate|].
    cbn [map] in Hd. injection Hd as Hv Hrest.
    rewrite forallb_app_concat in Hp. apply andb_true_iff in Hp as [Hp Hps].
    cbn [flat_map concat]. rewrite chunkTexts_app, map_app, chunkTexts_app.
    rewrite Hv, lineEvent_frames by exact Hp. f_equal. now apply IH.
Qed.

(** ** The state between the reads *)

Lemma applyEvent_readingState clk aid base cs acc ev :
  readingState base aid clk cs acc ->
  readingState base aid clk (cs ++ chunkTexts [ev]) (applyEvent clk aid acc ev).
Proof.
  destruct acc as [st tu]. unfold readingState. cbn [fst snd]. intros (Hacc & H).
  destruct ev as [[message|fragment|srcs| |]|]; cbn [chunkTexts flat_map app];
    rewrite ?app_nil_r; cbn [applyEvent fst snd messages setThinkingStatus setIsThinking];
    try (split; assumption).
  - (* chunk *)
    assert (Hcat : concat (cs ++ [fragment]) = concat cs ++ fragment)
      by (rewrite concat_app; cbn; now rewrite app_nil_r).
    unfold applyChunk. destruct cs as [|c0 cs'].
    + destruct H as (Hadd & Hm). rewrite Hadd. cbn [negb fst snd app].
      cbn [messages accumulatedContent messageAdded setMessages].
      rewrite Hacc, Hm, <- Hcat. cbn [app]. split; [reflexivity|]. split; [reflexivity|].
      exists base, (assistantMessage aid clk (concat [fragment])).
      repeat split; reflexivity.
    + destruct H as (Hadd & pre & m & Hm & Hid & Hrole & Hc & Ht & Hts).
      rewrite Hadd. cbn [negb fst snd].
      cbn [messages accumulatedContent messageAdded setMessages].
      rewrite Hacc, <- Hcat. split; [reflexivity|].
      change ((c0 :: cs') ++ [fragment]) with (c0 :: (cs' ++ [fragment])) at 2.
      cbv iota. split; [reflexivity|].
      rewrite Hm, updateMessage_last by exact Hid.
      eexists _, _. split; [reflexivity|].
      cbn [id role content timestamp withContent].
      repeat split; try assumption.
      rewrite updateMessage_timestamps by reflexivity. exact Hts.
  - (* sources *)
    destruct cs as [|c0 cs'].
    + destruct H as (Hadd & Hm). rewrite Hadd.
      cbn [fst snd messageAdded accumulatedContent]. now repeat split.
    + destruct H as (Hadd & pre & m & Hm & Hid & Hrole & Hc & Ht & Hts).
      rewrite Hadd. cbn [fst snd messageAdded accumulatedContent messages setMessages].
      split; [exact Hacc|]. split; [reflexivity|].
      rewrite Hm, updateMessage_last by exact Hid.
      eexists _, _. split; [reflexivity|].
      cbn [id role content timestamp withSources].
      repeat split; try assumption.
      rewrite updateMessage_timestamps by reflexivity. exact Hts.
Qed.

Lemma fold_applyEvent_readingState clk aid base evs : forall cs acc,
  readingState base aid clk cs acc ->
  readingState base aid clk (cs ++ chunkTexts evs) (fold_left (applyEvent clk aid) evs acc).
Proof.
  induction evs as [|ev evs IH]; intros cs acc H; cbn [fold_left].
  - cbn. now rewrite app_nil_r.
  - rewrite chunkTexts_cons, app_assoc. apply IH. now apply applyEvent_readingState.
Qed.



(** ** The end of the turn *)

Lemma complete_reads env aid st1 status reads ending :
  response env = FetchResponse true status (Some (streamOf reads ending)) ->
  match chunksRead reads with
  | [] =>
      messages (complete env aid st1)
      = messages st1 ++ match ending with
                        | Some err => [errorMessage aid (clock env) err]
                        | None => []
                        end
  | _ :: _ =>
      exists pre m,
        messages (complete env aid st1) = pre ++ [m] /\
        map timestamp pre = map timestamp (messages st1) /\
        id m = aid /\ role m = assistant /\
        content m = concat (chunksRead reads) ++ failureNotice ending /\
        timestamp m = DateValue (now_firstChunk (clock env))
  end.
Proof.
  intros Hresp. unfold complete, stream. rewrite Hresp. cbn [negb].
  rewrite readLoop_readsHandled, readsHandled_events.
  assert (H0 : readingState (messages st1) aid (clock env) [] (st1, turnStart))
    by (repeat split).
  apply (fold_applyEvent_readingState _ _ _ (eventsRead reads)) in H0.
  cbn [app] in H0. fold (chunksRead reads) in H0. fold turnStart.
  destruct (fold_left _ (eventsRead reads) (st1, turnStart)) as [st' tu'].
  destruct H0 as (Hacc & H0). cbn [fst snd] in *.
  destruct (chunksRead reads) as [|c cs].
  - destruct H0 as (Hadd & Hm). destruct ending as [err|].
    + unfold handleError. rewrite Hadd. cbn [negb].
      cbn [messages setMessages setError setIsThinking setThinkingStatus].
      now rewrite Hm.
    + cbn [messages setIsThinking setThinkingStatus]. now rewrite Hm, app_nil_r.
  - destruct H0 as (Hadd & pre & m & Hm & Hid & Hrole & Hc & Ht & Hts).
    destruct ending as [err|].
    + unfold handleError. rewrite Hadd. cbn [negb].
      cbn [messages setMessages setError setIsThinking setThinkingStatus].
      rewrite Hm, updateMessage_last by exact Hid.
      eexists _, _. split; [reflexivity|].
      cbn [id role content timestamp withContent failureNotice].
      rewrite updateMessage_timestamps by reflexivity. rewrite Hc.
      repeat split; assumption.
    + cbn [messages setIsThinking setThinkingStatus failureNotice].
      exists pre, m. rewrite app_nil_r. repeat split; assumption.
Qed.

Lemma handleSend_valid env st w :
  truthy (trim (input st)) = true -> isThinking st = false ->
  Forall (fun m => validDate (timestamp m) = true) (messages st) ->
  validClock (clock env) ->
  messages (fst (handleSend env st w)) <> [] /\
  Forall (fun m => validDate (timestamp m) = true) (messages (fst (handleSend env st w))).
Proof.
  intros Hin Hth Hv (Hu & Hc & He).
  unfold handleSend. rewrite submit_submitted by assumption. cbn [fst]. split.
  - apply complete_nonempty. cbn [submitted messages]. now destruct (messages st).
  - apply complete_validDates; try assumption.
    cbn [submitted messages]. apply Forall_app. split; [exact Hv|].
    constructor; [exact Hu | constructor].
Qed.

(** ** C1: fragments and reads, in general *)

(** C1 (as amended). Each read is decoded and split at the blank lines on its
    own, and nothing is kept from one read to the next.  Whatever the reads
    of the body are, when a piece of one of them carries a [chunk] event, the
    answer is the last message of the conversation and its content is the
    fragments of the [chunk] events the reads carry, in order, followed by
    the notice of the failure when a read of the body fails.  When every
    read is a run of whole frames, of payloads that hold on one line, the
    [chunk] events the reads carry are those of the payloads, in order. *)
Theorem chunks_read_concatenate env st w status reads ending :
  truthy (trim (input st)) = true -> isThinking st = false ->
  response env = FetchResponse true status (Some (streamOf reads ending)) ->
  chunksRead reads <> [] ->
  (exists pre m,
     messages (fst (handleSend env st w)) = pre ++ [m] /\
     List.length pre = S (List.length (messages st)) /\
     id m = assistantMessageId (clock env) /\
     role m = assistant /\
     content m = concat (chunksRead reads) ++ failureNotice ending) /\
  (forall payloadss,
     map TextDecoder.decode reads = map framesText payloadss ->
     forallb oneLine (concat payloadss) = true ->
     chunksRead reads = chunkTexts (map decodeEvent (concat payloadss))).
Proof.
  intros Hin Hth Hresp Hne. split.
  - unfold handleSend. rewrite submit_submitted by assumption. cbn [fst].
    pose proof (complete_reads env (assistantMessageId (clock env))
                  (submitted (clock env) st) status reads ending Hresp) as H.
    destruct (chunksRead reads) as [|c cs]; [contradiction|].
    destruct H as (pre & m & Hm & Hts & Hid & Hrole & Hc & _).
    exists pre, m. split; [exact Hm|]. split; [|now repeat split].
    apply (f_equal (@List.length Date)) in Hts. rewrite !length_map in Hts.
    rewrite Hts. cbn [submitted messages]. rewrite length_app. cbn [List.length]. lia.
  - intros payloadss. apply chunksRead_whole_frames.
Qed.

Lemma chunks_read_concatenate_witness :
  (exists pre m,
     messages (fst (handleSend (answering
                                  [firstn 40 helloAndMore; skipn 40 helloAndMore]
                                  (Some networkError)) idleState freshWorld))
     = pre ++ [m] /\
     List.length pre = S (List.length (messages idleState)) /\
     id m = assistantMessageId sampleClock /\
     role m = assistant /\
     content m
     = concat (chunksRead [firstn 40 helloAndMore; skipn 40 helloAndMore])
       ++ failureNotice (Some networkError)) /\
  (forall payloadss,
     map TextDecoder.decode [firstn 40 helloAndMore; skipn 40 helloAndMore]
     = map framesText payloadss ->
     forallb oneLine (concat payloadss) = true ->
     chunksRead [firstn 40 helloAndMore; skipn 40 helloAndMore]
     = chunkTexts (map decodeEvent (concat payloadss))).
Proof.
  apply (chunks_read_concatenate
           (answering [firstn 40 helloAndMore; skipn 40 helloAndMore] (Some networkError))
           idleState freshWorld 200 [firstn 40 helloAndMore; skipn 40 helloAndMore]
           (Some networkError)).
  - reflexivity.
  - reflexivity.
  - reflexivity.
  - vm_compute. discriminate.
Defined.

(** Two frames cut where the payload of the first ends: both fragments are
    read.  Cut one byte later, inside the blank line, the second read
    starts with a line feed and its frame is not read. *)
Example frames_cut_at_the_blank_line :
  chunksRead [helloAndMore] = [js "Hello"; js " and more"] /\
  chunksRead [firstn 40 helloAndMore; skipn 40 helloAndMore] = [js "Hello"; js " and more"] /\
  chunksRead [firstn 41 helloAndMore; skipn 41 helloAndMore] = [js "Hello"] /\
  transcript (handleSend (answering [firstn 41 helloAndMore; skipn 41 helloAndMore] None)
                idleState freshWorld)
  = [(user, js "What is the leave policy?", None); (assistant, js "Hello", None)].
Proof. repeat split; vm_compute; reflexivity. Qed.

(** ** C4: a stream that stops without [done], in general *)

(** C4 (as amended). Whatever the reads of the body are: when a piece of
    one of them carries a [chunk] event, the answer is the last message and
    holds the accumulated text, followed by the notice of the failure when
    a read of the body fails, and by nothing when the body merely ends.
    When no piece carries a [chunk] event, a body that fails leaves the
    error message for an answer and one that ends leaves none.  Either way
    the save effect leaves the conversation in the store under the session:
    loading it gives the messages shown, as JSON carries them.  (The session
    id is not empty and is not [__proto__]; the dates of the conversation
    and of the clock hold a time value.) *)
Theorem stopped_stream_keeps_partial env st w status reads ending now :
  truthy (trim (input st)) = true -> isThinking st = false ->
  response env = FetchResponse true status (Some (streamOf reads ending)) ->
  truthy (sessionId st) = true ->
  sessionId st <> js "__proto__" ->
  Forall (fun m => validDate (timestamp m) = true) (messages st) ->
  validClock (clock env) ->
  let r := handleSend env st w in
  (chunksRead reads <> [] ->
   exists pre m,
     messages (fst r) = pre ++ [m] /\
     role m = assistant /\
     content m = concat (chunksRead reads) ++ failureNotice ending) /\
  (chunksRead reads = [] ->
   messages (fst r)
   = messages st ++ [userMessage (clock env) st]
     ++ match ending with
        | Some err => [errorMessage (assistantMessageId (clock env)) (clock env) err]
        | None => []
        end) /\
  loadSession (sessionId st) (storage (saveEffect now (fst r) (snd r)))
  = Normal (Some (map asStored (messages (fst r)))) /\
  (Forall (fun m => asStored m = m) (messages (fst r)) ->
   loadSession (sessionId st) (storage (saveEffect now (fst r) (snd r)))
   = Normal (Some (messages (fst r)))).
Proof.
  intros Hin Hth Hresp Hsid Hp Hv Hclk. cbv zeta.
  destruct (handleSend_keeps_session env st w) as [Hs Hw].
  destruct (handleSend_valid env st w Hin Hth Hv Hclk) as [Hne Hvalid].
  assert (Hload : loadSession (sessionId st)
                    (storage (saveEffect now (fst (handleSend env st w))
                                (snd (handleSend env st w))))
                  = Normal (Some (map asStored (messages (fst (handleSend env st w)))))).
  { unfold saveEffect. rewrite Hs, Hsid. cbn [storage]. rewrite Hw.
    now apply saveChatHistory_loadSession. }
  pose proof (complete_reads env (assistantMessageId (clock env))
                (submitted (clock env) st) status reads ending Hresp) as H.
  split; [|split; [|split]].
  - intros Hc. unfold handleSend. rewrite submit_submitted by assumption. cbn [fst].
    destruct (chunksRead reads) as [|c cs]; [contradiction|].
    destruct H as (pre & m & Hm & _ & _ & Hrole & Hcontent & _).
    exists pre, m. now repeat split.
  - intros Hc. unfold handleSend. rewrite submit_submitted by assumption. cbn [fst].
    rewrite Hc in H. rewrite H. cbn [submitted messages]. now rewrite <- app_assoc.
  - exact Hload.
  - intros Hsame. rewrite Hload. now rewrite (map_unchanged _ _ Hsame).
Qed.

Lemma stopped_stream_keeps_partial_witness :
  let r := handleSend (answering partialReads (Some networkError)) idleState freshWorld in
  (chunksRead partialReads <> [] ->
   exists pre m,
     messages (fst r) = pre ++ [m] /\
     role m = assistant /\
     content m = concat (chunksRead partialReads) ++ failureNotice (Some networkError)) /\
  (chunksRead partialReads = [] ->
   messages (fst r)
   = messages idleState ++ [userMessage sampleClock idleState]
     ++ [errorMessage (assistantMessageId sampleClock) sampleClock networkError]) /\
  loadSession (sessionId idleState) (storage (saveEffect 1764873002000 (fst r) (snd r)))
  = Normal (Some (map asStored (messages (fst r)))) /\
  (Forall (fun m => asStored m = m) (messages (fst r)) ->
   loadSession (sessionId idleState) (storage (saveEffect 1764873002000 (fst r) (snd r)))
   = Normal (Some (messages (fst r)))).
Proof.
  apply (stopped_stream_keeps_partial (answering partialReads (Some networkError))
           idleState freshWorld 200 partialReads (Some networkError) 1764873002000).
  - reflexivity.
  - reflexivity.
  - reflexivity.
  - reflexivity.
  - discriminate.
  - constructor.
  - split; [reflexivity | split; reflexivity].
Defined.

(** A failed read after a chunk gives the text and the notice; the frame of
    the chunk cut between two reads gives the error message alone. *)
Example failed_read_after_a_chunk :
  transcript (handleSend (answering partialReads (Some networkError)) idleState freshWorld)
  = [(user, js "What is the leave policy?", None);
     (assistant, text "Partial~~Error: network error", None)] /\
  transcript (handleSend (answering [firstn 26 partialFrame; skipn 26 partialFrame]
                            (Some networkError)) idleState freshWorld)
  = [(user, js "What is the leave policy?", None);
     (assistant, js "Error: network error. Please try again.", None)].
Proof. split; vm_compute; reflexivity. Qed.

(** ** C8: one turn at a time *)




